(** * Style Shepherd trend service: a shallow embedding of
      [server/trend-service/trend_service.py] and the properties of its
      aggregation engine.

    Conventions of the embedding.
    - A Python [float] is a rational ([Q]), the exact value of the float,
      and [round(x, n)] is modelled exactly (round-half-to-even of that value
      on the decimal scale).  The arithmetic of the signal combiner, lines
      285-299, is the arithmetic of doubles (module [F64]): an operation
      returns the double nearest to the exact result, ties to the even
      mantissa, and takes for an operand that is not a double (the literals
      0.6 and 0.4, an [int]) the double nearest to it.  Overflow is outside
      the model: the exponent of a double is not bounded above.  The mock
      generator and the fetcher are modelled with exact rationals.
    - A Python [int] is a [Z]; a [str] is a [string].
    - A Python [dict] is an insertion-ordered association list with unique
      keys ([dict_set] keeps the position of an existing key).
    - Code that raises returns an [Exc] value; code that talks to the outside
      world (network, clock, [random]) threads an abstract world state and asks
      the oracles of a [Runtime] record. *)

From Stdlib Require Import ZArith QArith Qround Qpower List String Ascii Bool.
From Stdlib Require Import Lia Lqa.
From Stdlib Require Import DecimalString DecimalPos DecimalZ FinFun.
Import ListNotations.

Local Open Scope Q_scope.

(** ** Python builtins on numbers *)

Module Py.

(** [max(a, b)]: the first argument unless the second is strictly greater. *)
Definition max2 (a b : Q) : Q := if Qlt_le_dec a b then b else a.

(** [min(a, b)]: the first argument unless the second is strictly smaller. *)
Definition min2 (a b : Q) : Q := if Qlt_le_dec b a then b else a.

(** [max(arr)] for a non-empty list [x :: xs]: left-to-right scan keeping the
    first maximal element. *)
Definition max_list (x : Q) (xs : list Q) : Q := fold_left max2 xs x.

Definition min_list (x : Q) (xs : list Q) : Q := fold_left min2 xs x.

(** Round-half-to-even of a rational to an integer. *)
Definition round_half_even (q : Q) : Z :=
  let n := Qnum q in
  let d := Zpos (Qden q) in
  let f := (n / d)%Z in
  let r := (n mod d)%Z in
  match (2 * r ?= d)%Z with
  | Lt => f
  | Gt => (f + 1)%Z
  | Eq => if Z.even f then f else (f + 1)%Z
  end.

(** [round(x, 3)] and [round(x, 4)]. *)
Definition round_to (scale : positive) (q : Q) : Q :=
  Qmake (round_half_even (q * inject_Z (Zpos scale))) scale.

Definition round3 : Q -> Q := round_to 1000.
Definition round4 : Q -> Q := round_to 10000.

End Py.

(** ** Utilities *)

(** [arr = [float(max(0.0, s)) for s in scores]] *)
Definition clamp0 (s : Q) : Q := Py.max2 0 s.

(** [safe_normalize], lines 106-114. *)
Definition safe_normalize (scores : list Q) : list Q :=
  let arr := map clamp0 scores in
  let smax := match arr with [] => 0 | x :: xs => Py.max_list x xs end in
  let smin := match arr with [] => 0 | x :: xs => Py.min_list x xs end in
  if Qeq_bool smax smin then map (fun _ => 0) arr
  else map (fun v => (v - smin) / (smax - smin)) arr.

(** ** Binary64 arithmetic

    The doubles are the rationals [m * 2^e] with [|m| <= 2^53] and
    [-1074 <= e] (the subnormal numbers included).  The exponent has no upper
    bound here: the infinities, which a result beyond about 1.8e308 gives,
    and NaN are not modelled. *)

Module F64.

(** The [k] with [2^k <= q < 2^(k+1)], for a positive [q]. *)
Definition floor_log2 (q : Q) : Z :=
  let k := (Z.log2 (Qnum q) - Z.log2 (Zpos (Qden q)))%Z in
  if Qle_bool (2 ^ k) q then k else (k - 1)%Z.

(** The exponent of the last place of the double nearest to a positive [q]:
    53 bits of mantissa, and no exponent below -1074. *)
Definition exponent (q : Q) : Z := Z.max (floor_log2 q - 52) (-1074).

Definition mantissa (q : Q) : Z := Py.round_half_even (q / 2 ^ exponent q).

(** The double nearest to a positive [q], ties to the even mantissa. *)
Definition round_pos (q : Q) : Q :=
  Qred (inject_Z (mantissa q) * 2 ^ exponent q).

(** The double nearest to [q]: what [float(q)] and a decimal literal give,
    and the result of an operation whose exact value is [q]. *)
Definition round (q : Q) : Q :=
  match Qnum q with
  | Z0 => 0
  | Zpos _ => round_pos q
  | Zneg _ => - round_pos (- q)
  end.

(** The operations [+], [-], [*] and [/] of floats.  An operand stands for
    the double nearest to it, which is the operand itself when it is a
    double. *)
Definition add (a b : Q) : Q := round (round a + round b).
Definition sub (a b : Q) : Q := round (round a - round b).
Definition mul (a b : Q) : Q := round (round a * round b).
Definition div (a b : Q) : Q := round (round a / round b).

(** [q] is a double. *)
Definition representable (q : Q) : Prop :=
  exists m e : Z,
    (Z.abs m <= 2 ^ 53)%Z /\ (-1074 <= e)%Z /\ q == inject_Z m * 2 ^ e.

End F64.

(** [safe_normalize], lines 106-114, with the arithmetic of doubles, as the
    combiner runs it on the cluster counts: [float(max(0.0, s))] is the double
    nearest to the clamped score, [max], [min] and [==] are exact, and the
    subtractions and the division round.  The divisor is the rounded
    difference of two distinct doubles, which is never zero. *)
Definition safe_normalize_f64 (scores : list Q) : list Q :=
  let arr := map (fun s => F64.round (clamp0 s)) scores in
  let smax := match arr with [] => 0 | x :: xs => Py.max_list x xs end in
  let smin := match arr with [] => 0 | x :: xs => Py.min_list x xs end in
  if Qeq_bool smax smin then map (fun _ => 0) arr
  else map (fun v => F64.div (F64.sub v smin) (F64.sub smax smin)) arr.

(** ** Python builtins on strings *)

Local Open Scope string_scope.

Module PyStr.

(** [str(z)] for an [int], as an f-string interpolates it. *)
Definition str_of_int (z : Z) : string := NilZero.string_of_int (Z.to_int z).

(** [c.isspace()] on the code points below 256. *)
Definition isspace (c : ascii) : bool :=
  let n := nat_of_ascii c in
  ((9 <=? n) && (n <=? 13) || (28 <=? n) && (n <=? 32)
   || (n =? 133) || (n =? 160))%nat.

Fixpoint lstrip (s : string) : string :=
  match s with
  | EmptyString => EmptyString
  | String c r => if isspace c then lstrip r else s
  end.

Fixpoint rstrip (s : string) : string :=
  match s with
  | EmptyString => EmptyString
  | String c r =>
      match rstrip r with
      | EmptyString => if isspace c then EmptyString else String c EmptyString
      | r' => String c r'
      end
  end.

(** [s.strip()] *)
Definition strip (s : string) : string := rstrip (lstrip s).

(** [s.split(sep)] for a one-character separator: always at least one
    field. *)
Fixpoint split (sep : ascii) (s : string) : list string :=
  match s with
  | EmptyString => [EmptyString]
  | String c r =>
      if Ascii.eqb c sep then EmptyString :: split sep r
      else match split sep r with
           | h :: t => String c h :: t
           | [] => [String c EmptyString]
           end
  end.

(** Truthiness of a [str]. *)
Definition truthy (s : string) : bool := negb (String.eqb s EmptyString).

End PyStr.

(** ** Insertion-ordered dictionaries with string keys *)

Section Dict.
Context {V : Type}.

Definition dict := list (string * V).

Fixpoint dict_get (d : dict) (k : string) : option V :=
  match d with
  | [] => None
  | (k', v) :: r => if String.eqb k' k then Some v else dict_get r k
  end.

(** [d[k] = v]: an existing key keeps its position. *)
Fixpoint dict_set (d : dict) (k : string) (v : V) : dict :=
  match d with
  | [] => [(k, v)]
  | (k', v') :: r =>
      if String.eqb k' k then (k', v) :: r else (k', v') :: dict_set r k v
  end.

Definition dict_keys (d : dict) : list string := map fst d.
Definition dict_values (d : dict) : list V := map snd d.

(** [{k: v for k, v in pairs}] *)
Definition dict_of_pairs (pairs : list (string * V)) : dict :=
  fold_left (fun d kv => dict_set d (fst kv) (snd kv)) pairs [].

(** The representation invariant of a dictionary. *)
Definition dict_wf (d : dict) : Prop := NoDup (dict_keys d).
End Dict.

Arguments dict : clear implicits.

(** [d.get(k, default)] *)
Definition dict_get_default {V} (d : dict V) (k : string) (default : V) : V :=
  match dict_get d k with Some v => v | None => default end.

(** ** Data model *)

(** One element of [clusters["clusters"]]. *)
Record Cluster := {
  cluster_id : Z;
  count : Z;
  sample_indices : list Z;
  label_hint : option string;
  centroid_norm : option Q
}.

(** [clusters["meta"]]; ["sampled"] exists on the live path only. *)
Record Meta := {
  meta_n_clusters : Z;
  meta_source : string;
  meta_sampled : option Z
}.

Record ClusterSummary := {
  meta : Meta;
  clusters : list Cluster
}.

(** [{"key": cache_key, "value": clusters}] *)
Record CacheEntry := {
  entry_key : string;
  entry_value : ClusterSummary
}.

(** One element of the ["clusters"] list built by
    [combine_trends_with_clusters]. *)
Record CombinedEntry := {
  ce_cluster_id : Z;
  category : string;
  cluster_pop_score : Q;
  trend_score : Q;
  combined_score : Q;
  ce_sample_indices : list Z
}.

(** One element of ["extra_trends"]. *)
Record ExtraTrend := {
  et_category : string;
  et_trend_score : Q
}.

Record Combined := {
  cb_clusters : list CombinedEntry;
  cb_extra_trends : list ExtraTrend;
  cb_generated_at : string
}.

(** One element of [curated_mock_trends()["trends"]]. *)
Record CuratedTrend := {
  ct_category : string;
  ct_score : Q;
  ct_note : string
}.

(** The value of [df = pytrends.interest_over_time()]: [None], or a table of
    named columns whose cells may be missing (NaN). *)
Inductive Frame :=
| FrameNone
| FrameOf (columns : list (string * list (option Q))).

(** The result of PCA followed by [kmeans.fit_predict]: a label for every
    sampled row, and the norm of every centroid. *)
Record KMeansFit := {
  fit_labels : list Z;
  fit_centroid_norm : Z -> Q
}.

(** JSON bodies that the endpoints return.  [BodyFailure] is the body of a
    500 response; the text of its ["trace"] field is not modelled. *)
Inductive Body :=
| BodyError (error : string)
| BodyFailure (error : string)
| BodyTrends (source : string) (timeframe : option string)
             (error : option string) (scores : dict Q)
| BodyClusters (summary : ClusterSummary)
| BodyCombined (combined : Combined) (reference_asset : string).

(** [JSONResponse(content=..., status_code=...)] *)
Record JSONResponse := {
  status_code : Z;
  content : Body
}.

(** ** Exceptions and the state of a process *)

Inductive Exc (A : Type) :=
| Ok (a : A)
| Raise (e : string).
Arguments Ok {A} a.
Arguments Raise {A} e.

(** The module-level variable [_CLUSTER_CACHE] and the outside world. *)
Record PyState (W : Type) := {
  CLUSTER_CACHE : option CacheEntry;
  world : W
}.
Arguments CLUSTER_CACHE {W} _.
Arguments world {W} _.

(** What the process cannot decide by itself: the optional imports, the salted
    builtin [hash] of this process, and the libraries that talk to the network,
    the clock and the random generator.  Each effectful oracle takes the world
    and returns the world after the call. *)
Record Runtime (W : Type) := {
  HAS_PYTRENDS : bool;
  HAS_SKLEARN : bool;
  py_hash : string -> Z;
  TrendReq : W -> Exc unit * W;
  build_payload : list string -> string -> W -> Exc unit * W;
  interest_over_time : W -> Exc Frame * W;
  random_randint : Z -> Z -> W -> Z * W;
  random_choice : list string -> W -> string * W;
  strftime_gmtime : W -> string * W;
  fetch_openml : W -> Exc Z * W;
  rng_choice : Z -> Z -> Exc (list Z);
  pca_kmeans : list Z -> Z -> W -> Exc KMeansFit * W
}.
Arguments HAS_PYTRENDS {W} _.
Arguments HAS_SKLEARN {W} _.
Arguments py_hash {W} _ _.
Arguments TrendReq {W} _ _.
Arguments build_payload {W} _ _ _ _.
Arguments interest_over_time {W} _ _.
Arguments random_randint {W} _ _ _ _.
Arguments random_choice {W} _ _ _.
Arguments strftime_gmtime {W} _ _.
Arguments fetch_openml {W} _ _.
Arguments rng_choice {W} _ _ _.
Arguments pca_kmeans {W} _ _ _ _.

(** Computations that may raise and that read and write the process state. *)
Definition M (W A : Type) : Type := PyState W -> Exc A * PyState W.

Definition ret {W A} (a : A) : M W A := fun st => (Ok a, st).

Definition raise {W A} (e : string) : M W A := fun st => (Raise e, st).

Definition bind {W A B} (c : M W A) (k : A -> M W B) : M W B :=
  fun st =>
    match c st with
    | (Ok a, st') => k a st'
    | (Raise e, st') => (Raise e, st')
    end.

(** [try: c  except Exception as e: h e] *)
Definition try_except {W A} (c : M W A) (h : string -> M W A) : M W A :=
  fun st =>
    match c st with
    | (Ok a, st') => (Ok a, st')
    | (Raise e, st') => h e st'
    end.

(** A library call that may raise. *)
Definition call {W A} (f : W -> Exc A * W) : M W A :=
  fun st =>
    let (r, w) := f (world st) in
    (r, {| CLUSTER_CACHE := CLUSTER_CACHE st; world := w |}).

(** A library call that cannot raise. *)
Definition call_total {W A} (f : W -> A * W) : M W A :=
  fun st =>
    let (a, w) := f (world st) in
    (Ok a, {| CLUSTER_CACHE := CLUSTER_CACHE st; world := w |}).

(** A pure library call that may raise. *)
Definition lift_exc {W A} (r : Exc A) : M W A := fun st => (r, st).

Definition get_cache {W} : M W (option CacheEntry) :=
  fun st => (Ok (CLUSTER_CACHE st), st).

Definition set_cache {W} (e : CacheEntry) : M W unit :=
  fun st => (Ok tt, {| CLUSTER_CACHE := Some e; world := world st |}).

Declare Scope py_scope.
Delimit Scope py_scope with py.
Notation "x <- c ;; k" := (bind c (fun x => k))
  (at level 61, c at next level, right associativity) : py_scope.
Notation "c ;;; k" := (bind c (fun _ => k))
  (at level 61, right associativity) : py_scope.

(** [for x in l: acc = f acc x] *)
Fixpoint for_each {W A B} (f : B -> A -> M W B) (l : list A) (acc : B)
  : M W B :=
  match l with
  | [] => ret acc
  | x :: r => bind (f acc x) (fun acc' => for_each f r acc')
  end.

(** [range(n)] *)
Definition range (n : Z) : list Z := map Z.of_nat (seq 0 (Z.to_nat n)).

(** ** The service *)

Definition REFERENCE_ASSET_PATH : string :=
  "/mnt/data/A_presentation_slide_titled_" ++ String (ascii_of_nat 34)
  "The_Challenge_in_Fash.png".

Section Service.
Context {W : Type}.
Variable rt : Runtime W.

Local Open Scope py_scope.

(** *** Deterministic mock scores, lines 116-127 *)

(** The value stored under [k] by the loop body of [mock_trend_scores]. *)
Definition mock_raw_score (k : string) : Q :=
  let h := (Z.abs (py_hash rt k) mod 1000)%Z in
  let base :=
    inject_Z ((h mod 70) + (Z.of_nat (String.length k) mod 30)) / 100 in
  Py.round3 (Py.min2 1 (Py.max2 (1 # 100) base)).

Definition mock_trend_scores (keywords : list string) : dict Q :=
  let scores :=
    fold_left (fun d k => dict_set d k (mock_raw_score k)) keywords [] in
  let norm_vals := safe_normalize (dict_values scores) in
  dict_of_pairs
    (map (fun kv => (fst kv, Py.round3 (snd kv)))
         (combine (dict_keys scores) norm_vals)).

(** *** Google Trends, lines 132-171 *)

Definition CHUNK : nat := 5.

(** [[keywords[i:i+CHUNK] for i in range(0, len(keywords), CHUNK)]] *)
Fixpoint chunks_fuel (fuel : nat) (keywords : list string)
  : list (list string) :=
  match fuel, keywords with
  | _, [] => []
  | O, _ => []
  | S fuel', _ =>
      firstn CHUNK keywords :: chunks_fuel fuel' (skipn CHUNK keywords)
  end.

Definition chunks (keywords : list string) : list (list string) :=
  chunks_fuel (List.length keywords) keywords.

(** [df is None or df.empty] *)
Definition frame_empty (df : Frame) : bool :=
  match df with
  | FrameNone => true
  | FrameOf cols =>
      forallb (fun c => Nat.eqb (List.length (snd c)) 0) cols
  end.

(** [df[k].fillna(0.0).astype(float).values], when [k in df.columns]. *)
Definition frame_column (df : Frame) (k : string) : option (list Q) :=
  match df with
  | FrameNone => None
  | FrameOf cols =>
      match dict_get cols k with
      | Some cells =>
          Some (map (fun c => match c with Some v => v | None => 0 end)
                    cells)
      | None => None
      end
  end.

(** [float(vals.mean()) if len(vals) else 0.0] *)
Definition mean_val (vals : list Q) : Q :=
  match vals with
  | [] => 0
  | _ => fold_left Qplus vals 0 / inject_Z (Z.of_nat (List.length vals))
  end.

(** The score that one keyword of a chunk gets from a non-empty frame. *)
Definition keyword_score (df : Frame) (k : string) : Q :=
  match frame_column df k with
  | Some vals => mean_val vals
  | None => 0
  end.

(** The provider call for one batch, lines 148-149. *)
Definition provider_call (chunk : list string) (timeframe : string)
  : M W Frame :=
  call (build_payload rt chunk timeframe) ;;;
  call (interest_over_time rt).

(** The body of the loop over the chunks: the [try] block and its handler. *)
Definition fetch_chunk (timeframe : string) (all_scores : dict Q)
           (chunk : list string) : M W (dict Q) :=
  try_except
    (df <- provider_call chunk timeframe ;;
     if frame_empty df
     then ret (fold_left (fun d k => dict_set d k 0) chunk all_scores)
     else ret (fold_left (fun d k => dict_set d k (keyword_score df k))
                         chunk all_scores))
    (fun e => raise ("pytrends failure: " ++ e)).

Definition fetch_google_trends (keywords : list string) (timeframe : string)
  : M W (dict Q) :=
  if negb (HAS_PYTRENDS rt)
  then raise "pytrends not installed in this environment"
  else
    call (TrendReq rt) ;;;
    all_scores <- for_each (fetch_chunk timeframe) (chunks keywords) [] ;;
    let keys := dict_keys all_scores in
    let vals := map (fun k => dict_get_default all_scores k 0) keys in
    let normed := safe_normalize vals in
    ret (dict_of_pairs
           (map (fun kv => (fst kv, Py.round4 (snd kv)))
                (combine keys normed))).

(** *** Fashion-MNIST clustering, lines 176-255 *)

(** [f"clusters_{n_clusters}_{sample_limit}"] *)
Definition cache_key (n_clusters sample_limit : Z) : string :=
  "clusters_" ++ PyStr.str_of_int n_clusters ++ "_"
              ++ PyStr.str_of_int sample_limit.

(** One synthetic cluster of the two fallback loops (lines 198-203 and
    248-253), which differ in the lower bound of the count and in the
    vocabulary of labels. *)
Definition synthetic_cluster (lo : Z) (vocabulary : list string) (i : Z)
  : M W Cluster :=
  cnt <- call_total (random_randint rt lo 200) ;;
  s1 <- call_total (random_randint rt 0 999) ;;
  s2 <- call_total (random_randint rt 0 999) ;;
  s3 <- call_total (random_randint rt 0 999) ;;
  lab <- call_total (random_choice rt vocabulary) ;;
  ret {| cluster_id := i; count := cnt; sample_indices := [s1; s2; s3];
         label_hint := Some lab; centroid_norm := None |}.

Definition synthetic_clusters (lo : Z) (vocabulary : list string)
           (n_clusters : Z) : M W (list Cluster) :=
  for_each (fun acc i =>
              c <- synthetic_cluster lo vocabulary i ;; ret (acc ++ [c])%list)
           (range n_clusters) [].

(** [list(np.where(labels == c)[0])] *)
Fixpoint where_eq (labels : list Z) (c : Z) (pos : Z) : list Z :=
  match labels with
  | [] => []
  | l :: r =>
      if Z.eqb l c then pos :: where_eq r c (pos + 1)
      else where_eq r c (pos + 1)
  end.

(** [int(idx[i])] for a non-negative position; [IndexError] out of
    range. *)
Definition idx_at (idx : list Z) (i : Z) : Exc Z :=
  match nth_error idx (Z.to_nat i) with
  | Some v => Ok v
  | None => Raise "index out of bounds"
  end.

(** [[int(idx[i]) for i in inds[:5]]] *)
Fixpoint sample_inds (idx : list Z) (inds : list Z) : Exc (list Z) :=
  match inds with
  | [] => Ok []
  | i :: r =>
      match idx_at idx i with
      | Raise e => Raise e
      | Ok v =>
          match sample_inds idx r with
          | Raise e => Raise e
          | Ok vs => Ok (v :: vs)
          end
      end
  end.

(** The body of the loop over [range(n_clusters)] on the live path. *)
Definition live_cluster (idx : list Z) (fit : KMeansFit) (c : Z)
  : Exc Cluster :=
  let inds := where_eq (fit_labels fit) c 0 in
  match sample_inds idx (firstn 5 inds) with
  | Raise e => Raise e
  | Ok s =>
      Ok {| cluster_id := c; count := Z.of_nat (List.length inds);
            sample_indices := s;
            centroid_norm := Some (fit_centroid_norm fit c);
            label_hint := Some "unknown" |}
  end.

Fixpoint live_clusters (idx : list Z) (fit : KMeansFit) (cs : list Z)
  : Exc (list Cluster) :=
  match cs with
  | [] => Ok []
  | c :: r =>
      match live_cluster idx fit c with
      | Raise e => Raise e
      | Ok x =>
          match live_clusters idx fit r with
          | Raise e => Raise e
          | Ok xs => Ok (x :: xs)
          end
      end
  end.

(** The sampling step, lines 213-219: the positions of the sampled rows in
    the original dataset of [rows] rows. *)
Definition sample_idx (rows sample_limit : Z) : Exc (list Z) :=
  if negb (Z.eqb sample_limit 0) && Z.ltb sample_limit rows
  then rng_choice rt rows sample_limit
  else Ok (range rows).

(** The [try] block of the live path, lines 209-240. *)
Definition live_pipeline (n_clusters sample_limit : Z)
  : M W ClusterSummary :=
  rows <- call (fetch_openml rt) ;;
  idx <- lift_exc (sample_idx rows sample_limit) ;;
  fit <- call (pca_kmeans rt idx n_clusters) ;;
  cl <- lift_exc (live_clusters idx fit (range n_clusters)) ;;
  let summary :=
    {| meta := {| meta_n_clusters := n_clusters;
                  meta_source := "fashion-mnist";
                  meta_sampled := Some (Z.of_nat (List.length idx)) |};
       clusters := cl |} in
  set_cache {| entry_key := cache_key n_clusters sample_limit;
               entry_value := summary |} ;;;
  ret summary.

(** A synthetic summary stored in the cache, lines 193-205 and 243-255. *)
Definition synthetic_summary (source : string) (lo : Z)
           (vocabulary : list string) (n_clusters sample_limit : Z)
  : M W ClusterSummary :=
  cl <- synthetic_clusters lo vocabulary n_clusters ;;
  let summary :=
    {| meta := {| meta_n_clusters := n_clusters; meta_source := source;
                  meta_sampled := None |};
       clusters := cl |} in
  set_cache {| entry_key := cache_key n_clusters sample_limit;
               entry_value := summary |} ;;;
  ret summary.

(** Everything below the cache check, lines 191-255. *)
Definition recompute_clusters (n_clusters sample_limit : Z)
  : M W ClusterSummary :=
  if negb (HAS_SKLEARN rt)
  then synthetic_summary "mock" 20
         ["tops"; "dresses"; "shoes"; "accessories"] n_clusters sample_limit
  else try_except
         (live_pipeline n_clusters sample_limit)
         (fun _ => synthetic_summary "fallback_error" 10
                     ["tops"; "dresses"; "outerwear"]
                     n_clusters sample_limit).

(** [_CLUSTER_CACHE and _CLUSTER_CACHE.get("key") == cache_key] *)
Definition cache_hit (cache : option CacheEntry) (key : string)
  : option ClusterSummary :=
  match cache with
  | Some e => if String.eqb (entry_key e) key then Some (entry_value e)
              else None
  | None => None
  end.

Definition compute_fashion_clusters (n_clusters sample_limit : Z)
  : M W ClusterSummary :=
  cache <- get_cache ;;
  match cache_hit cache (cache_key n_clusters sample_limit) with
  | Some value => ret value
  | None => recompute_clusters n_clusters sample_limit
  end.

(** *** Curated trends, lines 260-273 *)

Definition curated_trends : list CuratedTrend :=
  [ {| ct_category := "linen"; ct_score := 92 # 100;
       ct_note := "Rising in searches across Europe; summer staple" |};
    {| ct_category := "oversized-blazer"; ct_score := 79 # 100;
       ct_note := "High engagement on social platforms" |};
    {| ct_category := "pastel-denim"; ct_score := 66 # 100;
       ct_note := "Niche but rapidly growing" |};
    {| ct_category := "sustainable-fabrics"; ct_score := 87 # 100;
       ct_note := "Brands pushing eco-friendly collections" |};
    {| ct_category := "athleisure"; ct_score := 58 # 100;
       ct_note := "Stable interest; high conversion rates" |} ].

(** [curated_mock_trends()]: the time stamp, the asset path and the
    trends. *)
Definition curated_mock_trends
  : M W (string * string * list CuratedTrend) :=
  now <- call_total (strftime_gmtime rt) ;;
  ret (now, REFERENCE_ASSET_PATH, curated_trends).

(** *** Combining trends and clusters, lines 278-307 *)

(** [c.get("label_hint") or f"cluster_{c['cluster_id']}"] *)
Definition resolved_category (c : Cluster) : string :=
  match label_hint c with
  | Some s =>
      if PyStr.truthy s then s
      else "cluster_" ++ PyStr.str_of_int (cluster_id c)
  | None => "cluster_" ++ PyStr.str_of_int (cluster_id c)
  end.

(** The body of the loop over [zip(cluster_summary["clusters"],
    pop_norm)], lines 288-301.  [combined] is computed in doubles, line 293:
    two products and one sum, each rounded.  The three fields round the
    values of the floats [pop], [trend_val] and [combined] to three decimals;
    [float(...)] of a float is the float itself. *)
Definition combined_entry (trend_scores : dict Q) (c : Cluster) (pop : Q)
  : CombinedEntry :=
  let cat := resolved_category c in
  let trend_val := dict_get_default trend_scores cat 0 in
  let combined :=
    F64.add (F64.mul (6 # 10) trend_val) (F64.mul (4 # 10) pop) in
  {| ce_cluster_id := cluster_id c;
     category := cat;
     cluster_pop_score := Py.round3 pop;
     trend_score := Py.round3 trend_val;
     combined_score := Py.round3 combined;
     ce_sample_indices := firstn 3 (sample_indices c) |}.

(** [pop_norm], line 286: the counts are normalized in doubles. *)
Definition pop_norm (cs : list Cluster) : list Q :=
  let cluster_counts := map (fun c => inject_Z (count c)) cs in
  match cluster_counts with
  | [] => []
  | _ => safe_normalize_f64 cluster_counts
  end.

(** [cluster_info], lines 287-301. *)
Definition cluster_info (trend_scores : dict Q) (cs : list Cluster)
  : list CombinedEntry :=
  map (fun cp => combined_entry trend_scores (fst cp) (snd cp))
      (combine cs (pop_norm cs)).

(** [any(ci["category"] == k for ci in cluster_info)] *)
Definition in_cluster_info (info : list CombinedEntry) (k : string) : bool :=
  existsb (fun ci => String.eqb (category ci) k) info.

(** [extra_trends], lines 303-306. *)
Definition extra_trends (trend_scores : dict Q) (info : list CombinedEntry)
  : list ExtraTrend :=
  fold_left
    (fun acc kv =>
       if negb (in_cluster_info info (fst kv))
       then (acc ++ [ {| et_category := fst kv;
                         et_trend_score := Py.round3 (snd kv) |} ])%list
       else acc)
    trend_scores [].

Definition combine_trends_with_clusters (trend_scores : dict Q)
           (cluster_summary : ClusterSummary) : M W Combined :=
  let info := cluster_info trend_scores (clusters cluster_summary) in
  let extra := extra_trends trend_scores info in
  now <- call_total (strftime_gmtime rt) ;;
  ret {| cb_clusters := info; cb_extra_trends := extra;
         cb_generated_at := now |}.

(** *** Endpoints, lines 322-390 *)

(** Truthiness of an [Optional[str]] query parameter. *)
Definition truthy_opt (keywords : option string) : bool :=
  match keywords with
  | Some s => PyStr.truthy s
  | None => false
  end.

(** [[k.strip() for k in keywords.split(",") if k.strip()]] *)
Definition parse_keywords (keywords : string) : list string :=
  filter PyStr.truthy (map PyStr.strip (PyStr.split "," keywords)).

Definition respond (code : Z) (body : Body) : M W JSONResponse :=
  ret {| status_code := code; content := body |}.

(** The handler of the outermost [try] of every endpoint. *)
Definition internal_error (e : string) : M W JSONResponse :=
  respond 500 (BodyFailure e).

Definition api_trends (keywords : option string) (timeframe : string)
  : M W JSONResponse :=
  try_except
    (match keywords with
     | Some kw =>
         if negb (PyStr.truthy kw)
         then respond 400 (BodyError "please provide ?keywords=kw1,kw2,...")
         else
           let kws := parse_keywords kw in
           match kws with
           | [] => respond 400 (BodyError "no valid keywords provided")
           | _ =>
               if HAS_PYTRENDS rt
               then try_except
                      (res <- fetch_google_trends kws timeframe ;;
                       respond 200 (BodyTrends "pytrends" (Some timeframe)
                                               None res))
                      (fun e =>
                         let fallback := mock_trend_scores kws in
                         respond 200 (BodyTrends "fallback_pytrends_error"
                                                 None (Some e) fallback))
               else
                 let fallback := mock_trend_scores kws in
                 respond 200 (BodyTrends "mock" None None fallback)
           end
     | None => respond 400 (BodyError "please provide ?keywords=kw1,kw2,...")
     end)
    internal_error.

Definition api_clusters (n_clusters sample_limit : Z) : M W JSONResponse :=
  try_except
    (cl <- compute_fashion_clusters n_clusters sample_limit ;;
     respond 200 (BodyClusters cl))
    internal_error.

(** The [if keywords: ... else: ...] of [api_combined], lines 369-381. *)
Definition combined_trend_scores (keywords : option string)
  : M W (dict Q) :=
  if truthy_opt keywords
  then
    let kws := parse_keywords (match keywords with
                               | Some kw => kw
                               | None => EmptyString
                               end) in
    if HAS_PYTRENDS rt
    then try_except (fetch_google_trends kws "today 12-m")
                    (fun _ => ret (mock_trend_scores kws))
    else ret (mock_trend_scores kws)
  else
    curated <- curated_mock_trends ;;
    ret (dict_of_pairs
           (map (fun t => (ct_category t, ct_score t)) (snd curated))).

Definition api_combined (keywords : option string) (n_clusters : Z)
  : M W JSONResponse :=
  try_except
    (trend_scores <- combined_trend_scores keywords ;;
     cl <- compute_fashion_clusters n_clusters 5000 ;;
     combined <- combine_trends_with_clusters trend_scores cl ;;
     respond 200 (BodyCombined combined REFERENCE_ASSET_PATH))
    internal_error.

End Service.

(** ** Specification vocabulary *)

(** [m] is a greatest element of [l], up to equality of rationals. *)
Definition is_max (m : Q) (l : list Q) : Prop :=
  Exists (fun x => x == m) l /\ Forall (fun x => x <= m) l.

(** [m] is a least element of [l]. *)
Definition is_min (m : Q) (l : list Q) : Prop :=
  Exists (fun x => x == m) l /\ Forall (fun x => m <= x) l.

(** All the elements of [l] are equal. *)
Definition all_equal (l : list Q) : Prop :=
  forall a b, In a l -> In b l -> a == b.

Definition in_unit_interval (q : Q) : Prop := 0 <= q /\ q <= 1.

(** ** Sample inputs *)

(** A cluster as [ClusterSummary(cluster_id, count, label_hint)] writes it. *)
Definition labelled_cluster (id cnt : Z) (label : string) : Cluster :=
  {| cluster_id := id; count := cnt; sample_indices := [];
     label_hint := Some label; centroid_norm := None |}.

(** Three clusters of 1, 2 and 4 members. *)
Definition three_clusters : list Cluster :=
  [ labelled_cluster 0 1 "a"; labelled_cluster 1 2 "b";
    labelled_cluster 2 4 "c" ].

Definition linen_cluster : list Cluster := [ labelled_cluster 0 10 "linen" ].

Definition denim_linen : dict Q := [ ("denim", 5 # 10); ("linen", 9 # 10) ].

(** [k] is the resolved category of no cluster of [cs]. *)
Definition unmatched (cs : list Cluster) (k : string) : bool :=
  negb (existsb (fun c => String.eqb (resolved_category c) k) cs).

(** The extra trend that the item [(k, v)] of the mapping becomes. *)
Definition extra_of (kv : string * Q) : ExtraTrend :=
  {| et_category := fst kv; et_trend_score := Py.round3 (snd kv) |}.

(** [c in s] for a character. *)
Fixpoint contains (c : ascii) (s : string) : bool :=
  match s with
  | EmptyString => false
  | String a r => Ascii.eqb a c || contains c r
  end.

(** ** A sample runtime

    The world is the log of the library calls made so far.  The provider
    refuses every batch that contains the keyword "blocked"; the random
    generator answers from the length of the log; the dataset has twelve
    rows; the seeded subsample takes the rows from the last one downwards;
    the clustering assigns the sampled rows to the clusters in turn and
    refuses a cluster count that is not between 1 and the sample size. *)

Definition demo_hash (seed : Z) (k : string) : Z :=
  (seed + fold_left (fun a c => a * 31 + Z.of_nat (nat_of_ascii c))
                    (list_ascii_of_string k) 7)%Z.

Definition demo_frame : Frame :=
  FrameOf [ ("linen", [Some 40; Some 60]); ("denim", [Some 10; None]);
            ("isPartial", [Some 0; Some 0]) ].

Definition demo_fit (idx : list Z) (n_clusters : Z) : KMeansFit :=
  {| fit_labels := map (fun i => (i mod n_clusters)%Z)
                       (range (Z.of_nat (List.length idx)));
     fit_centroid_norm := fun c => inject_Z c |}.

Definition demo_rt (pytrends sklearn : bool) (seed : Z)
  : Runtime (list string) :=
  {| HAS_PYTRENDS := pytrends;
     HAS_SKLEARN := sklearn;
     py_hash := demo_hash seed;
     TrendReq := fun w => (Ok tt, (w ++ ["TrendReq"])%list);
     build_payload := fun chunk _ w =>
       (if existsb (String.eqb "blocked") chunk
        then Raise "429" else Ok tt,
        (w ++ ["build_payload"])%list);
     interest_over_time := fun w =>
       (Ok demo_frame, (w ++ ["interest_over_time"])%list);
     random_randint := fun lo hi w =>
       ((lo + Z.of_nat (List.length w) mod (hi - lo + 1))%Z,
        (w ++ ["randint"])%list);
     random_choice := fun vocabulary w =>
       (nth (List.length w mod List.length vocabulary) vocabulary EmptyString,
        (w ++ ["choice"])%list);
     strftime_gmtime := fun w => ("2025-01-01T00:00:00Z", w);
     fetch_openml := fun w => (Ok 12%Z, (w ++ ["fetch_openml"])%list);
     rng_choice := fun rows k =>
       if (0 <=? k)%Z && (k <=? rows)%Z
       then Ok (map (fun i => (rows - 1 - i)%Z) (range k))
       else Raise "ValueError";
     pca_kmeans := fun idx n_clusters w =>
       (if (0 <? n_clusters)%Z
           && (n_clusters <=? Z.of_nat (List.length idx))%Z
        then Ok (demo_fit idx n_clusters)
        else Raise "ValueError",
        (w ++ ["pca_kmeans"])%list) |}.

(** A process that has just started. *)
Definition fresh : PyState (list string) :=
  {| CLUSTER_CACHE := None; world := [] |}.

(** ** Vocabulary for the cluster summarizer *)

(** The states a process can be in: it starts with an empty cache; the
    summarizer is the only writer of the cache; any other step changes the
    world only. *)
Inductive reachable {W : Type} (rt : Runtime W) : PyState W -> Prop :=
| reach_start (w : W) :
    reachable rt {| CLUSTER_CACHE := None; world := w |}
| reach_clusters (st st' : PyState W) (n_clusters sample_limit : Z)
                 (r : Exc ClusterSummary) :
    reachable rt st ->
    compute_fashion_clusters rt n_clusters sample_limit st = (r, st') ->
    reachable rt st'
| reach_world (st : PyState W) (w : W) :
    reachable rt st ->
    reachable rt {| CLUSTER_CACHE := CLUSTER_CACHE st; world := w |}.

(** The clustering library refuses a cluster count that is not positive. *)
Definition kmeans_rejects_nonpositive {W} (rt : Runtime W) : Prop :=
  forall idx n w, (n <= 0)%Z ->
    exists e w', pca_kmeans rt idx n w = (Raise e, w').

(** The sum of the [count] fields. *)
Definition sum_counts (cl : list Cluster) : Z :=
  fold_right Z.add 0%Z (map count cl).

(** The entry that a computation for [(n_clusters, sample_limit)] stores. *)
Definition entry_for (n_clusters sample_limit : Z) (v : ClusterSummary)
  : CacheEntry :=
  {| entry_key := cache_key n_clusters sample_limit; entry_value := v |}.

(** What the cache holds for a cluster count that is not positive. *)
Definition nonpositive_entries_empty {W} (rt : Runtime W) (st : PyState W)
  : Prop :=
  forall e n s,
    CLUSTER_CACHE st = Some e -> entry_key e = cache_key n s -> (n <= 0)%Z ->
    clusters (entry_value e) = []
    /\ (HAS_SKLEARN rt = false ->
        meta_source (meta (entry_value e)) = "mock")
    /\ (kmeans_rejects_nonpositive rt ->
        meta_source (meta (entry_value e)) = "mock"
        \/ meta_source (meta (entry_value e)) = "fallback_error").

(** The sum of a list of integers. *)
Definition sumZ (l : list Z) : Z := fold_right Z.add 0%Z l.

(** The original-dataset position behind position [i] of the subsample. *)
Definition original_index (idx : list Z) (i : Z) : Z :=
  nth (Z.to_nat i) idx 0%Z.

(** What the live loop is expected to emit for cluster [c]. *)
Definition expected_live_cluster (idx : list Z) (fit : KMeansFit) (c : Z)
  : Cluster :=
  {| cluster_id := c;
     count := Z.of_nat (List.length (where_eq (fit_labels fit) c 0));
     sample_indices :=
       map (original_index idx) (firstn 5 (where_eq (fit_labels fit) c 0));
     centroid_norm := Some (fit_centroid_norm fit c);
     label_hint := Some "unknown" |}.

(** The trend mapping that [api_combined] builds from the curated trends. *)
Definition curated_scores : dict Q :=
  dict_of_pairs (map (fun t => (ct_category t, ct_score t)) curated_trends).

(** The body of a combined response for given trend scores, clusters and time
    stamp. *)
Definition combined_of (trend_scores : dict Q) (v : ClusterSummary)
           (now : string) : Combined :=
  {| cb_clusters := cluster_info trend_scores (clusters v);
     cb_extra_trends :=
       extra_trends trend_scores (cluster_info trend_scores (clusters v));
     cb_generated_at := now |}.

(** ** Vocabulary for further properties *)

(** [k in acc] *)
Definition seen (acc : list string) (k : string) : bool :=
  existsb (String.eqb k) acc.

(** The keys of [acc], then the strings of [l] that are not yet among them,
    each once, in the order of their first occurrence. *)
Definition first_seen_onto (acc l : list string) : list string :=
  fold_left (fun a k => if seen a k then a else (a ++ [k])%list) l acc.

Definition first_seen (l : list string) : list string := first_seen_onto [] l.

(** [sep.join(parts)] *)
Fixpoint join (sep : ascii) (parts : list string) : string :=
  match parts with
  | [] => EmptyString
  | [p] => p
  | p :: r => p ++ String sep (join sep r)
  end.

(** [random.randint(lo, hi)] answers within its bounds. *)
Definition randint_in_range {W} (rt : Runtime W) : Prop :=
  forall lo hi w, (lo <= hi)%Z ->
    (lo <= fst (random_randint rt lo hi w) <= hi)%Z.

(** [random.choice(seq)] answers with an element of a non-empty [seq]. *)
Definition choice_from_list {W} (rt : Runtime W) : Prop :=
  forall vocabulary w, vocabulary <> [] ->
    In (fst (random_choice rt vocabulary w)) vocabulary.

(** What a synthetic cluster looks like: a count between [lo] and 200, three
    sample indices between 0 and 999, a label of the vocabulary, and no
    centroid norm. *)
Definition synthetic_shape (lo : Z) (vocabulary : list string) (c : Cluster)
  : Prop :=
  (lo <= count c <= 200)%Z
  /\ List.length (sample_indices c) = 3%nat
  /\ Forall (fun i => (0 <= i <= 999)%Z) (sample_indices c)
  /\ (exists label, label_hint c = Some label /\ In label vocabulary)
  /\ centroid_norm c = None.

(** The number of occurrences of [c] in [s]. *)
Fixpoint occurrences (c : ascii) (s : string) : nat :=
  match s with
  | EmptyString => 0
  | String a r => (if Ascii.eqb a c then 1 else 0) + occurrences c r
  end.

(** The provider has no data: every frame it returns is empty. *)
Definition provider_has_no_data {W} (rt : Runtime W) : Prop :=
  forall w df w', interest_over_time rt w = (Ok df, w') ->
                  frame_empty df = true.

(** The sample runtime with a provider that answers every request with an
    empty frame. *)
Definition nodata_rt : Runtime (list string) :=
  let rt := demo_rt true false 0 in
  {| HAS_PYTRENDS := true;
     HAS_SKLEARN := false;
     py_hash := py_hash rt;
     TrendReq := TrendReq rt;
     build_payload := build_payload rt;
     interest_over_time := fun w =>
       (Ok (FrameOf []), (w ++ ["interest_over_time"])%list);
     random_randint := random_randint rt;
     random_choice := random_choice rt;
     strftime_gmtime := strftime_gmtime rt;
     fetch_openml := fetch_openml rt;
     rng_choice := rng_choice rt;
     pca_kmeans := pca_kmeans rt |}.

(** A computation whose result and whose effect on the world do not depend on
    what the cluster cache holds when it starts. *)
Definition cache_oblivious {W A} (c : M W A) : Prop :=
  forall st1 st2,
    world st1 = world st2 ->
    fst (c st1) = fst (c st2) /\ world (snd (c st1)) = world (snd (c st2)).

(** The state of a process that has the world of [st] and an empty cache. *)
Definition with_empty_cache {W} (st : PyState W) : PyState W :=
  {| CLUSTER_CACHE := None; world := world st |}.

(** * Properties *)

(** ** Numbers *)

Lemma max2_ge_l (a b : Q) : a <= Py.max2 a b.
Proof.
  unfold Py.max2. destruct (Qlt_le_dec a b) as [H | H].
  - apply Qlt_le_weak, H.
  - apply Qle_refl.
Qed.

Lemma max2_ge_r (a b : Q) : b <= Py.max2 a b.
Proof.
  unfold Py.max2. destruct (Qlt_le_dec a b) as [H | H].
  - apply Qle_refl.
  - exact H.
Qed.

Lemma max2_cases (a b : Q) : Py.max2 a b = a \/ Py.max2 a b = b.
Proof. unfold Py.max2. destruct (Qlt_le_dec a b); auto. Qed.

Lemma min2_le_l (a b : Q) : Py.min2 a b <= a.
Proof.
  unfold Py.min2. destruct (Qlt_le_dec b a) as [H | H].
  - apply Qlt_le_weak, H.
  - apply Qle_refl.
Qed.

Lemma min2_le_r (a b : Q) : Py.min2 a b <= b.
Proof.
  unfold Py.min2. destruct (Qlt_le_dec b a) as [H | H].
  - apply Qle_refl.
  - exact H.
Qed.

Lemma min2_cases (a b : Q) : Py.min2 a b = a \/ Py.min2 a b = b.
Proof. unfold Py.min2. destruct (Qlt_le_dec b a); auto. Qed.

Lemma max_list_ge_init (xs : list Q) : forall x, x <= Py.max_list x xs.
Proof.
  unfold Py.max_list. induction xs as [| y ys IH]; intro x; simpl.
  - apply Qle_refl.
  - eapply Qle_trans; [apply (max2_ge_l x y) | apply IH].
Qed.

Lemma max_list_ge (xs : list Q) :
  forall x y, In y xs -> y <= Py.max_list x xs.
Proof.
  unfold Py.max_list. induction xs as [| z zs IH]; intros x y Hin; simpl.
  - destruct Hin.
  - destruct Hin as [-> | Hin].
    + eapply Qle_trans; [apply (max2_ge_r x y) | apply max_list_ge_init].
    + apply IH, Hin.
Qed.

Lemma max_list_in (xs : list Q) :
  forall x, In (Py.max_list x xs) (x :: xs).
Proof.
  unfold Py.max_list. induction xs as [| z zs IH]; intro x; simpl.
  - now left.
  - destruct (IH (Py.max2 x z)) as [H | H].
    + rewrite <- H. destruct (max2_cases x z) as [-> | ->]; auto.
    + right. now right.
Qed.

Lemma min_list_le_init (xs : list Q) : forall x, Py.min_list x xs <= x.
Proof.
  unfold Py.min_list. induction xs as [| y ys IH]; intro x; simpl.
  - apply Qle_refl.
  - eapply Qle_trans; [apply IH | apply min2_le_l].
Qed.

Lemma min_list_le (xs : list Q) :
  forall x y, In y xs -> Py.min_list x xs <= y.
Proof.
  unfold Py.min_list. induction xs as [| z zs IH]; intros x y Hin; simpl.
  - destruct Hin.
  - destruct Hin as [-> | Hin].
    + eapply Qle_trans; [apply min_list_le_init | apply min2_le_r].
    + apply IH, Hin.
Qed.

Lemma min_list_in (xs : list Q) :
  forall x, In (Py.min_list x xs) (x :: xs).
Proof.
  unfold Py.min_list. induction xs as [| z zs IH]; intro x; simpl.
  - now left.
  - destruct (IH (Py.min2 x z)) as [H | H].
    + rewrite <- H. destruct (min2_cases x z) as [-> | ->]; auto.
    + right. now right.
Qed.

Lemma max_list_is_max (x : Q) (xs : list Q) :
  is_max (Py.max_list x xs) (x :: xs).
Proof.
  split.
  - apply Exists_exists. exists (Py.max_list x xs).
    split; [apply max_list_in | apply Qeq_refl].
  - apply Forall_forall. intros y [<- | Hin].
    + apply max_list_ge_init.
    + now apply max_list_ge.
Qed.

Lemma min_list_is_min (x : Q) (xs : list Q) :
  is_min (Py.min_list x xs) (x :: xs).
Proof.
  split.
  - apply Exists_exists. exists (Py.min_list x xs).
    split; [apply min_list_in | apply Qeq_refl].
  - apply Forall_forall. intros y [<- | Hin].
    + apply min_list_le_init.
    + now apply min_list_le.
Qed.

Lemma clamp0_nonneg (s : Q) : 0 <= clamp0 s.
Proof. apply max2_ge_l. Qed.

Lemma clamp0_of_nonneg (s : Q) : 0 <= s -> clamp0 s == s.
Proof.
  intro H. unfold clamp0, Py.max2. destruct (Qlt_le_dec 0 s) as [_ | H'].
  - apply Qeq_refl.
  - apply Qle_antisym; assumption.
Qed.

Lemma clamp0_of_nonpos (s : Q) : s <= 0 -> clamp0 s == 0.
Proof.
  intro H. unfold clamp0, Py.max2. destruct (Qlt_le_dec 0 s) as [H' | _].
  - apply Qle_antisym; [exact H | apply Qlt_le_weak, H'].
  - apply Qeq_refl.
Qed.

(** Min-max scaling stays in the unit interval. *)
Lemma scale_in_unit_interval (v lo hi : Q) :
  lo <= v -> v <= hi -> lo < hi -> in_unit_interval ((v - lo) / (hi - lo)).
Proof.
  intros Hlo Hhi Hlt. unfold in_unit_interval.
  assert (Hpos : 0 < hi - lo) by lra.
  split.
  - apply Qle_shift_div_l; [exact Hpos | lra].
  - apply Qle_shift_div_r; [exact Hpos | lra].
Qed.

(** ** The score normalizer *)

Lemma safe_normalize_nil : safe_normalize [] = [].
Proof. reflexivity. Qed.

Lemma safe_normalize_cons (s : Q) (r : list Q) :
  safe_normalize (s :: r) =
  let arr := clamp0 s :: map clamp0 r in
  let smax := Py.max_list (clamp0 s) (map clamp0 r) in
  let smin := Py.min_list (clamp0 s) (map clamp0 r) in
  if Qeq_bool smax smin then map (fun _ => 0) arr
  else map (fun v => (v - smin) / (smax - smin)) arr.
Proof. reflexivity. Qed.

Lemma min_le_max (mn mx : Q) (l : list Q) :
  l <> [] -> is_min mn l -> is_max mx l -> mn <= mx.
Proof.
  intros Hne [_ Hmin] [_ Hmax]. destruct l as [| x xs]; [now elim Hne |].
  inversion Hmin; inversion Hmax; subst. eapply Qle_trans; eassumption.
Qed.

Lemma all_equal_of_min_eq_max (mn mx : Q) (l : list Q) :
  is_min mn l -> is_max mx l -> mx == mn -> all_equal l.
Proof.
  intros [_ Hmin] [_ Hmax] Heq a b Ha Hb.
  rewrite Forall_forall in Hmin, Hmax.
  pose proof (Hmin a Ha). pose proof (Hmax a Ha).
  pose proof (Hmin b Hb). pose proof (Hmax b Hb). lra.
Qed.

Lemma min_eq_max_of_all_equal (mn mx : Q) (l : list Q) :
  is_min mn l -> is_max mx l -> all_equal l -> mx == mn.
Proof.
  intros [Hmin _] [Hmax _] Hall.
  apply Exists_exists in Hmin. destruct Hmin as (a & Ha & Ea).
  apply Exists_exists in Hmax. destruct Hmax as (b & Hb & Eb).
  rewrite <- Ea, <- Eb. apply Hall; assumption.
Qed.

Lemma Forall_map_const0 {A} (l : list A) :
  Forall in_unit_interval (map (fun _ => 0) l).
Proof.
  apply Forall_forall. intros y Hy. apply in_map_iff in Hy.
  destruct Hy as (_ & <- & _). split; lra.
Qed.

Lemma safe_normalize_length (scores : list Q) :
  List.length (safe_normalize scores) = List.length scores.
Proof.
  unfold safe_normalize.
  destruct (Qeq_bool _ _); now rewrite !length_map.
Qed.

Lemma safe_normalize_unit (scores : list Q) :
  Forall in_unit_interval (safe_normalize scores).
Proof.
  destruct scores as [| s r]; [constructor |].
  rewrite safe_normalize_cons. cbv zeta.
  pose proof (max_list_is_max (clamp0 s) (map clamp0 r)) as Hmax.
  pose proof (min_list_is_min (clamp0 s) (map clamp0 r)) as Hmin.
  set (smax := Py.max_list (clamp0 s) (map clamp0 r)) in *.
  set (smin := Py.min_list (clamp0 s) (map clamp0 r)) in *.
  assert (Hle : smin <= smax).
  { eapply min_le_max; [| exact Hmin | exact Hmax]. discriminate. }
  destruct (Qeq_bool smax smin) eqn:E; [apply Forall_map_const0 |].
  assert (Hlt : smin < smax).
  { apply Qle_lteq in Hle. destruct Hle as [Hlt | Heq]; [exact Hlt |].
    symmetry in Heq. apply Qeq_eq_bool in Heq. congruence. }
  apply Forall_forall. intros y Hy. apply in_map_iff in Hy.
  destruct Hy as (v & <- & Hv).
  destruct Hmin as [_ Hmin]. destruct Hmax as [_ Hmax].
  rewrite Forall_forall in Hmin, Hmax.
  apply scale_in_unit_interval; auto.
Qed.

(** C1. For every input sequence, [safe_normalize] returns a sequence of the
    same length whose elements all lie in [0,1]; every input is first clamped
    to be at least 0; when the clamped values are all equal (the empty and
    the one-element sequences included) every output is 0; otherwise the
    output at each position is [(v - min) / (max - min)] for the clamped value
    [v] at that position, with [min] and [max] the least and the greatest
    clamped values. *)
Theorem safe_normalize_spec (scores : list Q) :
  List.length (safe_normalize scores) = List.length scores
  /\ Forall in_unit_interval (safe_normalize scores)
  /\ (forall s, 0 <= clamp0 s
                /\ (0 <= s -> clamp0 s == s) /\ (s <= 0 -> clamp0 s == 0))
  /\ (all_equal (map clamp0 scores) ->
      safe_normalize scores = map (fun _ => 0) scores)
  /\ (~ all_equal (map clamp0 scores) ->
      exists mn mx,
        is_min mn (map clamp0 scores) /\ is_max mx (map clamp0 scores)
        /\ mn < mx
        /\ safe_normalize scores =
           map (fun s => (clamp0 s - mn) / (mx - mn)) scores).
Proof.
  split; [apply safe_normalize_length |].
  split; [apply safe_normalize_unit |].
  split.
  { intro s. split; [apply clamp0_nonneg |].
    split; [apply clamp0_of_nonneg | apply clamp0_of_nonpos]. }
  destruct scores as [| s r].
  - split; [reflexivity |]. intro H. elim H. intros a b [].
  - rewrite safe_normalize_cons. cbv zeta.
    pose proof (max_list_is_max (clamp0 s) (map clamp0 r)) as Hmax.
    pose proof (min_list_is_min (clamp0 s) (map clamp0 r)) as Hmin.
    set (smax := Py.max_list (clamp0 s) (map clamp0 r)) in *.
    set (smin := Py.min_list (clamp0 s) (map clamp0 r)) in *.
    change (clamp0 s :: map clamp0 r) with (map clamp0 (s :: r)) in *.
    assert (Hle : smin <= smax).
    { eapply min_le_max; [| exact Hmin | exact Hmax]. discriminate. }
    destruct (Qeq_bool smax smin) eqn:E.
    + apply Qeq_bool_eq in E.
      split; [intros _; now rewrite map_map |].
      intro Hne. elim Hne.
      eapply all_equal_of_min_eq_max; eassumption.
    + assert (Hneq : ~ smax == smin).
      { intro H. apply Qeq_eq_bool in H. congruence. }
      assert (Hlt : smin < smax).
      { apply Qle_lteq in Hle. destruct Hle as [Hlt | Heq]; [exact Hlt |].
        elim Hneq. now symmetry. }
      split.
      { intro Hall. elim Hneq.
        eapply min_eq_max_of_all_equal; eassumption. }
      intros _. exists smin, smax.
      repeat split; try apply Hmin; try apply Hmax; try exact Hlt.
      now rewrite map_map.
Qed.

(** ** Rounding *)

Lemma round_half_even_cases (q : Q) :
  let f := (Qnum q / Zpos (Qden q))%Z in
  let r := (Qnum q mod Zpos (Qden q))%Z in
  Py.round_half_even q = f
  \/ (Py.round_half_even q = (f + 1)%Z /\ (0 < r)%Z).
Proof.
  cbv zeta. unfold Py.round_half_even.
  pose proof (Z.mod_pos_bound (Qnum q) (Zpos (Qden q)) eq_refl) as Hr.
  destruct (Z.compare_spec (2 * (Qnum q mod Zpos (Qden q)))
                           (Zpos (Qden q))) as [H | H | H].
  - destruct (Z.even _); [now left | right; split; [reflexivity | lia]].
  - now left.
  - right. split; [reflexivity | lia].
Qed.

Lemma round_half_even_ge (k : Z) (q : Q) :
  inject_Z k <= q -> (k <= Py.round_half_even q)%Z.
Proof.
  destruct q as [n d]. unfold Qle. simpl. intro H.
  assert (Hf : (k <= n / Zpos d)%Z).
  { apply Z.div_le_lower_bound; lia. }
  destruct (round_half_even_cases (n # d)) as [E | [E _]];
    simpl in E; rewrite E; lia.
Qed.

Lemma round_half_even_le (k : Z) (q : Q) :
  q <= inject_Z k -> (Py.round_half_even q <= k)%Z.
Proof.
  destruct q as [n d]. unfold Qle. simpl. intro H.
  pose proof (Z.div_mod n (Zpos d) ltac:(lia)) as Hdm.
  pose proof (Z.mod_pos_bound n (Zpos d) eq_refl) as Hr.
  pose proof (round_half_even_cases (n # d)) as Hc.
  cbv zeta in Hc. cbn [Qnum Qden] in Hc.
  set (f := (n / Zpos d)%Z) in *. set (r := (n mod Zpos d)%Z) in *.
  assert (Hd : (0 < Zpos d)%Z) by lia.
  set (D := Zpos d) in *. clearbody D f r.
  destruct Hc as [E | [E Hpos]]; rewrite E; nia.
Qed.

Lemma round_to_unit (scale : positive) (q : Q) :
  in_unit_interval q -> in_unit_interval (Py.round_to scale q).
Proof.
  intros [H0 H1]. unfold Py.round_to, in_unit_interval.
  assert (Hs : 0 < inject_Z (Zpos scale)) by (unfold Qlt; simpl; lia).
  assert (Hlo : (0 <= Py.round_half_even (q * inject_Z (Zpos scale)))%Z).
  { apply round_half_even_ge. change (inject_Z 0) with 0. nra. }
  assert (Hhi : (Py.round_half_even (q * inject_Z (Zpos scale))
                 <= Zpos scale)%Z).
  { apply round_half_even_le. nra. }
  unfold Qle. simpl. lia.
Qed.

Lemma round3_unit (q : Q) : in_unit_interval q -> in_unit_interval (Py.round3 q).
Proof. apply round_to_unit. Qed.

(** Rounding is the identity on the multiples of the scale. *)
Lemma round_to_exact (scale : positive) (z : Z) :
  Py.round_to scale (z # scale) == z # scale.
Proof.
  unfold Py.round_to.
  assert (E : Py.round_half_even ((z # scale) * inject_Z (Zpos scale)) = z).
  { apply Z.le_antisymm.
    - apply round_half_even_le. unfold Qle. simpl. lia.
    - apply round_half_even_ge. unfold Qle. simpl. lia. }
  rewrite E. apply Qeq_refl.
Qed.

(** ** Powers of two *)

Lemma pow2_pos (e : Z) : 0 < 2 ^ e.
Proof. apply Qpower_0_lt. reflexivity. Qed.

Lemma pow2_add (a b : Z) : 2 ^ (a + b) == 2 ^ a * 2 ^ b.
Proof. apply Qpower_plus. discriminate. Qed.

Lemma pow2_sub (a b : Z) : 2 ^ (a - b) == 2 ^ a / 2 ^ b.
Proof. apply Qpower_minus. discriminate. Qed.

Lemma pow2_succ (a : Z) : 2 ^ (a + 1) == 2 * 2 ^ a.
Proof. rewrite pow2_add. change (2 ^ 1) with 2. ring. Qed.

Lemma pow2_le (a b : Z) : (a <= b)%Z -> 2 ^ a <= 2 ^ b.
Proof.
  intro H. apply Qpower_le_compat_l; [exact H |]. unfold Qle. simpl. lia.
Qed.

Lemma pow2_lt (a b : Z) : (a < b)%Z -> 2 ^ a < 2 ^ b.
Proof.
  intro H. apply Qlt_le_trans with (2 ^ (a + 1)).
  - rewrite pow2_succ. pose proof (pow2_pos a). lra.
  - apply pow2_le. lia.
Qed.

Lemma pow2_lt_inv (a b : Z) : 2 ^ a < 2 ^ b -> (a < b)%Z.
Proof.
  intro H. destruct (Z.lt_ge_cases a b) as [Hlt | Hge]; [exact Hlt |].
  apply pow2_le in Hge. lra.
Qed.

Lemma pow2_inject (a : Z) : (0 <= a)%Z -> 2 ^ a == inject_Z (2 ^ a).
Proof. intro H. rewrite Zpower_Qpower by exact H. reflexivity. Qed.

Lemma pow2_div_same (q : Q) (e : Z) : q / 2 ^ e * 2 ^ e == q.
Proof. pose proof (pow2_pos e). field. lra. Qed.

(** ** Rounding to the nearest integer, ties to even *)

Lemma inject_Z_succ_le (a b : Z) : (a < b)%Z -> inject_Z a + 1 <= inject_Z b.
Proof.
  intro H. assert (H1 : inject_Z (a + 1) <= inject_Z b).
  { rewrite <- Zle_Qle. lia. }
  rewrite inject_Z_plus in H1. exact H1.
Qed.

Lemma inject_Z_succ_eq (a b : Z) :
  inject_Z b == inject_Z a + 1 -> b = (a + 1)%Z.
Proof.
  intro H. apply inject_Z_injective. rewrite inject_Z_plus. exact H.
Qed.

Lemma round_half_even_spec (q : Q) :
  inject_Z (Py.round_half_even q) - (1 # 2) <= q
  /\ q <= inject_Z (Py.round_half_even q) + (1 # 2)
  /\ (q == inject_Z (Py.round_half_even q) + (1 # 2) ->
      Z.even (Py.round_half_even q) = true)
  /\ (q == inject_Z (Py.round_half_even q) - (1 # 2) ->
      Z.even (Py.round_half_even q) = true).
Proof.
  destruct q as [n d]. unfold Py.round_half_even. cbn [Qnum Qden].
  pose proof (Z.div_mod n (Zpos d) ltac:(lia)) as Hdm.
  pose proof (Z.mod_pos_bound n (Zpos d) eq_refl) as Hr.
  set (f := (n / Zpos d)%Z) in *. set (r := (n mod Zpos d)%Z) in *.
  assert (Hd : (0 < Zpos d)%Z) by lia.
  set (D := Zpos d) in *.
  assert (Hodd : Z.even f = false -> Z.even (f + 1) = true).
  { intro H. rewrite Z.even_add, H. reflexivity. }
  unfold Qle, Qeq, Qminus, Qplus, Qopp. cbn [Qnum Qden inject_Z].
  fold D. clearbody D f r.
  destruct (Z.compare_spec (2 * r) D) as [H | H | H].
  - destruct (Z.even f) eqn:Ev.
    + repeat split; try nia. intros _. exact Ev.
    + repeat split; try nia. intros _. now apply Hodd.
  - repeat split; try nia.
  - repeat split; try nia.
Qed.

Lemma round_half_even_unique (q : Q) (z : Z) :
  inject_Z z - (1 # 2) <= q -> q <= inject_Z z + (1 # 2) ->
  (q == inject_Z z + (1 # 2) -> Z.even z = true) ->
  (q == inject_Z z - (1 # 2) -> Z.even z = true) ->
  Py.round_half_even q = z.
Proof.
  intros Hlo Hhi Hup Hdown.
  destruct (round_half_even_spec q) as (Hlo' & Hhi' & Hup' & Hdown').
  set (z' := Py.round_half_even q) in *. clearbody z'.
  destruct (Z.lt_trichotomy z' z) as [Hlt | [E | Hgt]]; [| exact E |].
  - exfalso.
    pose proof (inject_Z_succ_le z' z ltac:(lia)) as H1.
    assert (E1 : q == inject_Z z' + (1 # 2)) by lra.
    assert (E2 : q == inject_Z z - (1 # 2)) by lra.
    assert (E3 : inject_Z z == inject_Z z' + 1) by lra.
    apply inject_Z_succ_eq in E3.
    pose proof (Hup' E1) as Ev1. pose proof (Hdown E2) as Ev2.
    subst z. rewrite Z.even_add, Ev1 in Ev2. discriminate.
  - exfalso.
    pose proof (inject_Z_succ_le z z' ltac:(lia)) as H1.
    assert (E1 : q == inject_Z z + (1 # 2)) by lra.
    assert (E2 : q == inject_Z z' - (1 # 2)) by lra.
    assert (E3 : inject_Z z' == inject_Z z + 1) by lra.
    apply inject_Z_succ_eq in E3.
    pose proof (Hup E1) as Ev1. pose proof (Hdown' E2) as Ev2.
    subst z'. rewrite Z.even_add, Ev1 in Ev2. discriminate.
Qed.

Lemma round_half_even_compat (x y : Q) :
  x == y -> Py.round_half_even x = Py.round_half_even y.
Proof.
  intro E. destruct (round_half_even_spec y) as (Hlo & Hhi & Hup & Hdown).
  apply round_half_even_unique.
  - now rewrite E.
  - now rewrite E.
  - intro H. apply Hup. apply Qeq_trans with x; [now symmetry | exact H].
  - intro H. apply Hdown. apply Qeq_trans with x; [now symmetry | exact H].
Qed.

Lemma round_half_even_mono (x y : Q) :
  x <= y -> (Py.round_half_even x <= Py.round_half_even y)%Z.
Proof.
  intro Hxy.
  destruct (round_half_even_spec x) as (Hlox & Hhix & Hupx & Hdownx).
  destruct (round_half_even_spec y) as (Hloy & Hhiy & Hupy & Hdowny).
  set (zx := Py.round_half_even x) in *. set (zy := Py.round_half_even y) in *.
  clearbody zx zy.
  destruct (Z.le_gt_cases zx zy) as [H | H]; [exact H | exfalso].
  pose proof (inject_Z_succ_le zy zx ltac:(lia)) as H1.
  assert (E1 : y == inject_Z zy + (1 # 2)) by lra.
  assert (E2 : x == inject_Z zx - (1 # 2)) by lra.
  assert (E3 : inject_Z zx == inject_Z zy + 1) by lra.
  apply inject_Z_succ_eq in E3.
  pose proof (Hupy E1) as Ev1. pose proof (Hdownx E2) as Ev2.
  subst zx. rewrite Z.even_add, Ev1 in Ev2. discriminate.
Qed.

Lemma round_half_even_inject (z : Z) (q : Q) :
  q == inject_Z z -> Py.round_half_even q = z.
Proof.
  intro E. apply round_half_even_unique; try lra; intro H; exfalso; lra.
Qed.

(** ** The exponent of a positive rational *)

Lemma floor_log2_spec (q : Q) :
  0 < q ->
  2 ^ F64.floor_log2 q <= q /\ q < 2 ^ (F64.floor_log2 q + 1).
Proof.
  intro Hq. destruct q as [n d].
  assert (Hn : (0 < n)%Z).
  { unfold Qlt in Hq. simpl in Hq. lia. }
  unfold F64.floor_log2. cbn [Qnum Qden].
  pose proof (Z.log2_spec n Hn) as [Ha1 Ha2].
  pose proof (Z.log2_spec (Zpos d) eq_refl) as [Hb1 Hb2].
  pose proof (Z.log2_nonneg n) as Ha0.
  pose proof (Z.log2_nonneg (Zpos d)) as Hb0.
  set (a := Z.log2 n) in *. set (b := Z.log2 (Zpos d)) in *.
  assert (HA1 : 2 ^ a <= inject_Z n).
  { rewrite pow2_inject by exact Ha0. now rewrite <- Zle_Qle. }
  assert (HA2 : inject_Z n < 2 * 2 ^ a).
  { rewrite <- pow2_succ, pow2_inject by lia. rewrite <- Zlt_Qlt.
    now rewrite <- Z.add_1_r in Ha2. }
  assert (HB1 : 2 ^ b <= inject_Z (Zpos d)).
  { rewrite pow2_inject by exact Hb0. now rewrite <- Zle_Qle. }
  assert (HB2 : inject_Z (Zpos d) < 2 * 2 ^ b).
  { rewrite <- pow2_succ, pow2_inject by lia. rewrite <- Zlt_Qlt.
    now rewrite <- Z.add_1_r in Hb2. }
  assert (HD : 0 < inject_Z (Zpos d)) by (unfold Qlt; simpl; lia).
  assert (Eq : (n # d) * inject_Z (Zpos d) == inject_Z n).
  { unfold Qeq. simpl. rewrite Pos.mul_1_r. ring. }
  pose proof (pow2_pos a) as HpA. pose proof (pow2_pos b) as HpB.
  pose proof (pow2_pos (a - b)) as HpK.
  assert (EK : 2 ^ (a - b) * 2 ^ b == 2 ^ a).
  { rewrite <- pow2_add. now replace (a - b + b)%Z with a by lia. }
  set (A := 2 ^ a) in *. set (B := 2 ^ b) in *. set (K := 2 ^ (a - b)) in *.
  set (N := inject_Z n) in *. set (D := inject_Z (Zpos d)) in *.
  set (x := n # d) in *.
  destruct (Qle_bool K x) eqn:Hle.
  - apply Qle_bool_iff in Hle. split; [exact Hle |].
    rewrite pow2_succ. fold K.
    destruct (Qlt_le_dec x (2 * K)) as [H | H]; [exact H | exfalso].
    assert (H1 : 2 * K * B <= x * D).
    { apply Qle_trans with (x * B).
      - apply Qmult_le_compat_r; [exact H | lra].
      - rewrite !(Qmult_comm x). apply Qmult_le_compat_r; [exact HB1 | lra]. }
    nra.
  - assert (Hlt : x < K).
    { destruct (Qlt_le_dec x K) as [H | H]; [exact H |].
      apply Qle_bool_iff in H. congruence. }
    assert (EK' : 2 ^ (a - b - 1) * 2 == K).
    { unfold K. rewrite <- (pow2_add (a - b - 1) 1).
      now replace (a - b - 1 + 1)%Z with (a - b)%Z by lia. }
    pose proof (pow2_pos (a - b - 1)) as HpK'.
    replace (a - b - 1 + 1)%Z with (a - b)%Z by lia. fold K.
    split; [| exact Hlt].
    set (K' := 2 ^ (a - b - 1)) in *.
    destruct (Qlt_le_dec x K') as [H | H]; [exfalso | exact H].
    assert (H1 : x * D < K' * (2 * B)).
    { apply Qmult_lt_compat_nonneg; split; try lra. }
    nra.
Qed.

Lemma floor_log2_unique (q : Q) (k : Z) :
  2 ^ k <= q -> q < 2 ^ (k + 1) -> F64.floor_log2 q = k.
Proof.
  intros Hlo Hhi.
  assert (Hq : 0 < q) by (pose proof (pow2_pos k); lra).
  destruct (floor_log2_spec q Hq) as [Hlo' Hhi'].
  assert (H1 : (F64.floor_log2 q < k + 1)%Z) by (apply pow2_lt_inv; lra).
  assert (H2 : (k < F64.floor_log2 q + 1)%Z) by (apply pow2_lt_inv; lra).
  lia.
Qed.

Lemma floor_log2_compat (x y : Q) :
  0 < x -> x == y -> F64.floor_log2 x = F64.floor_log2 y.
Proof.
  intros Hx E. assert (Hy : 0 < y) by lra.
  destruct (floor_log2_spec y Hy) as [Hlo Hhi].
  apply floor_log2_unique; lra.
Qed.

Lemma floor_log2_mono (x y : Q) :
  0 < x -> x <= y -> (F64.floor_log2 x <= F64.floor_log2 y)%Z.
Proof.
  intros Hx Hxy. assert (Hy : 0 < y) by lra.
  destruct (floor_log2_spec x Hx) as [Hlox Hhix].
  destruct (floor_log2_spec y Hy) as [Hloy Hhiy].
  assert (H : (F64.floor_log2 x < F64.floor_log2 y + 1)%Z).
  { apply pow2_lt_inv. lra. }
  lia.
Qed.

(** ** Rounding to binary64 *)

Lemma exponent_min (q : Q) : (-1074 <= F64.exponent q)%Z.
Proof. unfold F64.exponent. lia. Qed.

Lemma exponent_mono (x y : Q) :
  0 < x -> x <= y -> (F64.exponent x <= F64.exponent y)%Z.
Proof.
  intros Hx Hxy. pose proof (floor_log2_mono x y Hx Hxy).
  unfold F64.exponent. lia.
Qed.

Lemma exponent_compat (x y : Q) :
  0 < x -> x == y -> F64.exponent x = F64.exponent y.
Proof.
  intros Hx E. unfold F64.exponent. now rewrite (floor_log2_compat x y Hx E).
Qed.

Lemma mantissa_compat (x y : Q) :
  0 < x -> x == y -> F64.mantissa x = F64.mantissa y.
Proof.
  intros Hx E. unfold F64.mantissa. rewrite (exponent_compat x y Hx E).
  apply round_half_even_compat. now rewrite E.
Qed.

Lemma round_pos_eq (q : Q) :
  F64.round_pos q == inject_Z (F64.mantissa q) * 2 ^ F64.exponent q.
Proof. apply Qred_correct. Qed.

Lemma round_pos_compat (x y : Q) :
  0 < x -> x == y -> F64.round_pos x = F64.round_pos y.
Proof.
  intros Hx E. unfold F64.round_pos.
  now rewrite (mantissa_compat x y Hx E), (exponent_compat x y Hx E).
Qed.

Lemma scaled_nonneg (q : Q) (e : Z) : 0 <= q -> 0 <= q / 2 ^ e.
Proof.
  intro H. apply Qle_shift_div_l; [apply pow2_pos | lra].
Qed.

Lemma mantissa_nonneg (q : Q) : 0 < q -> (0 <= F64.mantissa q)%Z.
Proof.
  intro Hq. apply round_half_even_ge. change (inject_Z 0) with 0.
  apply scaled_nonneg. lra.
Qed.

Lemma mantissa_le (q : Q) : 0 < q -> (F64.mantissa q <= 2 ^ 53)%Z.
Proof.
  intro Hq. apply round_half_even_le.
  destruct (floor_log2_spec q Hq) as [_ Hhi].
  apply Qle_shift_div_r; [apply pow2_pos |].
  rewrite <- pow2_inject by lia. rewrite <- pow2_add.
  apply Qlt_le_weak. eapply Qlt_le_trans; [exact Hhi |].
  apply pow2_le. unfold F64.exponent. lia.
Qed.

Lemma mantissa_normal (q : Q) :
  0 < q -> (-1074 <= F64.floor_log2 q - 52)%Z ->
  (2 ^ 52 <= F64.mantissa q)%Z.
Proof.
  intros Hq Hn. apply round_half_even_ge.
  destruct (floor_log2_spec q Hq) as [Hlo _].
  apply Qle_shift_div_l; [apply pow2_pos |].
  rewrite <- pow2_inject by lia. rewrite <- pow2_add.
  eapply Qle_trans; [| exact Hlo].
  apply pow2_le. unfold F64.exponent. lia.
Qed.

Lemma round_pos_nonneg (q : Q) : 0 < q -> 0 <= F64.round_pos q.
Proof.
  intro Hq. rewrite round_pos_eq.
  apply Qmult_le_0_compat.
  - change 0 with (inject_Z 0). rewrite <- Zle_Qle. now apply mantissa_nonneg.
  - apply Qlt_le_weak, pow2_pos.
Qed.

Lemma div_pow2_le (x y : Q) (e : Z) : x <= y -> x / 2 ^ e <= y / 2 ^ e.
Proof.
  intro H. apply Qle_shift_div_l; [apply pow2_pos |].
  now rewrite pow2_div_same.
Qed.

Lemma pow2_inject_mul (a e : Z) :
  (0 <= a)%Z -> inject_Z (2 ^ a) * 2 ^ e == 2 ^ (a + e).
Proof. intro H. rewrite pow2_add, (pow2_inject a H). reflexivity. Qed.

Lemma round_pos_mono (x y : Q) :
  0 < x -> x <= y -> F64.round_pos x <= F64.round_pos y.
Proof.
  intros Hx Hxy. assert (Hy : 0 < y) by lra.
  rewrite !round_pos_eq.
  pose proof (exponent_mono x y Hx Hxy) as He.
  destruct (Z.eq_dec (F64.exponent x) (F64.exponent y)) as [E | Hne].
  - apply Qmult_le_compat_nonneg.
    + split.
      * change 0 with (inject_Z 0). rewrite <- Zle_Qle.
        now apply mantissa_nonneg.
      * rewrite <- Zle_Qle. unfold F64.mantissa. rewrite E.
        apply round_half_even_mono. now apply div_pow2_le.
    + rewrite E. split; [apply Qlt_le_weak, pow2_pos | apply Qle_refl].
  - assert (Hn : (-1074 <= F64.floor_log2 y - 52)%Z
                 /\ F64.exponent y = (F64.floor_log2 y - 52)%Z).
    { pose proof (exponent_min x). unfold F64.exponent in *. lia. }
    destruct Hn as [Hn Ey].
    pose proof (mantissa_normal y Hy Hn) as Hmy.
    pose proof (mantissa_le x Hx) as Hmx.
    apply Qle_trans with (inject_Z (2 ^ 53) * 2 ^ F64.exponent x).
    { apply Qmult_le_compat_r; [| apply Qlt_le_weak, pow2_pos].
      now rewrite <- Zle_Qle. }
    apply Qle_trans with (inject_Z (2 ^ 52) * 2 ^ F64.exponent y).
    { rewrite !pow2_inject_mul by lia. apply pow2_le. lia. }
    apply Qmult_le_compat_r; [| apply Qlt_le_weak, pow2_pos].
    now rewrite <- Zle_Qle.
Qed.

(** A positive number that is an integer on the scale of its exponent is
    its own rounding. *)
Lemma round_pos_integer (q : Q) (z : Z) :
  q / 2 ^ F64.exponent q == inject_Z z -> F64.round_pos q == q.
Proof.
  intro E. rewrite round_pos_eq. unfold F64.mantissa.
  rewrite (round_half_even_inject z _ E), <- E. apply pow2_div_same.
Qed.

Lemma round_pos_fix (q : Q) (m e : Z) :
  0 < q -> (m <= 2 ^ 53)%Z -> (-1074 <= e)%Z -> q == inject_Z m * 2 ^ e ->
  F64.round_pos q == q.
Proof.
  intros Hq Hm He E.
  destruct (floor_log2_spec q Hq) as [Hlo Hhi].
  assert (Hdiv : forall e', q / 2 ^ e' == inject_Z m * 2 ^ (e - e')).
  { intro e'. rewrite E, pow2_sub. pose proof (pow2_pos e'). field. lra. }
  destruct (Z.eq_dec m (2 ^ 53)) as [Em | Hne].
  - assert (Eq : q == 2 ^ (53 + e)).
    { rewrite E, Em, pow2_add, <- pow2_inject by lia. reflexivity. }
    assert (Ek : F64.floor_log2 q = (53 + e)%Z).
    { apply floor_log2_unique; rewrite Eq.
      - apply Qle_refl.
      - apply pow2_lt. lia. }
    assert (Ex : F64.exponent q = (e + 1)%Z).
    { unfold F64.exponent. rewrite Ek. lia. }
    apply (round_pos_integer q (2 ^ 52)).
    rewrite Ex, Eq, <- pow2_sub, pow2_inject by lia.
    replace (53 + e - (e + 1))%Z with 52%Z by lia. reflexivity.
  - assert (Hlt : q < 2 ^ (53 + e)).
    { rewrite E, pow2_add, (pow2_inject 53) by lia.
      apply Qmult_lt_compat_r; [apply pow2_pos |].
      rewrite <- Zlt_Qlt. lia. }
    assert (Hk : (F64.floor_log2 q < 53 + e)%Z).
    { apply pow2_lt_inv. lra. }
    assert (Hx : (F64.exponent q <= e)%Z).
    { unfold F64.exponent. lia. }
    apply (round_pos_integer q (m * 2 ^ (e - F64.exponent q))).
    rewrite Hdiv, inject_Z_mult, <- pow2_inject by lia. reflexivity.
Qed.

Lemma round_pos_error (q : Q) :
  0 < q ->
  - ((1 # 2) * 2 ^ F64.exponent q) <= F64.round_pos q - q
  /\ F64.round_pos q - q <= (1 # 2) * 2 ^ F64.exponent q.
Proof.
  intro Hq. rewrite round_pos_eq. unfold F64.mantissa.
  destruct (round_half_even_spec (q / 2 ^ F64.exponent q))
    as (Hlo & Hhi & _).
  pose proof (pow2_div_same q (F64.exponent q)) as Eq.
  pose proof (pow2_pos (F64.exponent q)) as Hp.
  set (z := inject_Z (Py.round_half_even (q / 2 ^ F64.exponent q))) in *.
  set (s := q / 2 ^ F64.exponent q) in *.
  set (P := 2 ^ F64.exponent q) in *.
  clearbody z s P. split; nra.
Qed.

Lemma round_cases (q : Q) :
  (q == 0 /\ F64.round q = 0)
  \/ (0 < q /\ F64.round q = F64.round_pos q)
  \/ (q < 0 /\ F64.round q = - F64.round_pos (- q)).
Proof.
  destruct q as [[| n | n] d]; unfold F64.round; cbn [Qnum].
  - left. split; reflexivity.
  - right. left. split; reflexivity.
  - right. right. split; reflexivity.
Qed.

Lemma round_zero (q : Q) : q == 0 -> F64.round q = 0.
Proof.
  intro E. destruct (round_cases q) as [[_ H] | [[H _] | [H _]]];
    [exact H | exfalso; lra | exfalso; lra].
Qed.

Lemma round_of_pos (q : Q) : 0 < q -> F64.round q = F64.round_pos q.
Proof.
  intro Hq. destruct (round_cases q) as [[H _] | [[_ H] | [H _]]];
    [exfalso; lra | exact H | exfalso; lra].
Qed.

Lemma round_of_neg (q : Q) : q < 0 -> F64.round q = - F64.round_pos (- q).
Proof.
  intro Hq. destruct (round_cases q) as [[H _] | [[H _] | [_ H]]];
    [exfalso; lra | exfalso; lra | exact H].
Qed.

(** Equal numbers have the same rounding, whatever fractions stand for
    them. *)
Lemma round_compat (x y : Q) : x == y -> F64.round x = F64.round y.
Proof.
  intro E. destruct (Q_dec x 0) as [[Hx | Hx] | Hx].
  - rewrite (round_of_neg x Hx), (round_of_neg y) by lra.
    f_equal. apply round_pos_compat; lra.
  - rewrite (round_of_pos x Hx), (round_of_pos y) by lra.
    now apply round_pos_compat.
  - rewrite (round_zero x Hx), (round_zero y) by lra. reflexivity.
Qed.

Lemma round_nonneg (q : Q) : 0 <= q -> 0 <= F64.round q.
Proof.
  intro Hq. destruct (Qlt_le_dec 0 q) as [H | H].
  - rewrite (round_of_pos q H). now apply round_pos_nonneg.
  - rewrite (round_zero q) by lra. apply Qle_refl.
Qed.

Lemma round_nonpos (q : Q) : q <= 0 -> F64.round q <= 0.
Proof.
  intro Hq. destruct (Qlt_le_dec q 0) as [H | H].
  - rewrite (round_of_neg q H).
    assert (H' : 0 < - q) by lra.
    pose proof (round_pos_nonneg (- q) H'). lra.
  - rewrite (round_zero q) by lra. apply Qle_refl.
Qed.

(** Rounding keeps the order. *)
Lemma round_mono (x y : Q) : x <= y -> F64.round x <= F64.round y.
Proof.
  intro Hxy. destruct (Qlt_le_dec 0 x) as [Hx | Hx].
  - rewrite (round_of_pos x Hx), (round_of_pos y) by lra.
    now apply round_pos_mono.
  - destruct (Qlt_le_dec y 0) as [Hy | Hy].
    + rewrite (round_of_neg x), (round_of_neg y Hy) by lra.
      apply Qopp_le_compat. apply round_pos_mono; lra.
    + apply Qle_trans with 0; [now apply round_nonpos | now apply round_nonneg].
Qed.

Lemma round_unit (q : Q) :
  in_unit_interval q -> in_unit_interval (F64.round q).
Proof.
  intros [H0 H1]. split.
  - now apply round_nonneg.
  - change 1 with (F64.round 1). now apply round_mono.
Qed.

(** The result of a rounding is a reduced fraction. *)
Lemma round_reduced (q : Q) : Qred (F64.round q) = F64.round q.
Proof.
  destruct (round_cases q) as [[_ H] | [[_ H] | [_ H]]]; rewrite H.
  - reflexivity.
  - unfold F64.round_pos. apply Qred_complete, Qred_correct.
  - unfold F64.round_pos. rewrite Qred_opp. f_equal.
    apply Qred_complete, Qred_correct.
Qed.

Lemma round_eq_of_Qeq (x y : Q) :
  F64.round x == F64.round y -> F64.round x = F64.round y.
Proof.
  intro E. rewrite <- (round_reduced x), <- (round_reduced y).
  now apply Qred_complete.
Qed.

(** Every rounding is a double, and a double is its own rounding. *)
Lemma round_representable (q : Q) : F64.representable (F64.round q).
Proof.
  destruct (round_cases q) as [[_ H] | [[Hq H] | [Hq H]]]; rewrite H.
  - exists 0%Z, 0%Z. split; [simpl; lia |]. split; [lia | reflexivity].
  - exists (F64.mantissa q), (F64.exponent q).
    pose proof (mantissa_nonneg q Hq). pose proof (mantissa_le q Hq).
    split; [lia |]. split; [apply exponent_min | apply round_pos_eq].
  - assert (Hq' : 0 < - q) by lra.
    exists (- F64.mantissa (- q))%Z, (F64.exponent (- q)).
    pose proof (mantissa_nonneg _ Hq'). pose proof (mantissa_le _ Hq').
    split; [lia |]. split; [apply exponent_min |].
    rewrite round_pos_eq, inject_Z_opp. ring.
Qed.

Lemma round_fix (q : Q) : F64.representable q -> F64.round q == q.
Proof.
  intros (m & e & Hm & He & E).
  pose proof (pow2_pos e) as Hp.
  destruct (Z.lt_trichotomy m 0) as [Hneg | [-> | Hpos]].
  - assert (Hm' : inject_Z m < 0).
    { change 0 with (inject_Z 0). now rewrite <- Zlt_Qlt. }
    assert (Hq : q < 0) by (rewrite E; nra).
    rewrite (round_of_neg q Hq).
    rewrite (round_pos_fix (- q) (- m) e); try lia; try lra.
    rewrite E, inject_Z_opp. ring.
  - rewrite (round_zero q); [| rewrite E; ring]. rewrite E. ring.
  - assert (Hm' : 0 < inject_Z m).
    { change 0 with (inject_Z 0). now rewrite <- Zlt_Qlt. }
    assert (Hq : 0 < q) by (rewrite E; nra).
    rewrite (round_of_pos q Hq).
    apply (round_pos_fix q m e); try lia; assumption.
Qed.

Lemma round_idempotent (q : Q) : F64.round (F64.round q) = F64.round q.
Proof.
  rewrite <- (round_reduced q) at 2. rewrite <- (round_reduced (F64.round q)).
  apply Qred_complete, round_fix, round_representable.
Qed.

Lemma representable_inject_Z (z : Z) :
  (Z.abs z <= 2 ^ 53)%Z -> F64.representable (inject_Z z).
Proof.
  intro H. exists z, 0%Z. split; [exact H |]. split; [lia |].
  change (2 ^ 0) with 1. ring.
Qed.

(** Below 2 a rounding moves a number by at most [2^-53]. *)
Lemma round_error_below_2 (q : Q) :
  0 <= q -> q < 2 ->
  - (1 # 9007199254740992) <= F64.round q - q
  /\ F64.round q - q <= 1 # 9007199254740992.
Proof.
  intros H0 H2. destruct (Qlt_le_dec 0 q) as [Hq | Hq].
  - rewrite (round_of_pos q Hq).
    destruct (round_pos_error q Hq) as [Hlo Hhi].
    destruct (floor_log2_spec q Hq) as [Hk _].
    assert (Hfl : (F64.floor_log2 q < 1)%Z).
    { apply pow2_lt_inv. change (2 ^ 1) with 2. lra. }
    assert (He : 2 ^ F64.exponent q <= 2 ^ (-52)).
    { apply pow2_le. unfold F64.exponent. lia. }
    change (2 ^ (-52)) with (/ (4503599627370496 # 1)) in He.
    assert (E : / (4503599627370496 # 1) == 1 # 4503599627370496)
      by reflexivity.
    rewrite E in He. clear E.
    set (P := 2 ^ F64.exponent q) in *. clearbody P. split; lra.
  - rewrite (round_zero q) by lra. split; lra.
Qed.

(** An operation on doubles rounds the exact result. *)
Lemma round_round_compat (x y : Q) :
  x == F64.round y -> F64.round x = F64.round y.
Proof.
  intro E. rewrite (round_compat x (F64.round y) E). apply round_idempotent.
Qed.

Lemma representable_round_eq (q : Q) :
  F64.representable q -> F64.round q == q.
Proof. apply round_fix. Qed.

Lemma add_of_doubles (x y : Q) :
  F64.representable x -> F64.representable y ->
  F64.add x y = F64.round (x + y).
Proof.
  intros Hx Hy. unfold F64.add. apply round_compat.
  now rewrite (round_fix x Hx), (round_fix y Hy).
Qed.

Lemma sub_of_doubles (x y : Q) :
  F64.representable x -> F64.representable y ->
  F64.sub x y = F64.round (x - y).
Proof.
  intros Hx Hy. unfold F64.sub. apply round_compat.
  now rewrite (round_fix x Hx), (round_fix y Hy).
Qed.

Lemma mul_of_doubles (x y : Q) :
  F64.representable x -> F64.representable y ->
  F64.mul x y = F64.round (x * y).
Proof.
  intros Hx Hy. unfold F64.mul. apply round_compat.
  now rewrite (round_fix x Hx), (round_fix y Hy).
Qed.

Lemma div_of_doubles (x y : Q) :
  F64.representable x -> F64.representable y ->
  F64.div x y = F64.round (x / y).
Proof.
  intros Hx Hy. unfold F64.div. apply round_compat.
  now rewrite (round_fix x Hx), (round_fix y Hy).
Qed.

(** The doubles lie on the grid of the multiples of [2^-1074]. *)
Lemma representable_grid (q : Q) :
  F64.representable q -> exists M : Z, q == inject_Z M * 2 ^ (-1074).
Proof.
  intros (m & e & _ & He & E). exists (m * 2 ^ (e + 1074))%Z.
  rewrite E, inject_Z_mult, <- (pow2_inject (e + 1074)) by lia.
  rewrite <- Qmult_assoc, <- pow2_add.
  now replace (e + 1074 + -1074)%Z with e by lia.
Qed.

(** Two distinct doubles have a difference that does not round to zero:
    with gradual underflow [x - y] is [0.0] only when [x == y]. *)
Lemma round_difference_pos (x y : Q) :
  F64.representable x -> F64.representable y -> x < y ->
  0 < F64.round (y - x).
Proof.
  intros Hx Hy Hlt.
  destruct (representable_grid x Hx) as [Mx Ex].
  destruct (representable_grid y Hy) as [My Ey].
  pose proof (pow2_pos (-1074)) as Hp.
  assert (HM : (Mx < My)%Z).
  { destruct (Z.lt_ge_cases Mx My) as [H | H]; [exact H | exfalso].
    rewrite Zle_Qle in H. rewrite Ex, Ey in Hlt.
    set (P := 2 ^ (-1074)) in *. clearbody P. nra. }
  assert (Hge : 2 ^ (-1074) <= y - x).
  { pose proof (inject_Z_succ_le Mx My HM) as H. rewrite Ex, Ey.
    set (P := 2 ^ (-1074)) in *. clearbody P. nra. }
  apply Qlt_le_trans with (2 ^ (-1074)); [exact Hp |].
  rewrite <- (round_fix (2 ^ (-1074))) at 1.
  - now apply round_mono.
  - exists 1%Z, (-1074)%Z. split; [simpl; lia |]. split; [lia |]. ring.
Qed.

(** ** The score normalizer on doubles *)

Lemma safe_normalize_f64_cons (s : Q) (r : list Q) :
  safe_normalize_f64 (s :: r) =
  let arr := map (fun s => F64.round (clamp0 s)) (s :: r) in
  let smax := Py.max_list (F64.round (clamp0 s))
                          (map (fun s => F64.round (clamp0 s)) r) in
  let smin := Py.min_list (F64.round (clamp0 s))
                          (map (fun s => F64.round (clamp0 s)) r) in
  if Qeq_bool smax smin then map (fun _ => 0) arr
  else map (fun v => F64.div (F64.sub v smin) (F64.sub smax smin)) arr.
Proof. reflexivity. Qed.

Lemma safe_normalize_f64_length (scores : list Q) :
  List.length (safe_normalize_f64 scores) = List.length scores.
Proof.
  unfold safe_normalize_f64.
  destruct (Qeq_bool _ _); now rewrite !length_map.
Qed.

Lemma clamped_double_representable (l : list Q) (v : Q) :
  In v (map (fun s => F64.round (clamp0 s)) l) -> F64.representable v.
Proof.
  intro H. apply in_map_iff in H. destruct H as (s & <- & _).
  apply round_representable.
Qed.

(** Min-max scaling in doubles stays in the unit interval. *)
Lemma scale_f64_in_unit_interval (v lo hi : Q) :
  F64.representable v -> F64.representable lo -> F64.representable hi ->
  lo <= v -> v <= hi -> lo < hi ->
  in_unit_interval (F64.div (F64.sub v lo) (F64.sub hi lo)).
Proof.
  intros Hv Hlo Hhi H1 H2 H3.
  rewrite (sub_of_doubles v lo), (sub_of_doubles hi lo) by assumption.
  rewrite div_of_doubles by apply round_representable.
  pose proof (round_difference_pos lo hi Hlo Hhi H3) as Hb.
  assert (Ha : 0 <= F64.round (v - lo)) by (apply round_nonneg; lra).
  assert (Hab : F64.round (v - lo) <= F64.round (hi - lo)).
  { apply round_mono. lra. }
  apply round_unit. split.
  - apply Qle_shift_div_l; [exact Hb | lra].
  - apply Qle_shift_div_r; [exact Hb | lra].
Qed.

Lemma safe_normalize_f64_unit (scores : list Q) :
  Forall in_unit_interval (safe_normalize_f64 scores).
Proof.
  destruct scores as [| s r]; [constructor |].
  rewrite safe_normalize_f64_cons. cbv zeta.
  set (f := fun s => F64.round (clamp0 s)).
  change (F64.round (clamp0 s)) with (f s).
  pose proof (max_list_is_max (f s) (map f r)) as Hmax.
  pose proof (min_list_is_min (f s) (map f r)) as Hmin.
  pose proof (max_list_in (map f r) (f s)) as Hinmax.
  pose proof (min_list_in (map f r) (f s)) as Hinmin.
  set (smax := Py.max_list (f s) (map f r)) in *.
  set (smin := Py.min_list (f s) (map f r)) in *.
  change (f s :: map f r) with (map f (s :: r)) in *.
  assert (Hle : smin <= smax).
  { eapply min_le_max; [| exact Hmin | exact Hmax]. discriminate. }
  destruct (Qeq_bool smax smin) eqn:E; [apply Forall_map_const0 |].
  assert (Hlt : smin < smax).
  { apply Qle_lteq in Hle. destruct Hle as [Hlt | Heq]; [exact Hlt |].
    symmetry in Heq. apply Qeq_eq_bool in Heq. congruence. }
  apply Forall_forall. intros y Hy. apply in_map_iff in Hy.
  destruct Hy as (v & <- & Hv).
  destruct Hmin as [_ Hmin]. destruct Hmax as [_ Hmax].
  rewrite Forall_forall in Hmin, Hmax.
  apply scale_f64_in_unit_interval; auto;
    eapply clamped_double_representable; eassumption.
Qed.

Lemma safe_normalize_f64_all_equal (scores : list Q) :
  all_equal (map (fun s => F64.round (clamp0 s)) scores) ->
  safe_normalize_f64 scores = map (fun _ => 0) scores.
Proof.
  intro Hall. destruct scores as [| s r]; [reflexivity |].
  rewrite safe_normalize_f64_cons. cbv zeta.
  set (f := fun s => F64.round (clamp0 s)) in *.
  change (F64.round (clamp0 s)) with (f s).
  pose proof (max_list_is_max (f s) (map f r)) as Hmax.
  pose proof (min_list_is_min (f s) (map f r)) as Hmin.
  assert (E : Py.max_list (f s) (map f r) == Py.min_list (f s) (map f r)).
  { eapply min_eq_max_of_all_equal; eassumption. }
  apply Qeq_eq_bool in E. rewrite E. now rewrite map_map.
Qed.

(** Every normalized count is a double. *)
Lemma safe_normalize_f64_representable (scores : list Q) :
  Forall F64.representable (safe_normalize_f64 scores).
Proof.
  unfold safe_normalize_f64. destruct (Qeq_bool _ _);
    apply Forall_forall; intros y Hy; apply in_map_iff in Hy;
    destruct Hy as (v & <- & _).
  - exists 0%Z, 0%Z. split; [simpl; lia |]. split; [lia | reflexivity].
  - apply round_representable.
Qed.

(** *** Counts up to [2^53]: the doubles of the exact normalization *)

Lemma is_max_unique (a b : Q) (l : list Q) :
  is_max a l -> is_max b l -> a == b.
Proof.
  intros [Ha1 Ha2] [Hb1 Hb2]. rewrite Forall_forall in Ha2, Hb2.
  apply Exists_exists in Ha1. destruct Ha1 as (x & Hx & Ex).
  apply Exists_exists in Hb1. destruct Hb1 as (y & Hy & Ey).
  pose proof (Ha2 y Hy). pose proof (Hb2 x Hx). lra.
Qed.

Lemma is_min_unique (a b : Q) (l : list Q) :
  is_min a l -> is_min b l -> a == b.
Proof.
  intros [Ha1 Ha2] [Hb1 Hb2]. rewrite Forall_forall in Ha2, Hb2.
  apply Exists_exists in Ha1. destruct Ha1 as (x & Hx & Ex).
  apply Exists_exists in Hb1. destruct Hb1 as (y & Hy & Ey).
  pose proof (Ha2 y Hy). pose proof (Hb2 x Hx). lra.
Qed.

Lemma is_max_map_Qeq {A} (f g : A -> Q) (l : list A) (m : Q) :
  (forall x, In x l -> f x == g x) -> is_max m (map f l) -> is_max m (map g l).
Proof.
  intros Hfg [H1 H2]. split.
  - apply Exists_exists in H1. destruct H1 as (y & Hy & Ey).
    apply in_map_iff in Hy. destruct Hy as (x & <- & Hx).
    apply Exists_exists. exists (g x). split; [now apply in_map |].
    now rewrite <- (Hfg x Hx).
  - rewrite Forall_forall in H2. apply Forall_forall. intros y Hy.
    apply in_map_iff in Hy. destruct Hy as (x & <- & Hx).
    rewrite <- (Hfg x Hx). apply H2. now apply in_map.
Qed.

Lemma is_min_map_Qeq {A} (f g : A -> Q) (l : list A) (m : Q) :
  (forall x, In x l -> f x == g x) -> is_min m (map f l) -> is_min m (map g l).
Proof.
  intros Hfg [H1 H2]. split.
  - apply Exists_exists in H1. destruct H1 as (y & Hy & Ey).
    apply in_map_iff in Hy. destruct Hy as (x & <- & Hx).
    apply Exists_exists. exists (g x). split; [now apply in_map |].
    now rewrite <- (Hfg x Hx).
  - rewrite Forall_forall in H2. apply Forall_forall. intros y Hy.
    apply in_map_iff in Hy. destruct Hy as (x & <- & Hx).
    rewrite <- (Hfg x Hx). apply H2. now apply in_map.
Qed.

Lemma clamped_count_representable (l : list Z) (v : Q) :
  In v (map (fun z => F64.round (clamp0 (inject_Z z))) l) ->
  F64.representable v.
Proof.
  intro H. apply in_map_iff in H. destruct H as (s & <- & _).
  apply round_representable.
Qed.

(** A clamped count is a natural number. *)
Lemma clamp0_inject_Z (z : Z) : clamp0 (inject_Z z) == inject_Z (Z.max 0 z).
Proof.
  destruct (Z.le_gt_cases 0 z) as [H | H].
  - rewrite clamp0_of_nonneg.
    + now rewrite Z.max_r.
    + change 0 with (inject_Z 0). now rewrite <- Zle_Qle.
  - rewrite clamp0_of_nonpos.
    + rewrite Z.max_l by lia. reflexivity.
    + change 0 with (inject_Z 0). rewrite <- Zle_Qle. lia.
Qed.

Lemma round_clamped_count (z : Z) :
  (z <= 2 ^ 53)%Z -> F64.round (clamp0 (inject_Z z)) == clamp0 (inject_Z z).
Proof.
  intro H. apply round_fix. exists (Z.max 0 z), 0%Z.
  split; [lia |]. split; [lia |].
  rewrite clamp0_inject_Z. change (2 ^ 0) with 1. ring.
Qed.

Lemma round_count_difference (a b : Z) :
  (a <= 2 ^ 53)%Z -> (b <= 2 ^ 53)%Z ->
  F64.round (clamp0 (inject_Z a) - clamp0 (inject_Z b))
  == clamp0 (inject_Z a) - clamp0 (inject_Z b).
Proof.
  intros Ha Hb. apply round_fix. exists (Z.max 0 a - Z.max 0 b)%Z, 0%Z.
  split; [lia |]. split; [lia |].
  rewrite !clamp0_inject_Z. change (2 ^ 0) with 1.
  unfold Zminus. rewrite inject_Z_plus, inject_Z_opp. ring.
Qed.

(** For counts up to [2^53] the clamped counts and their differences are
    doubles, so that the only rounding is the one of the division: the
    normalization in doubles gives the doubles nearest to the exact
    normalized counts. *)
Lemma safe_normalize_f64_of_counts (zs : list Z) :
  Forall (fun z => (z <= 2 ^ 53)%Z) zs ->
  safe_normalize_f64 (map inject_Z zs)
  = map F64.round (safe_normalize (map inject_Z zs)).
Proof.
  intro Hall. rewrite Forall_forall in Hall.
  destruct zs as [| z r]; [reflexivity |].
  unfold safe_normalize_f64, safe_normalize. rewrite !map_map.
  set (f := fun z => F64.round (clamp0 (inject_Z z))).
  set (g := fun z => clamp0 (inject_Z z)).
  cbn [map].
  assert (Hfg : forall x, In x (z :: r) -> f x == g x).
  { intros x Hx. apply round_clamped_count, Hall, Hx. }
  pose proof (max_list_is_max (f z) (map f r)) as Hmaxf.
  pose proof (min_list_is_min (f z) (map f r)) as Hminf.
  pose proof (max_list_is_max (g z) (map g r)) as Hmaxg.
  pose proof (min_list_is_min (g z) (map g r)) as Hming.
  pose proof (max_list_in (map f r) (f z)) as Hinmaxf.
  pose proof (min_list_in (map f r) (f z)) as Hinminf.
  pose proof (max_list_in (map g r) (g z)) as Hinmaxg.
  pose proof (min_list_in (map g r) (g z)) as Hinming.
  set (smaxf := Py.max_list (f z) (map f r)) in *.
  set (sminf := Py.min_list (f z) (map f r)) in *.
  set (smaxg := Py.max_list (g z) (map g r)) in *.
  set (sming := Py.min_list (g z) (map g r)) in *.
  change (f z :: map f r) with (map f (z :: r)) in *.
  change (g z :: map g r) with (map g (z :: r)) in *.
  assert (Emax : smaxf == smaxg).
  { eapply is_max_unique; [| exact Hmaxg].
    eapply is_max_map_Qeq; [exact Hfg | exact Hmaxf]. }
  assert (Emin : sminf == sming).
  { eapply is_min_unique; [| exact Hming].
    eapply is_min_map_Qeq; [exact Hfg | exact Hminf]. }
  assert (Eb : Qeq_bool smaxf sminf = Qeq_bool smaxg sming).
  { destruct (Qeq_bool smaxg sming) eqn:E.
    - apply Qeq_bool_eq in E. apply Qeq_eq_bool. lra.
    - destruct (Qeq_bool smaxf sminf) eqn:E'; [| reflexivity].
      apply Qeq_bool_eq in E'.
      assert (E'' : smaxg == sming) by lra.
      apply Qeq_eq_bool in E''. congruence. }
  rewrite Eb. destruct (Qeq_bool smaxg sming); cbn [map]; rewrite map_map.
  - reflexivity.
  - assert (H : forall x,
               In x (z :: r) ->
               F64.div (F64.sub (f x) sminf) (F64.sub smaxf sminf)
               = F64.round ((g x - sming) / (smaxg - sming))).
    { intros x Hx.
      apply in_map_iff in Hinmaxg. destruct Hinmaxg as (zmax & Ezmax & Hzmax).
      apply in_map_iff in Hinming. destruct Hinming as (zmin & Ezmin & Hzmin).
      assert (Ea : F64.round (f x - sminf) == g x - sming).
      { rewrite (round_compat (f x - sminf) (g x - sming)).
        - rewrite <- Ezmin. apply round_count_difference; now apply Hall.
        - rewrite (Hfg x Hx), Emin. reflexivity. }
      assert (Ed : F64.round (smaxf - sminf) == smaxg - sming).
      { rewrite (round_compat (smaxf - sminf) (smaxg - sming)).
        - rewrite <- Ezmax, <- Ezmin.
          apply round_count_difference; now apply Hall.
        - rewrite Emax, Emin. reflexivity. }
      rewrite (sub_of_doubles (f x) sminf), (sub_of_doubles smaxf sminf).
      - rewrite div_of_doubles by apply round_representable.
        apply round_compat. now rewrite Ea, Ed.
      - eapply clamped_count_representable, Hinmaxf.
      - eapply clamped_count_representable, Hinminf.
      - apply round_representable.
      - eapply clamped_count_representable, Hinminf. }
    f_equal; [apply (H z); now left |].
    apply map_ext_in. intros x Hx. apply (H x). now right.
Qed.

(** ** The weighted sum in doubles *)

Lemma mul_by_zero (a : Q) : F64.mul a 0 = 0.
Proof.
  unfold F64.mul. change (F64.round 0) with 0. apply round_zero. ring.
Qed.

Lemma add_zero_r (a b : Q) : F64.add (F64.mul a b) 0 = F64.mul a b.
Proof.
  unfold F64.add. change (F64.round 0) with 0.
  unfold F64.mul. rewrite round_idempotent.
  apply round_round_compat. ring.
Qed.

Lemma add_of_products (a b c d : Q) :
  F64.add (F64.mul a b) (F64.mul c d)
  = F64.round (F64.mul a b + F64.mul c d).
Proof. unfold F64.add, F64.mul. now rewrite !round_idempotent. Qed.

(** The doubles for [0.6] and [0.4]; their sum is exactly 1. *)
Lemma double_0_6 : F64.round (6 # 10) = 5404319552844595 # 9007199254740992.
Proof. vm_compute. reflexivity. Qed.

Lemma double_0_4 : F64.round (4 # 10) = 3602879701896397 # 9007199254740992.
Proof. vm_compute. reflexivity. Qed.

Lemma mul_unit_bounds (w t : Q) :
  0 <= F64.round w -> in_unit_interval t ->
  0 <= F64.mul w t /\ F64.mul w t <= F64.round w.
Proof.
  intros Hw Ht. apply round_unit in Ht. destruct Ht as [H0 H1].
  unfold F64.mul. split.
  - apply round_nonneg. now apply Qmult_le_0_compat.
  - rewrite <- (round_idempotent w) at 2. apply round_mono.
    set (W := F64.round w) in *. set (T := F64.round t) in *.
    clearbody W T. nra.
Qed.

Lemma weighted_sum_f64_unit (t p : Q) :
  in_unit_interval t -> in_unit_interval p ->
  in_unit_interval (F64.add (F64.mul (6 # 10) t) (F64.mul (4 # 10) p)).
Proof.
  intros Ht Hp.
  destruct (mul_unit_bounds (6 # 10) t) as [Hx0 Hx1];
    [rewrite double_0_6; unfold Qle; simpl; lia | exact Ht |].
  destruct (mul_unit_bounds (4 # 10) p) as [Hy0 Hy1];
    [rewrite double_0_4; unfold Qle; simpl; lia | exact Hp |].
  rewrite double_0_6 in Hx1. rewrite double_0_4 in Hy1.
  rewrite add_of_products.
  set (x := F64.mul (6 # 10) t) in *. set (y := F64.mul (4 # 10) p) in *.
  clearbody x y. split.
  - apply round_nonneg. lra.
  - change 1 with (F64.round 1). apply round_mono. lra.
Qed.

(** The double computed for [0.6 * t + 0.4 * p] is within [10^-15] of the
    exact value when [t] and [p] lie in [0,1]. *)
Lemma weighted_sum_f64_error (t p : Q) :
  in_unit_interval t -> in_unit_interval p ->
  - (1 # 1000000000000000)
  <= F64.add (F64.mul (6 # 10) t) (F64.mul (4 # 10) p)
     - ((6 # 10) * t + (4 # 10) * p)
  /\ F64.add (F64.mul (6 # 10) t) (F64.mul (4 # 10) p)
     - ((6 # 10) * t + (4 # 10) * p)
     <= 1 # 1000000000000000.
Proof.
  intros Ht Hp.
  destruct (mul_unit_bounds (6 # 10) t) as [Hx0 Hx1];
    [rewrite double_0_6; unfold Qle; simpl; lia | exact Ht |].
  destruct (mul_unit_bounds (4 # 10) p) as [Hy0 Hy1];
    [rewrite double_0_4; unfold Qle; simpl; lia | exact Hp |].
  rewrite double_0_6 in Hx1. rewrite double_0_4 in Hy1.
  pose proof (round_unit t Ht) as [Ht0 Ht1].
  pose proof (round_unit p Hp) as [Hp0 Hp1].
  destruct Ht as [Ht0' Ht1']. destruct Hp as [Hp0' Hp1'].
  destruct (round_error_below_2 t) as [Et1 Et2]; [lra | lra |].
  destruct (round_error_below_2 p) as [Ep1 Ep2]; [lra | lra |].
  rewrite add_of_products.
  assert (Ex : - (1 # 9007199254740992)
               <= F64.mul (6 # 10) t
                  - (5404319552844595 # 9007199254740992) * F64.round t
               /\ F64.mul (6 # 10) t
                  - (5404319552844595 # 9007199254740992) * F64.round t
                  <= 1 # 9007199254740992).
  { unfold F64.mul. rewrite double_0_6.
    apply round_error_below_2; nra. }
  assert (Ey : - (1 # 9007199254740992)
               <= F64.mul (4 # 10) p
                  - (3602879701896397 # 9007199254740992) * F64.round p
               /\ F64.mul (4 # 10) p
                  - (3602879701896397 # 9007199254740992) * F64.round p
                  <= 1 # 9007199254740992).
  { unfold F64.mul. rewrite double_0_4.
    apply round_error_below_2; nra. }
  destruct (round_error_below_2
              (F64.mul (6 # 10) t + F64.mul (4 # 10) p)) as [Es1 Es2];
    [lra | lra |].
  set (x := F64.mul (6 # 10) t) in *. set (y := F64.mul (4 # 10) p) in *.
  set (s := F64.round (x + y)) in *.
  set (t' := F64.round t) in *. set (p' := F64.round p) in *.
  clearbody x y s t' p'. split; lra.
Qed.

(** ** Dictionaries and positions *)

Lemma dict_get_In {V} (d : dict V) (k : string) (v : V) :
  dict_get d k = Some v -> In (k, v) d.
Proof.
  induction d as [| [k' v'] r IH]; simpl; [discriminate |].
  destruct (String.eqb k' k) eqn:E.
  - intro H. inversion H; subst. apply String.eqb_eq in E. subst. now left.
  - intro H. right. now apply IH.
Qed.

Lemma nth_error_combine_some {A B} (l1 : list A) (l2 : list B) :
  forall i a b,
    nth_error l1 i = Some a -> nth_error l2 i = Some b ->
    nth_error (combine l1 l2) i = Some (a, b).
Proof.
  revert l2. induction l1 as [| x xs IH]; intros l2 i a b H1 H2.
  - destruct i; discriminate.
  - destruct l2 as [| y ys]; [destruct i; discriminate |].
    destruct i as [| i]; simpl in *.
    + congruence.
    + now apply IH.
Qed.

Lemma nth_error_some_of_length {A} (l : list A) (i : nat) :
  (i < List.length l)%nat -> exists a, nth_error l i = Some a.
Proof.
  intro H. destruct (nth_error l i) eqn:E; [eauto |].
  apply nth_error_None in E. lia.
Qed.

(** ** The signal combiner *)

Lemma pop_norm_eq (cs : list Cluster) :
  pop_norm cs = safe_normalize_f64 (map (fun c => inject_Z (count c)) cs).
Proof. destruct cs; reflexivity. Qed.

Lemma pop_norm_length (cs : list Cluster) :
  List.length (pop_norm cs) = List.length cs.
Proof. now rewrite pop_norm_eq, safe_normalize_f64_length, length_map. Qed.

Lemma pop_norm_unit (cs : list Cluster) (p : Q) :
  In p (pop_norm cs) -> in_unit_interval p.
Proof.
  rewrite pop_norm_eq. intro H.
  pose proof (safe_normalize_f64_unit
                (map (fun c => inject_Z (count c)) cs)) as Hall.
  rewrite Forall_forall in Hall. now apply Hall.
Qed.

Lemma cluster_info_length (trend_scores : dict Q) (cs : list Cluster) :
  List.length (cluster_info trend_scores cs) = List.length cs.
Proof.
  unfold cluster_info. rewrite length_map, length_combine, pop_norm_length.
  apply Nat.min_id.
Qed.

Lemma trend_val_unit (trend_scores : dict Q) (k : string) :
  (forall k' v, In (k', v) trend_scores -> in_unit_interval v) ->
  in_unit_interval (dict_get_default trend_scores k 0).
Proof.
  intro H. unfold dict_get_default.
  destruct (dict_get trend_scores k) eqn:E.
  - eapply H, dict_get_In, E.
  - split; lra.
Qed.

(** C2, as the code has it.  For a trend mapping with values in [0,1] and any
    cluster sequence, there is one entry per cluster, in order; the entry of
    the cluster at position [i] carries the resolved category, and its
    [combined_score] is [round(s, 3)], where [s] is the double that line 293
    computes for [0.6 * t + 0.4 * p] from the mapping's score [t] of the
    resolved category (0 when the category is absent) and the normalized
    count [p] at position [i], neither of them rounded to three decimals;
    [s] is within [10^-15] of the exact weighted sum; the fields
    [trend_score] and [cluster_pop_score] are [t] and [p] rounded to three
    decimals; [p] and [combined_score] lie in [0,1]; and when no count
    exceeds [2^53], [p] is the double nearest to the exact min-max
    normalization of the counts. *)
Theorem combined_score_rounded_weighted_sum
        (trend_scores : dict Q) (cs : list Cluster) :
  (forall k v, In (k, v) trend_scores -> in_unit_interval v) ->
  List.length (cluster_info trend_scores cs) = List.length cs
  /\ forall i c,
      nth_error cs i = Some c ->
      exists p e,
        nth_error (safe_normalize_f64
                     (map (fun c => inject_Z (count c)) cs)) i
        = Some p
        /\ nth_error (cluster_info trend_scores cs) i = Some e
        /\ category e = resolved_category c
        /\ (dict_get trend_scores (resolved_category c) = None ->
            dict_get_default trend_scores (resolved_category c) 0 = 0)
        /\ trend_score e
           = Py.round3 (dict_get_default trend_scores (resolved_category c) 0)
        /\ cluster_pop_score e = Py.round3 p
        /\ combined_score e
           = Py.round3
               (F64.add
                  (F64.mul (6 # 10)
                     (dict_get_default trend_scores (resolved_category c) 0))
                  (F64.mul (4 # 10) p))
        /\ in_unit_interval p
        /\ - (1 # 1000000000000000)
           <= F64.add
                (F64.mul (6 # 10)
                   (dict_get_default trend_scores (resolved_category c) 0))
                (F64.mul (4 # 10) p)
              - ((6 # 10)
                 * dict_get_default trend_scores (resolved_category c) 0
                 + (4 # 10) * p)
        /\ F64.add
             (F64.mul (6 # 10)
                (dict_get_default trend_scores (resolved_category c) 0))
             (F64.mul (4 # 10) p)
           - ((6 # 10)
              * dict_get_default trend_scores (resolved_category c) 0
              + (4 # 10) * p)
           <= 1 # 1000000000000000
        /\ in_unit_interval (combined_score e)
        /\ (Forall (fun c => (count c <= 2 ^ 53)%Z) cs ->
            exists q,
              nth_error (safe_normalize
                           (map (fun c => inject_Z (count c)) cs)) i
              = Some q
              /\ p = F64.round q).
Proof.
  intro Hunit. split; [apply cluster_info_length |].
  intros i c Hc.
  assert (Hi : (i < List.length cs)%nat).
  { apply nth_error_Some. congruence. }
  destruct (nth_error_some_of_length
              (safe_normalize_f64 (map (fun c => inject_Z (count c)) cs)) i)
    as [p Hp].
  { now rewrite safe_normalize_f64_length, length_map. }
  assert (Hpu : in_unit_interval p).
  { apply (pop_norm_unit cs). rewrite pop_norm_eq.
    eapply nth_error_In, Hp. }
  assert (Htu : in_unit_interval
                  (dict_get_default trend_scores (resolved_category c) 0)).
  { now apply trend_val_unit. }
  exists p, (combined_entry trend_scores c p).
  split; [exact Hp |].
  split.
  { unfold cluster_info. rewrite pop_norm_eq.
    apply (map_nth_error
             (fun cp => combined_entry trend_scores (fst cp) (snd cp))
             i (combine cs _) (d := (c, p))).
    now apply nth_error_combine_some. }
  split; [reflexivity |].
  split.
  { intro Hnone. unfold dict_get_default. now rewrite Hnone. }
  split; [reflexivity |]. split; [reflexivity |]. split; [reflexivity |].
  split; [exact Hpu |].
  destruct (weighted_sum_f64_error _ _ Htu Hpu) as [He1 He2].
  split; [exact He1 |]. split; [exact He2 |].
  split.
  { cbn [combined_entry combined_score].
    now apply round3_unit, weighted_sum_f64_unit. }
  intro Hsmall.
  rewrite <- (map_map count inject_Z) in Hp.
  rewrite safe_normalize_f64_of_counts in Hp
    by (apply Forall_map; exact Hsmall).
  rewrite map_map, nth_error_map in Hp.
  destruct (nth_error (safe_normalize
                         (map (fun c => inject_Z (count c)) cs)) i)
    as [q |]; [| discriminate Hp].
  exists q. split; [reflexivity |]. cbn in Hp. congruence.
Qed.

Lemma combined_score_rounded_weighted_sum_witness :
  (forall k v, In (k, v) [("b", 1 # 2)] -> in_unit_interval v)
  /\ List.length (cluster_info [("b", 1 # 2)] three_clusters)
     = List.length three_clusters.
Proof.
  assert (H : forall k v, In (k, v) [("b", 1 # 2)] -> in_unit_interval v).
  { intros k v [E | []]. inversion E; subst.
    split; unfold Qle; simpl; lia. }
  split; [exact H |].
  apply (combined_score_rounded_weighted_sum [("b", 1 # 2)] three_clusters H).
Defined.

(** Counts 10, 11 and 90: the normalized count of the second cluster is the
    double of 1/80, which lies just above 0.0125 and rounds to 0.013, where
    the exact 1/80 would round to 0.012. *)
Example normalized_count_rounds_as_a_double :
  map cluster_pop_score
      (cluster_info []
         [ labelled_cluster 0 10 "a"; labelled_cluster 1 11 "b";
           labelled_cluster 2 90 "c" ])
  = [0 # 1000; 13 # 1000; 1000 # 1000]
  /\ 1 # 80 < F64.round (1 # 80)
  /\ Py.round3 (1 # 80) = 12 # 1000.
Proof. repeat split; vm_compute; reflexivity. Qed.

(** The trend score that is the double of 0.0125, with one cluster: the
    product with the double of 0.6 is a double just below 0.0075, and the
    combined score is 0.007, where the exact product would round to
    0.008. *)
Example weighted_sum_rounds_as_a_double :
  F64.round (125 # 10000) = 3602879701896397 # 288230376151711744
  /\ map combined_score
         (cluster_info
            [("linen", 3602879701896397 # 288230376151711744)]
            linen_cluster)
     = [7 # 1000]
  /\ Py.round3 ((6 # 10) * (3602879701896397 # 288230376151711744))
     = 8 # 1000.
Proof. repeat split; vm_compute; reflexivity. Qed.

(** C2, as the claim words it, fails: with counts 1, 2, 4 and the trend
    mapping [{"b": 0.5}], the entry of cluster 1 has trend score 0.5,
    population score 0.333 and combined score 0.433, which is neither
    [0.6 * 0.5 + 0.4 * 0.333 = 0.4332] nor the unrounded
    [0.6 * 0.5 + 0.4 / 3]. *)
Lemma combined_score_is_not_the_plain_weighted_sum :
  (forall k v, In (k, v) [("b", 1 # 2)] -> in_unit_interval v)
  /\ exists e,
      nth_error (cluster_info [("b", 1 # 2)] three_clusters) 1 = Some e
      /\ trend_score e == 5 # 10
      /\ cluster_pop_score e == 333 # 1000
      /\ combined_score e == 433 # 1000
      /\ ~ combined_score e
           == (6 # 10) * trend_score e + (4 # 10) * cluster_pop_score e
      /\ ~ combined_score e == (6 # 10) * (1 # 2) + (4 # 10) * (1 # 3).
Proof.
  split.
  { intros k v [H | []]. inversion H; subst.
    split; unfold Qle; simpl; lia. }
  eexists. split; [reflexivity |].
  repeat split; try reflexivity; intro H; vm_compute in H; discriminate.
Qed.

Lemma map_fst_combine {A B} (l1 : list A) (l2 : list B) :
  List.length l1 = List.length l2 -> map fst (combine l1 l2) = l1.
Proof.
  revert l2. induction l1 as [| x xs IH]; intros [| y ys] H;
    simpl in *; try congruence. f_equal. apply IH. congruence.
Qed.

Lemma cluster_info_categories (trend_scores : dict Q) (cs : list Cluster) :
  map category (cluster_info trend_scores cs) = map resolved_category cs.
Proof.
  unfold cluster_info. rewrite map_map. cbn [combined_entry category].
  rewrite <- (map_map fst resolved_category).
  rewrite map_fst_combine; [reflexivity |].
  now rewrite pop_norm_length.
Qed.

Lemma in_cluster_info_unmatched (trend_scores : dict Q) (cs : list Cluster)
      (k : string) :
  negb (in_cluster_info (cluster_info trend_scores cs) k) = unmatched cs k.
Proof.
  unfold in_cluster_info, unmatched. f_equal.
  transitivity (existsb (fun s => String.eqb s k)
                        (map category (cluster_info trend_scores cs))).
  - generalize (cluster_info trend_scores cs) as l.
    induction l as [| x xs IH]; simpl; [reflexivity | now rewrite IH].
  - rewrite cluster_info_categories.
    induction cs as [| x xs IH]; simpl; [reflexivity | now rewrite IH].
Qed.

Lemma extra_trends_fold (info : list CombinedEntry) (items : dict Q) :
  forall acc,
    fold_left
      (fun acc kv =>
         if negb (in_cluster_info info (fst kv))
         then (acc ++ [ {| et_category := fst kv;
                           et_trend_score := Py.round3 (snd kv) |} ])%list
         else acc)
      items acc
    = (acc ++ map extra_of
                  (filter (fun kv => negb (in_cluster_info info (fst kv)))
                          items))%list.
Proof.
  induction items as [| kv r IH]; intro acc; simpl.
  - now rewrite app_nil_r.
  - rewrite IH. destruct (negb (in_cluster_info info (fst kv))); simpl.
    + now rewrite <- app_assoc.
    + reflexivity.
Qed.

Lemma extra_trends_filter (trend_scores : dict Q) (cs : list Cluster) :
  extra_trends trend_scores (cluster_info trend_scores cs)
  = map extra_of (filter (fun kv => unmatched cs (fst kv)) trend_scores).
Proof.
  unfold extra_trends. rewrite extra_trends_fold. simpl. f_equal.
  apply filter_ext. intro kv. apply in_cluster_info_unmatched.
Qed.

Lemma unmatched_true (cs : list Cluster) (k : string) :
  unmatched cs k = true <-> forall c, In c cs -> resolved_category c <> k.
Proof.
  unfold unmatched. rewrite negb_true_iff. split.
  - intros H c Hc E.
    assert (Hex : existsb (fun c => String.eqb (resolved_category c) k) cs
                  = true).
    { apply existsb_exists. exists c. split; [exact Hc |].
      now apply String.eqb_eq. }
    congruence.
  - intro H.
    destruct (existsb (fun c => String.eqb (resolved_category c) k) cs)
      eqn:E; [| reflexivity].
    apply existsb_exists in E. destruct E as (c & Hc & E).
    apply String.eqb_eq in E. elim (H c Hc E).
Qed.

Lemma NoDup_map_fst_filter {A B} (p : A * B -> bool) (l : list (A * B)) :
  NoDup (map fst l) -> NoDup (map fst (filter p l)).
Proof.
  induction l as [| x xs IH]; simpl; intro H; [constructor |].
  inversion H as [| ? ? Hnotin Hnd]; subst.
  destruct (p x); simpl; [| now apply IH].
  constructor; [| now apply IH].
  intro Hin. apply Hnotin. apply in_map_iff in Hin.
  destruct Hin as (y & Ey & Hy). apply filter_In in Hy.
  apply in_map_iff. exists y. tauto.
Qed.

(** C7, as the code has it.  The extra trends are the items of the mapping
    whose key is the resolved category of no cluster, in the order of the
    mapping, each with its score rounded to three decimals; a score that
    already is a multiple of 0.001 is unchanged; with unique keys no category
    is emitted twice; and [{"denim": 0.5, "linen": 0.9}] against one cluster
    labelled "linen" gives exactly one extra trend, "denim" with 0.5. *)
Theorem extra_trends_unmatched_rounded
        (trend_scores : dict Q) (cs : list Cluster) :
  dict_wf trend_scores ->
  extra_trends trend_scores (cluster_info trend_scores cs)
  = map extra_of (filter (fun kv => unmatched cs (fst kv)) trend_scores)
  /\ NoDup (map et_category
                (extra_trends trend_scores (cluster_info trend_scores cs)))
  /\ (forall k v,
        In (k, v) trend_scores ->
        (forall c, In c cs -> resolved_category c <> k) ->
        In {| et_category := k; et_trend_score := Py.round3 v |}
           (extra_trends trend_scores (cluster_info trend_scores cs)))
  /\ (forall e,
        In e (extra_trends trend_scores (cluster_info trend_scores cs)) ->
        (forall c, In c cs -> resolved_category c <> et_category e)
        /\ exists v, In (et_category e, v) trend_scores
                     /\ et_trend_score e = Py.round3 v)
  /\ (forall z : Z, Py.round3 (z # 1000) == z # 1000)
  /\ exists e,
      extra_trends denim_linen (cluster_info denim_linen linen_cluster) = [e]
      /\ et_category e = "denim" /\ et_trend_score e == 5 # 10.
Proof.
  intro Hwf. rewrite extra_trends_filter.
  split; [reflexivity |].
  split.
  { rewrite map_map. cbn [extra_of et_category].
    now apply NoDup_map_fst_filter. }
  split.
  { intros k v Hin Hno.
    change {| et_category := k; et_trend_score := Py.round3 v |}
      with (extra_of (k, v)).
    apply in_map, filter_In. split; [exact Hin |].
    now apply unmatched_true. }
  split.
  { intros e He. apply in_map_iff in He. destruct He as ([k v] & <- & Hkv).
    apply filter_In in Hkv. destruct Hkv as [Hin Hun].
    split; [now apply unmatched_true |].
    exists v. split; [exact Hin | reflexivity]. }
  split; [intro z; apply round_to_exact |].
  exists (extra_of ("denim", 5 # 10)).
  split; [vm_compute; reflexivity |]. split; reflexivity.
Qed.

Lemma extra_trends_unmatched_rounded_witness :
  dict_wf denim_linen
  /\ extra_trends denim_linen (cluster_info denim_linen linen_cluster)
     = map extra_of
           (filter (fun kv => unmatched linen_cluster (fst kv)) denim_linen).
Proof.
  assert (Hwf : dict_wf denim_linen).
  { unfold dict_wf. simpl. constructor.
    - simpl. intros [H | []]. discriminate H.
    - constructor; [intros [] | constructor]. }
  split; [exact Hwf |].
  exact (proj1 (extra_trends_unmatched_rounded denim_linen linen_cluster Hwf)).
Defined.

(** C7, as the claim words it, fails: the score 0.1234 of an unmatched
    category comes out as 0.123. *)
Lemma extra_trend_score_is_not_preserved :
  dict_wf [("denim", 1234 # 10000)]
  /\ dict_get [("denim", 1234 # 10000)] "denim" = Some (1234 # 10000)
  /\ exists e,
      extra_trends [("denim", 1234 # 10000)]
                   (cluster_info [("denim", 1234 # 10000)] []) = [e]
      /\ et_category e = "denim"
      /\ et_trend_score e == 123 # 1000
      /\ ~ et_trend_score e == 1234 # 10000.
Proof.
  split.
  { unfold dict_wf. simpl. constructor; [intros [] | constructor]. }
  split; [reflexivity |].
  eexists. split; [reflexivity |].
  repeat split; try reflexivity. intro H. vm_compute in H. discriminate.
Qed.

(** ** Cache keys *)

Lemma string_of_uint_no_underscore (d : Decimal.uint) :
  contains "_" (NilEmpty.string_of_uint d) = false.
Proof. induction d; simpl; auto. Qed.

Lemma str_of_int_no_underscore (z : Z) :
  contains "_" (PyStr.str_of_int z) = false.
Proof.
  unfold PyStr.str_of_int, NilZero.string_of_int, NilZero.string_of_uint.
  destruct (Z.to_int z) as [d | d]; destruct d;
    try reflexivity; apply string_of_uint_no_underscore.
Qed.

Lemma str_of_int_inj (n n' : Z) :
  PyStr.str_of_int n = PyStr.str_of_int n' -> n = n'.
Proof.
  unfold PyStr.str_of_int. intro H. apply DecimalZ.to_int_inj.
  assert (Hnn : forall z, Z.to_int z <> Decimal.Pos Decimal.Nil
                          /\ Z.to_int z <> Decimal.Neg Decimal.Nil).
  { intros [| p | p]; simpl; split; try discriminate;
      intro E; inversion E as [E'];
      now apply DecimalPos.Unsigned.to_uint_nonnil in E'. }
  destruct (Hnn n) as [Hp Hn]. destruct (Hnn n') as [Hp' Hn'].
  pose proof (NilZero.isi _ Hp Hn) as E. pose proof (NilZero.isi _ Hp' Hn') as E'.
  rewrite H in E. congruence.
Qed.

Lemma append_separator_inj (c : ascii) (a : string) :
  forall a' b b',
    contains c a = false -> contains c a' = false ->
    a ++ String c b = a' ++ String c b' -> a = a' /\ b = b'.
Proof.
  induction a as [| x xs IH]; intros [| y ys] b b' Ha Ha' E; simpl in *.
  - inversion E. auto.
  - inversion E; subst. rewrite Ascii.eqb_refl in Ha'. discriminate.
  - inversion E; subst. rewrite Ascii.eqb_refl in Ha. discriminate.
  - inversion E; subst.
    apply orb_false_iff in Ha. apply orb_false_iff in Ha'.
    destruct (IH ys b b') as [-> ->]; tauto.
Qed.

(** The key determines the pair of parameters. *)
Lemma cache_key_inj (n s n' s' : Z) :
  cache_key n s = cache_key n' s' -> n = n' /\ s = s'.
Proof.
  unfold cache_key. intro H. simpl in H. inversion H as [H'].
  apply append_separator_inj in H'; try apply str_of_int_no_underscore.
  destruct H' as [Hn Hs].
  split; now apply str_of_int_inj.
Qed.

Lemma cache_key_eqb (n s n' s' : Z) :
  String.eqb (cache_key n s) (cache_key n' s') = true <-> n = n' /\ s = s'.
Proof.
  rewrite String.eqb_eq. split.
  - apply cache_key_inj.
  - now intros [-> ->].
Qed.

(** ** Loops in the monad *)

Lemma for_each_app {W A B} (f : B -> A -> M W B) (l1 l2 : list A) :
  forall acc st,
    for_each f (l1 ++ l2) acc st
    = match for_each f l1 acc st with
      | (Ok acc', st') => for_each f l2 acc' st'
      | (Raise e, st') => (Raise e, st')
      end.
Proof.
  induction l1 as [| x xs IH]; intros acc st; simpl; [reflexivity |].
  unfold bind. destruct (f acc x st) as [[acc' | e] st'];
    [apply IH | reflexivity].
Qed.

(** ** The external interest fetcher *)

Section Fetcher.
Context {W : Type}.
Variable rt : Runtime W.

Lemma fetch_chunk_raises (timeframe : string) (acc : dict Q)
      (chunk : list string) (st st' : PyState W) (e : string) :
  provider_call rt chunk timeframe st = (Raise e, st') ->
  fetch_chunk rt timeframe acc chunk st
  = (Raise ("pytrends failure: " ++ e), st').
Proof.
  intro H. unfold fetch_chunk, try_except, bind. now rewrite H.
Qed.

(** C4. When the provider call of some batch raises, the batches before it
    having succeeded, the whole fetch raises one error that carries the
    provider's message; the result is an error and not a mapping, so the
    scores accumulated from the earlier batches are dropped. *)
Theorem fetch_google_trends_fails_as_a_whole
        (keywords : list string) (timeframe : string)
        (before after : list (list string)) (batch : list string)
        (st st0 st1 st2 : PyState W) (acc : dict Q) (e : string) :
  HAS_PYTRENDS rt = true ->
  call (TrendReq rt) st = (Ok tt, st0) ->
  chunks keywords = (before ++ batch :: after)%list ->
  for_each (fetch_chunk rt timeframe) before [] st0 = (Ok acc, st1) ->
  provider_call rt batch timeframe st1 = (Raise e, st2) ->
  fetch_google_trends rt keywords timeframe st
  = (Raise ("pytrends failure: " ++ e), st2).
Proof.
  intros Hhas Hnew Hchunks Hbefore Hraise.
  unfold fetch_google_trends. rewrite Hhas. cbn [negb].
  unfold bind at 1. rewrite Hnew.
  unfold bind at 1. rewrite Hchunks, for_each_app, Hbefore.
  cbn [for_each]. unfold bind at 1.
  now rewrite (fetch_chunk_raises _ _ _ _ _ _ Hraise).
Qed.

(** C9, as the code has it.  With pytrends importable, a fetch for no
    keyword builds the client and makes no other library call: it returns
    the empty mapping when the client is built, and the client's error
    otherwise. *)
Theorem fetch_google_trends_no_keywords
        (timeframe : string) (st : PyState W) :
  HAS_PYTRENDS rt = true ->
  fetch_google_trends rt [] timeframe st
  = match TrendReq rt (world st) with
    | (Ok _, w) =>
        (Ok [], {| CLUSTER_CACHE := CLUSTER_CACHE st; world := w |})
    | (Raise e, w) =>
        (Raise e, {| CLUSTER_CACHE := CLUSTER_CACHE st; world := w |})
    end.
Proof.
  intro Hhas. unfold fetch_google_trends. rewrite Hhas. cbn [negb].
  unfold bind, call. cbn [chunks chunks_fuel List.length for_each].
  unfold ret.
  destruct (TrendReq rt (world st)) as [[[] | e] w]; reflexivity.
Qed.

(** Without pytrends every fetch raises, whatever the keywords. *)
Lemma fetch_google_trends_not_installed
      (keywords : list string) (timeframe : string) (st : PyState W) :
  HAS_PYTRENDS rt = false ->
  fetch_google_trends rt keywords timeframe st
  = (Raise "pytrends not installed in this environment", st).
Proof. intro H. unfold fetch_google_trends. now rewrite H. Qed.

End Fetcher.

Lemma fetch_google_trends_fails_as_a_whole_witness :
  fetch_google_trends (demo_rt true false 0)
    ["linen"; "denim"; "silk"; "wool"; "tweed"; "blocked"] "today 12-m" fresh
  = (Raise "pytrends failure: 429",
     {| CLUSTER_CACHE := None;
        world := ["TrendReq"; "build_payload"; "interest_over_time";
                  "build_payload"] |}).
Proof.
  eapply (fetch_google_trends_fails_as_a_whole (demo_rt true false 0)
            ["linen"; "denim"; "silk"; "wool"; "tweed"; "blocked"]
            "today 12-m"
            [["linen"; "denim"; "silk"; "wool"; "tweed"]] [] ["blocked"]
            fresh);
    reflexivity.
Defined.

Lemma fetch_google_trends_no_keywords_witness :
  fetch_google_trends (demo_rt true false 0) [] "today 12-m" fresh
  = (Ok [], {| CLUSTER_CACHE := None; world := ["TrendReq"] |}).
Proof.
  apply (fetch_google_trends_no_keywords (demo_rt true false 0)
           "today 12-m" fresh).
  reflexivity.
Defined.

(** C9, as the claim words it, fails: without pytrends the fetch for no
    keyword raises and returns no mapping. *)
Lemma fetch_google_trends_no_keywords_raises :
  fetch_google_trends (demo_rt false false 0) [] "today 12-m" fresh
  = (Raise "pytrends not installed in this environment", fresh).
Proof. reflexivity. Qed.

(** ** The mock generator *)

Lemma fold_left_ext_in {A B} (f g : A -> B -> A) (l : list B) :
  (forall a x, In x l -> f a x = g a x) ->
  forall a, fold_left f l a = fold_left g l a.
Proof.
  induction l as [| x xs IH]; intros H a; simpl; [reflexivity |].
  rewrite H by now left. apply IH. intros a' y Hy. apply H. now right.
Qed.

(** The mock scores are a function of the keywords and of the builtin [hash]
    of the process, and of nothing else. *)
Lemma mock_trend_scores_ext {W1 W2} (rt1 : Runtime W1) (rt2 : Runtime W2)
      (keywords : list string) :
  (forall k, In k keywords -> py_hash rt1 k = py_hash rt2 k) ->
  mock_trend_scores rt1 keywords = mock_trend_scores rt2 keywords.
Proof.
  intro H. unfold mock_trend_scores.
  assert (E : fold_left (fun d k => dict_set d k (mock_raw_score rt1 k))
                        keywords []
              = fold_left (fun d k => dict_set d k (mock_raw_score rt2 k))
                          keywords []).
  { apply fold_left_ext_in. intros d k Hk.
    unfold mock_raw_score. now rewrite (H k Hk). }
  now rewrite E.
Qed.

(** C5.  Two processes whose builtin [hash] is salted differently give
    different mock scores to the same keywords: the raw score of "denim" is
    0.57 in one and 0.05 in the other, and the normalized scores of
    ["linen", "denim"] are swapped.  (Processes that agree on [hash] agree on
    the scores.) *)
Theorem mock_trend_scores_vary_with_the_hash_salt :
  (forall (W1 W2 : Type) (rt1 : Runtime W1) (rt2 : Runtime W2)
          (keywords : list string),
      (forall k, In k keywords -> py_hash rt1 k = py_hash rt2 k) ->
      mock_trend_scores rt1 keywords = mock_trend_scores rt2 keywords)
  /\ mock_raw_score (demo_rt false false 0) "denim" == 57 # 100
  /\ mock_raw_score (demo_rt false false 18) "denim" == 5 # 100
  /\ mock_trend_scores (demo_rt false false 0) ["linen"; "denim"]
     = [("linen", 0 # 1000); ("denim", 1000 # 1000)]
  /\ mock_trend_scores (demo_rt false false 18) ["linen"; "denim"]
     = [("linen", 1000 # 1000); ("denim", 0 # 1000)].
Proof.
  split; [intros; now apply mock_trend_scores_ext |].
  repeat split; vm_compute; reflexivity.
Qed.

(** ** The cluster summarizer *)

Lemma range_nonpositive (n : Z) : (n <= 0)%Z -> range n = [].
Proof.
  intro H. unfold range. replace (Z.to_nat n) with 0%nat by lia. reflexivity.
Qed.

Lemma range_length (n : Z) : List.length (range n) = Z.to_nat n.
Proof. unfold range. now rewrite length_map, length_seq. Qed.

Lemma in_range (n i : Z) : In i (range n) <-> (0 <= i < n)%Z.
Proof.
  unfold range. rewrite in_map_iff. split.
  - intros (k & <- & Hk). apply in_seq in Hk. lia.
  - intro H. exists (Z.to_nat i). split; [lia |]. apply in_seq. lia.
Qed.

Lemma NoDup_range (n : Z) : NoDup (range n).
Proof.
  unfold range. apply Injective_map_NoDup; [| apply seq_NoDup].
  intros a b H. lia.
Qed.

Section Summarizer.
Context {W : Type}.
Variable rt : Runtime W.

Lemma synthetic_cluster_ok (lo : Z) (vocabulary : list string) (i : Z)
      (st : PyState W) :
  exists c st',
    synthetic_cluster rt lo vocabulary i st = (Ok c, st')
    /\ CLUSTER_CACHE st' = CLUSTER_CACHE st
    /\ cluster_id c = i.
Proof.
  unfold synthetic_cluster, bind, call_total, ret.
  destruct (random_randint rt lo 200 (world st)) as [cnt w1]. cbn [world].
  destruct (random_randint rt 0 999 w1) as [s1 w2]. cbn [world].
  destruct (random_randint rt 0 999 w2) as [s2 w3]. cbn [world].
  destruct (random_randint rt 0 999 w3) as [s3 w4]. cbn [world].
  destruct (random_choice rt vocabulary w4) as [lab w5].
  eexists. eexists. split; [reflexivity |]. split; reflexivity.
Qed.

Lemma synthetic_loop_ok (lo : Z) (vocabulary : list string) (l : list Z) :
  forall acc st,
  exists cl st',
    for_each (fun acc i =>
                bind (synthetic_cluster rt lo vocabulary i)
                     (fun c => ret (acc ++ [c])%list))
             l acc st = (Ok cl, st')
    /\ CLUSTER_CACHE st' = CLUSTER_CACHE st
    /\ map cluster_id cl = (map cluster_id acc ++ l)%list.
Proof.
  induction l as [| i r IH]; intros acc st; cbn [for_each].
  - exists acc, st. rewrite app_nil_r. repeat split.
  - unfold bind at 1. unfold bind at 1.
    destruct (synthetic_cluster_ok lo vocabulary i st)
      as (c & st1 & E & Hc & Hid).
    rewrite E. unfold ret at 1.
    destruct (IH (acc ++ [c])%list st1) as (cl & st' & E' & Hc' & Hids).
    exists cl, st'. split; [exact E' |]. split; [congruence |].
    rewrite Hids, map_app, <- app_assoc. simpl. now rewrite Hid.
Qed.

(** A synthetic summary never raises; it is stored whole under the
    requested key. *)
Lemma synthetic_summary_ok (source : string) (lo : Z)
      (vocabulary : list string) (n s : Z) (st : PyState W) :
  exists v st',
    synthetic_summary rt source lo vocabulary n s st = (Ok v, st')
    /\ CLUSTER_CACHE st' = Some (entry_for n s v)
    /\ meta_source (meta v) = source
    /\ map cluster_id (clusters v) = range n.
Proof.
  unfold synthetic_summary, synthetic_clusters.
  destruct (synthetic_loop_ok lo vocabulary (range n) [] st)
    as (cl & st1 & E & _ & Hids).
  unfold bind at 1. rewrite E.
  unfold bind, set_cache, ret.
  eexists. eexists. split; [reflexivity |].
  split; [reflexivity |]. split; [reflexivity | exact Hids].
Qed.

(** For a cluster count that is not positive the synthetic summary is
    empty and asks the random generator nothing. *)
Lemma synthetic_summary_nonpositive (source : string) (lo : Z)
      (vocabulary : list string) (n s : Z) (st : PyState W) :
  (n <= 0)%Z ->
  synthetic_summary rt source lo vocabulary n s st
  = (Ok {| meta := {| meta_n_clusters := n; meta_source := source;
                      meta_sampled := None |};
           clusters := [] |},
     {| CLUSTER_CACHE :=
          Some (entry_for n s
                  {| meta := {| meta_n_clusters := n; meta_source := source;
                                meta_sampled := None |};
                     clusters := [] |});
        world := world st |}).
Proof.
  intro H. unfold synthetic_summary, synthetic_clusters.
  rewrite (range_nonpositive n H). reflexivity.
Qed.

(** The two ways in which the [try] block of the live path can end. *)
Lemma live_pipeline_cases (n s : Z) (st : PyState W) :
  (exists e st', live_pipeline rt n s st = (Raise e, st'))
  \/ (exists rows idx fit cl w1 w2,
        fetch_openml rt (world st) = (Ok rows, w1)
        /\ sample_idx rt rows s = Ok idx
        /\ pca_kmeans rt idx n w1 = (Ok fit, w2)
        /\ live_clusters idx fit (range n) = Ok cl
        /\ let v := {| meta := {| meta_n_clusters := n;
                                   meta_source := "fashion-mnist";
                                   meta_sampled :=
                                     Some (Z.of_nat (List.length idx)) |};
                       clusters := cl |} in
           live_pipeline rt n s st
           = (Ok v, {| CLUSTER_CACHE := Some (entry_for n s v);
                       world := w2 |})).
Proof.
  unfold live_pipeline, bind, call, lift_exc, set_cache, ret.
  destruct (fetch_openml rt (world st)) as [[rows | e] w1] eqn:E1;
    [| left; eexists; eexists; reflexivity].
  destruct (sample_idx rt rows s) as [idx | e] eqn:E2;
    [| left; eexists; eexists; reflexivity].
  cbn [world].
  destruct (pca_kmeans rt idx n w1) as [[fit | e] w2] eqn:E3;
    [| left; eexists; eexists; reflexivity].
  destruct (live_clusters idx fit (range n)) as [cl | e] eqn:E4;
    [| left; eexists; eexists; reflexivity].
  right. exists rows, idx, fit, cl, w1, w2.
  split; [reflexivity |]. split; [exact E2 |].
  split; [exact E3 |]. split; [exact E4 | reflexivity].
Qed.

End Summarizer.

Section Cache.
Context {W : Type}.
Variable rt : Runtime W.

(** Whatever path is taken below the cache check, a summary is returned
    and stored whole under the requested key. *)
Lemma recompute_clusters_ok (n s : Z) (st : PyState W) :
  exists v st',
    recompute_clusters rt n s st = (Ok v, st')
    /\ CLUSTER_CACHE st' = Some (entry_for n s v).
Proof.
  unfold recompute_clusters. destruct (HAS_SKLEARN rt); cbn [negb].
  - unfold try_except.
    destruct (live_pipeline_cases rt n s st)
      as [(e & st1 & E) | (rows & idx & fit & cl & w1 & w2 & _ & _ & _ & _ & E)].
    + rewrite E.
      destruct (synthetic_summary_ok rt "fallback_error" 10
                  ["tops"; "dresses"; "outerwear"] n s st1)
        as (v & st' & E' & Hc & _).
      exists v, st'. split; assumption.
    + cbv zeta in E. rewrite E. eexists. eexists.
      split; reflexivity.
  - destruct (synthetic_summary_ok rt "mock" 20
                ["tops"; "dresses"; "shoes"; "accessories"] n s st)
      as (v & st' & E' & Hc & _).
    exists v, st'. split; assumption.
Qed.

Lemma compute_hit (n s : Z) (st : PyState W) (e : CacheEntry) :
  CLUSTER_CACHE st = Some e -> entry_key e = cache_key n s ->
  compute_fashion_clusters rt n s st = (Ok (entry_value e), st).
Proof.
  intros Hc Hk. unfold compute_fashion_clusters, bind, get_cache.
  rewrite Hc. unfold cache_hit. rewrite Hk, String.eqb_refl. reflexivity.
Qed.

Lemma compute_miss (n s : Z) (st : PyState W) :
  cache_hit (CLUSTER_CACHE st) (cache_key n s) = None ->
  compute_fashion_clusters rt n s st = recompute_clusters rt n s st.
Proof.
  intro H. unfold compute_fashion_clusters, bind, get_cache. now rewrite H.
Qed.

Lemma cache_hit_cases (cache : option CacheEntry) (key : string) :
  (exists e, cache = Some e /\ entry_key e = key
             /\ cache_hit cache key = Some (entry_value e))
  \/ cache_hit cache key = None.
Proof.
  destruct cache as [e |]; [| now right]. unfold cache_hit.
  destruct (String.eqb (entry_key e) key) eqn:E; [| now right].
  left. exists e. apply String.eqb_eq in E. auto.
Qed.

Lemma cache_miss_other_key (n1 s1 n2 s2 : Z) (v : ClusterSummary) :
  (n2, s2) <> (n1, s1) ->
  cache_hit (Some (entry_for n1 s1 v)) (cache_key n2 s2) = None.
Proof.
  intro Hne. unfold cache_hit, entry_for. cbn [entry_key].
  destruct (String.eqb (cache_key n1 s1) (cache_key n2 s2)) eqn:E;
    [| reflexivity].
  apply cache_key_eqb in E. destruct E as [-> ->]. now elim Hne.
Qed.

Lemma entry_for_eta (n s : Z) (e : CacheEntry) :
  entry_key e = cache_key n s -> e = entry_for n s (entry_value e).
Proof. destruct e as [k v]. unfold entry_for. simpl. now intros ->. Qed.

(** The summarizer always returns a summary, and afterwards the slot
    holds exactly that summary under the requested key. *)
Lemma compute_fashion_clusters_ok (n s : Z) (st : PyState W) :
  exists v st',
    compute_fashion_clusters rt n s st = (Ok v, st')
    /\ CLUSTER_CACHE st' = Some (entry_for n s v).
Proof.
  destruct (cache_hit_cases (CLUSTER_CACHE st) (cache_key n s))
    as [(e & Hc & Hk & _) | Hmiss].
  - exists (entry_value e), st. split; [now apply compute_hit |].
    rewrite Hc. f_equal. now apply entry_for_eta.
  - rewrite (compute_miss _ _ _ Hmiss). apply recompute_clusters_ok.
Qed.

(** *** What is below the cache check does not look at the cache *)

Lemma oblivious_ret {A} (a : A) : cache_oblivious (ret (W := W) a).
Proof. intros st1 st2 H. split; [reflexivity | exact H]. Qed.

Lemma oblivious_raise {A} (e : string) :
  cache_oblivious (raise (W := W) (A := A) e).
Proof. intros st1 st2 H. split; [reflexivity | exact H]. Qed.

Lemma oblivious_call {A} (f : W -> Exc A * W) : cache_oblivious (call f).
Proof.
  intros st1 st2 H. unfold call. rewrite H.
  destruct (f (world st2)) as [r w]. split; reflexivity.
Qed.

Lemma oblivious_call_total {A} (f : W -> A * W) :
  cache_oblivious (call_total f).
Proof.
  intros st1 st2 H. unfold call_total. rewrite H.
  destruct (f (world st2)) as [r w]. split; reflexivity.
Qed.

Lemma oblivious_lift_exc {A} (r : Exc A) :
  cache_oblivious (lift_exc (W := W) r).
Proof. intros st1 st2 H. split; [reflexivity | exact H]. Qed.

Lemma oblivious_set_cache (e : CacheEntry) :
  cache_oblivious (set_cache (W := W) e).
Proof. intros st1 st2 H. split; [reflexivity | exact H]. Qed.

Lemma oblivious_bind {A B} (c : M W A) (k : A -> M W B) :
  cache_oblivious c -> (forall a, cache_oblivious (k a)) ->
  cache_oblivious (bind c k).
Proof.
  intros Hc Hk st1 st2 H. unfold bind.
  destruct (Hc st1 st2 H) as [Hr Hw].
  destruct (c st1) as [[a1 | e1] st1'], (c st2) as [[a2 | e2] st2'];
    cbn [fst snd] in *; try discriminate.
  - inversion Hr; subst. now apply Hk.
  - inversion Hr; subst. split; [reflexivity | exact Hw].
Qed.

Lemma oblivious_try_except {A} (c : M W A) (h : string -> M W A) :
  cache_oblivious c -> (forall e, cache_oblivious (h e)) ->
  cache_oblivious (try_except c h).
Proof.
  intros Hc Hh st1 st2 H. unfold try_except.
  destruct (Hc st1 st2 H) as [Hr Hw].
  destruct (c st1) as [[a1 | e1] st1'], (c st2) as [[a2 | e2] st2'];
    cbn [fst snd] in *; try discriminate.
  - split; [exact Hr | exact Hw].
  - inversion Hr; subst. now apply Hh.
Qed.

Lemma oblivious_for_each {A B} (f : B -> A -> M W B) (l : list A) :
  (forall acc x, cache_oblivious (f acc x)) ->
  forall acc, cache_oblivious (for_each f l acc).
Proof.
  intro Hf. induction l as [| x r IH]; intro acc; cbn [for_each].
  - apply oblivious_ret.
  - apply oblivious_bind; [apply Hf | exact IH].
Qed.

Lemma oblivious_synthetic_summary (source : string) (lo : Z)
      (vocabulary : list string) (n s : Z) :
  cache_oblivious (synthetic_summary rt source lo vocabulary n s).
Proof.
  unfold synthetic_summary, synthetic_clusters.
  apply oblivious_bind.
  - apply oblivious_for_each. intros acc i.
    apply oblivious_bind; [| intro; apply oblivious_ret].
    unfold synthetic_cluster.
    repeat (apply oblivious_bind; [apply oblivious_call_total | intro]).
    apply oblivious_ret.
  - intro cl. apply oblivious_bind; [apply oblivious_set_cache |].
    intro. apply oblivious_ret.
Qed.

Lemma oblivious_live_pipeline (n s : Z) :
  cache_oblivious (live_pipeline rt n s).
Proof.
  unfold live_pipeline.
  apply oblivious_bind; [apply oblivious_call | intro rows].
  apply oblivious_bind; [apply oblivious_lift_exc | intro idx].
  apply oblivious_bind; [apply oblivious_call | intro fit].
  apply oblivious_bind; [apply oblivious_lift_exc | intro cl].
  apply oblivious_bind; [apply oblivious_set_cache | intro].
  apply oblivious_ret.
Qed.

Lemma oblivious_recompute_clusters (n s : Z) :
  cache_oblivious (recompute_clusters rt n s).
Proof.
  unfold recompute_clusters. destruct (negb (HAS_SKLEARN rt)).
  - apply oblivious_synthetic_summary.
  - apply oblivious_try_except; [apply oblivious_live_pipeline |].
    intro. apply oblivious_synthetic_summary.
Qed.

(** A recomputation gives the summary, the world and the cache that a
    process with an empty cache would get in the same world: nothing of what
    the slot held before survives. *)
Lemma recompute_clusters_from_empty_cache (n s : Z) (st : PyState W) :
  recompute_clusters rt n s st
  = recompute_clusters rt n s (with_empty_cache st).
Proof.
  destruct (oblivious_recompute_clusters n s st (with_empty_cache st)
              eq_refl) as [Hr Hw].
  destruct (recompute_clusters_ok n s st) as (v & st' & E & C).
  destruct (recompute_clusters_ok n s (with_empty_cache st))
    as (v0 & st0 & E0 & C0).
  rewrite E, E0 in *. cbn [fst snd] in Hr, Hw. inversion Hr; subst.
  f_equal. destruct st' as [c' w'], st0 as [c0 w0]. cbn in *. congruence.
Qed.

Lemma compute_miss_from_empty_cache (n s : Z) (st : PyState W) :
  cache_hit (CLUSTER_CACHE st) (cache_key n s) = None ->
  compute_fashion_clusters rt n s st
  = compute_fashion_clusters rt n s (with_empty_cache st).
Proof.
  intro Hmiss. rewrite (compute_miss n s st Hmiss).
  rewrite (compute_miss n s (with_empty_cache st)) by reflexivity.
  apply recompute_clusters_from_empty_cache.
Qed.

(** C3. The cache has one slot, keyed by the pair of parameters.  A call
    returns a summary and leaves the slot holding that summary under the
    call's key, key and value together.  A second call with the same pair
    returns the cached summary and leaves the whole state, world included,
    as it was: nothing is recomputed.  A call with any other pair recomputes:
    its summary and the state it leaves are those that a process with an
    empty cache would get in the same world, so nothing of the cached entry
    is reused, and the slot is replaced.  A call with the first pair then
    recomputes in the same sense instead of reusing what it had stored.  In
    general, a call that the slot does not answer behaves as if the cache
    were empty. *)
Theorem cluster_cache_single_slot (st : PyState W) (n1 s1 n2 s2 : Z) :
  exists v1 st1,
    compute_fashion_clusters rt n1 s1 st = (Ok v1, st1)
    /\ CLUSTER_CACHE st1 = Some (entry_for n1 s1 v1)
    /\ compute_fashion_clusters rt n1 s1 st1 = (Ok v1, st1)
    /\ ((n2, s2) <> (n1, s1) ->
        exists v2 st2,
          compute_fashion_clusters rt n2 s2 st1
          = recompute_clusters rt n2 s2 st1
          /\ recompute_clusters rt n2 s2 st1 = (Ok v2, st2)
          /\ compute_fashion_clusters rt n2 s2 st1
             = compute_fashion_clusters rt n2 s2 (with_empty_cache st1)
          /\ CLUSTER_CACHE st2 = Some (entry_for n2 s2 v2)
          /\ compute_fashion_clusters rt n1 s1 st2
             = recompute_clusters rt n1 s1 st2
          /\ compute_fashion_clusters rt n1 s1 st2
             = compute_fashion_clusters rt n1 s1 (with_empty_cache st2))
    /\ (cache_key n2 s2 = cache_key n1 s1 <-> (n2, s2) = (n1, s1))
    /\ (forall st0,
          cache_hit (CLUSTER_CACHE st0) (cache_key n1 s1) = None ->
          compute_fashion_clusters rt n1 s1 st0
          = compute_fashion_clusters rt n1 s1 (with_empty_cache st0)).
Proof.
  destruct (compute_fashion_clusters_ok n1 s1 st) as (v1 & st1 & E1 & C1).
  exists v1, st1. split; [exact E1 |]. split; [exact C1 |].
  split.
  { apply (compute_hit n1 s1 st1 _ C1). reflexivity. }
  split; [| split].
  - intro Hne.
    destruct (recompute_clusters_ok n2 s2 st1) as (v2 & st2 & E2 & C2).
    exists v2, st2.
    assert (Hmiss2 : cache_hit (CLUSTER_CACHE st1) (cache_key n2 s2) = None).
    { rewrite C1. now apply cache_miss_other_key. }
    assert (Hmiss1 : cache_hit (CLUSTER_CACHE st2) (cache_key n1 s1) = None).
    { rewrite C2. apply cache_miss_other_key.
      intro H. apply Hne. now inversion H. }
    split; [now apply compute_miss |].
    split; [exact E2 |].
    split; [now apply compute_miss_from_empty_cache |].
    split; [exact C2 |].
    split; [now apply compute_miss |].
    now apply compute_miss_from_empty_cache.
  - split.
    + intro H. apply cache_key_inj in H. destruct H as [-> ->]. reflexivity.
    + intro H. now inversion H.
  - intros st0 Hmiss. now apply compute_miss_from_empty_cache.
Qed.

End Cache.

(** With the sample runtime: after [(8, 5000)] and [(3, 5000)], the third
    call, [(8, 5000)] again, consults the random generator anew and returns
    a summary that differs from the one first stored. *)
Example evicted_entry_is_recomputed :
  exists v1 st1 v2 st2 v3 st3,
    compute_fashion_clusters (demo_rt false false 0) 8 5000 fresh
    = (Ok v1, st1)
    /\ compute_fashion_clusters (demo_rt false false 0) 3 5000 st1
       = (Ok v2, st2)
    /\ compute_fashion_clusters (demo_rt false false 0) 8 5000 st2
       = (Ok v3, st3)
    /\ map count (clusters v1) <> map count (clusters v3)
    /\ List.length (world st1) = 40%nat
    /\ List.length (world st2) = 55%nat
    /\ List.length (world st3) = 95%nat.
Proof.
  do 6 eexists. split; [vm_compute; reflexivity |].
  split; [vm_compute; reflexivity |].
  split; [vm_compute; reflexivity |].
  split; [vm_compute; discriminate |].
  repeat split; vm_compute; reflexivity.
Qed.

(** ** Cluster counts that are not positive *)

Section Nonpositive.
Context {W : Type}.
Variable rt : Runtime W.

Lemma live_clusters_nil (idx : list Z) (fit : KMeansFit) (n : Z)
      (cl : list Cluster) :
  (n <= 0)%Z -> live_clusters idx fit (range n) = Ok cl -> cl = [].
Proof.
  intros Hn H. rewrite (range_nonpositive n Hn) in H. simpl in H.
  now inversion H.
Qed.

(** Below the cache check, a cluster count that is not positive gives an
    empty summary on each of the three paths. *)
Lemma recompute_clusters_nonpositive (n s : Z) (st : PyState W) :
  (n <= 0)%Z ->
  exists v st',
    recompute_clusters rt n s st = (Ok v, st')
    /\ CLUSTER_CACHE st' = Some (entry_for n s v)
    /\ clusters v = []
    /\ (HAS_SKLEARN rt = false -> meta_source (meta v) = "mock")
    /\ (HAS_SKLEARN rt = true ->
        (exists e st'', live_pipeline rt n s st = (Raise e, st'')) ->
        meta_source (meta v) = "fallback_error")
    /\ (kmeans_rejects_nonpositive rt ->
        meta_source (meta v) = "mock"
        \/ meta_source (meta v) = "fallback_error").
Proof.
  intro Hn. unfold recompute_clusters.
  destruct (HAS_SKLEARN rt) eqn:Hsk; cbn [negb].
  - unfold try_except.
    destruct (live_pipeline_cases rt n s st)
      as [(e & st1 & E)
         | (rows & idx & fit & cl & w1 & w2 & _ & _ & Hfit & Hcl & E)].
    + rewrite E. rewrite (synthetic_summary_nonpositive rt _ _ _ n s st1 Hn).
      eexists. eexists. split; [reflexivity |]. split; [reflexivity |].
      split; [reflexivity |]. split; [discriminate |].
      split; [reflexivity |]. intros _. now right.
    + cbv zeta in E. rewrite E.
      pose proof (live_clusters_nil idx fit n cl Hn Hcl) as ->.
      eexists. eexists. split; [reflexivity |]. split; [reflexivity |].
      split; [reflexivity |]. split; [discriminate |].
      split.
      * intros _ (e & st'' & E'). discriminate E'.
      * intro Hrej. destruct (Hrej idx n w1 Hn) as (e & w' & E').
        rewrite Hfit in E'. discriminate.
  - rewrite (synthetic_summary_nonpositive rt _ _ _ n s st Hn).
    eexists. eexists. split; [reflexivity |]. split; [reflexivity |].
    split; [reflexivity |]. split; [reflexivity |].
    split; [discriminate |]. intros _. now left.
Qed.

(** The summarizer keeps the cache free of non-empty summaries for cluster
    counts that are not positive. *)
Lemma compute_keeps_nonpositive_entries_empty
      (n s : Z) (st st' : PyState W) (r : Exc ClusterSummary) :
  nonpositive_entries_empty rt st ->
  compute_fashion_clusters rt n s st = (r, st') ->
  nonpositive_entries_empty rt st'.
Proof.
  intros Inv E.
  destruct (cache_hit_cases (CLUSTER_CACHE st) (cache_key n s))
    as [(e & Hc & Hk & _) | Hmiss].
  - rewrite (compute_hit rt n s st e Hc Hk) in E. inversion E; subst.
    exact Inv.
  - rewrite (compute_miss rt n s st Hmiss) in E.
    intros e' n' s' Hc' Hk' Hn'.
    destruct (Z_le_gt_dec n 0) as [Hn | Hn].
    + destruct (recompute_clusters_nonpositive n s st Hn)
        as (v & st1 & E1 & C1 & Hcl & Hmock & _ & Hrej).
      rewrite E in E1. inversion E1; subst.
      rewrite C1 in Hc'. inversion Hc'; subst. cbn [entry_for entry_value].
      auto.
    + destruct (recompute_clusters_ok rt n s st) as (v & st1 & E1 & C1).
      rewrite E in E1. inversion E1; subst.
      rewrite C1 in Hc'. inversion Hc'; subst.
      cbn [entry_for entry_key] in Hk'.
      apply cache_key_inj in Hk'. lia.
Qed.

Lemma reachable_nonpositive_entries_empty (st : PyState W) :
  reachable rt st -> nonpositive_entries_empty rt st.
Proof.
  induction 1 as [w | st st' n s r _ IH E | st w _ IH].
  - intros e n s H. discriminate H.
  - eapply compute_keeps_nonpositive_entries_empty; eassumption.
  - exact IH.
Qed.

(** C10. In every state that a process can reach, a call with a cluster
    count that is not positive, and any sample limit, returns a summary
    instead of raising; the summary has no cluster, and the slot holds it
    under the requested key afterwards.  The summary is tagged "mock" when
    the clustering dependency is not importable, and "fallback_error" when
    the call takes the live path and that path raises; when the clustering
    library refuses such a count, these two tags are the only ones. *)
Theorem nonpositive_cluster_count_gives_empty_summary
        (st : PyState W) (n s : Z) :
  reachable rt st ->
  (n <= 0)%Z ->
  exists v st',
    compute_fashion_clusters rt n s st = (Ok v, st')
    /\ clusters v = []
    /\ CLUSTER_CACHE st' = Some (entry_for n s v)
    /\ (HAS_SKLEARN rt = false -> meta_source (meta v) = "mock")
    /\ (cache_hit (CLUSTER_CACHE st) (cache_key n s) = None ->
        HAS_SKLEARN rt = true ->
        (exists e st'', live_pipeline rt n s st = (Raise e, st'')) ->
        meta_source (meta v) = "fallback_error")
    /\ (kmeans_rejects_nonpositive rt ->
        meta_source (meta v) = "mock"
        \/ meta_source (meta v) = "fallback_error").
Proof.
  intros Hreach Hn.
  pose proof (reachable_nonpositive_entries_empty st Hreach) as Inv.
  destruct (cache_hit_cases (CLUSTER_CACHE st) (cache_key n s))
    as [(e & Hc & Hk & Hhit) | Hmiss].
  - destruct (Inv e n s Hc Hk Hn) as (Hcl & Hmock & Hrej).
    exists (entry_value e), st.
    split; [now apply compute_hit |]. split; [exact Hcl |].
    split; [rewrite Hc; f_equal; now apply entry_for_eta |].
    split; [exact Hmock |].
    split; [| exact Hrej].
    intro H. rewrite Hhit in H. discriminate.
  - rewrite (compute_miss rt n s st Hmiss).
    destruct (recompute_clusters_nonpositive n s st Hn)
      as (v & st1 & E1 & C1 & Hcl & Hmock & Hfall & Hrej).
    exists v, st1. repeat split; auto.
Qed.

End Nonpositive.

Lemma nonpositive_cluster_count_gives_empty_summary_witness :
  exists v st',
    compute_fashion_clusters (demo_rt true true 0) (-2) 5 fresh = (Ok v, st')
    /\ clusters v = []
    /\ CLUSTER_CACHE st' = Some (entry_for (-2) 5 v)
    /\ (HAS_SKLEARN (demo_rt true true 0) = false ->
        meta_source (meta v) = "mock")
    /\ (cache_hit (CLUSTER_CACHE fresh) (cache_key (-2) 5) = None ->
        HAS_SKLEARN (demo_rt true true 0) = true ->
        (exists e st'',
            live_pipeline (demo_rt true true 0) (-2) 5 fresh
            = (Raise e, st'')) ->
        meta_source (meta v) = "fallback_error")
    /\ (kmeans_rejects_nonpositive (demo_rt true true 0) ->
        meta_source (meta v) = "mock"
        \/ meta_source (meta v) = "fallback_error").
Proof.
  apply (nonpositive_cluster_count_gives_empty_summary
           (demo_rt true true 0) fresh (-2) 5).
  - apply (reach_start (demo_rt true true 0) []).
  - lia.
Defined.

(** ** The live clustering path *)

Lemma In_firstn {A} (n : nat) (l : list A) (x : A) :
  In x (firstn n l) -> In x l.
Proof.
  intro H. rewrite <- (firstn_skipn n l). apply in_or_app. now left.
Qed.

Lemma where_eq_spec (labels : list Z) (c : Z) :
  forall p x,
    In x (where_eq labels c p) ->
    (p <= x < p + Z.of_nat (List.length labels))%Z
    /\ nth_error labels (Z.to_nat (x - p)) = Some c.
Proof.
  induction labels as [| l r IH]; intros p x Hin; simpl in Hin;
    [destruct Hin |].
  assert (Hrec : In x (where_eq r c (p + 1)) ->
                 (p <= x < p + Z.of_nat (List.length (l :: r)))%Z
                 /\ nth_error (l :: r) (Z.to_nat (x - p)) = Some c).
  { intro H. destruct (IH _ _ H) as [Hb Hn].
    split; [cbn [List.length]; lia |].
    replace (Z.to_nat (x - p)) with (S (Z.to_nat (x - (p + 1)))) by lia.
    exact Hn. }
  destruct (Z.eqb l c) eqn:E; [| now apply Hrec].
  destruct Hin as [<- | Hin]; [| now apply Hrec].
  apply Z.eqb_eq in E. subst.
  split; [cbn [List.length]; lia |].
  now replace (p - p)%Z with 0%Z by lia.
Qed.

Lemma where_eq_length_cons (l : Z) (r : list Z) (c p : Z) :
  Z.of_nat (List.length (where_eq (l :: r) c p))
  = ((if Z.eqb l c then 1 else 0)
     + Z.of_nat (List.length (where_eq r c (p + 1))))%Z.
Proof. simpl. destruct (Z.eqb l c); cbn [List.length]; lia. Qed.

Lemma sumZ_map_add {A} (f g : A -> Z) (l : list A) :
  sumZ (map (fun x => (f x + g x)%Z) l)
  = (sumZ (map f l) + sumZ (map g l))%Z.
Proof. induction l as [| x xs IH]; simpl; [reflexivity | rewrite IH; lia]. Qed.

Lemma sumZ_indicator_absent (l : Z) (cs : list Z) :
  ~ In l cs -> sumZ (map (fun c => if Z.eqb l c then 1 else 0)%Z cs) = 0%Z.
Proof.
  induction cs as [| c r IH]; simpl; intro H; [reflexivity |].
  destruct (Z.eqb_spec l c) as [-> | _]; [elim H; now left |].
  rewrite IH; [reflexivity | tauto].
Qed.

Lemma sumZ_indicator_present (l : Z) (cs : list Z) :
  NoDup cs -> In l cs ->
  sumZ (map (fun c => if Z.eqb l c then 1 else 0)%Z cs) = 1%Z.
Proof.
  induction 1 as [| c r Hnotin Hnd IH]; simpl; intro Hin; [destruct Hin |].
  destruct (Z.eqb_spec l c) as [-> | Hne].
  - now rewrite sumZ_indicator_absent.
  - destruct Hin as [-> | Hin]; [now elim Hne |]. now rewrite IH.
Qed.

(** Every sampled row is counted in exactly one cluster. *)
Lemma where_eq_partition (cs : list Z) (labels : list Z) :
  NoDup cs -> Forall (fun l => In l cs) labels ->
  forall p,
    sumZ (map (fun c => Z.of_nat (List.length (where_eq labels c p))) cs)
    = Z.of_nat (List.length labels).
Proof.
  intros Hnd. induction 1 as [| l r Hl _ IH]; intro p.
  - simpl. induction cs as [| c cs' IHc]; simpl; [reflexivity |].
    inversion Hnd; subst. now rewrite IHc.
  - rewrite (map_ext _ _ (fun c => where_eq_length_cons l r c p)).
    rewrite (sumZ_map_add (fun c => if Z.eqb l c then 1 else 0)%Z
                          (fun c => Z.of_nat
                                      (List.length (where_eq r c (p + 1))))).
    rewrite IH, sumZ_indicator_present by assumption.
    cbn [List.length]. lia.
Qed.

Lemma sample_inds_ok (idx : list Z) (inds : list Z) :
  Forall (fun i => (0 <= i < Z.of_nat (List.length idx))%Z) inds ->
  sample_inds idx inds = Ok (map (original_index idx) inds).
Proof.
  induction 1 as [| i r Hi _ IH]; simpl; [reflexivity |].
  unfold idx_at, original_index at 1.
  destruct (nth_error idx (Z.to_nat i)) as [v |] eqn:E.
  - rewrite IH. f_equal. f_equal. symmetry. now apply nth_error_nth.
  - apply nth_error_None in E. lia.
Qed.

Lemma live_cluster_ok (idx : list Z) (fit : KMeansFit) (c : Z) :
  List.length (fit_labels fit) = List.length idx ->
  live_cluster idx fit c = Ok (expected_live_cluster idx fit c).
Proof.
  intro Hlen. unfold live_cluster. rewrite sample_inds_ok; [reflexivity |].
  apply Forall_forall. intros x Hx.
  apply In_firstn, where_eq_spec in Hx. lia.
Qed.

(** With one label per sampled row, the live loop raises nothing. *)
Lemma live_clusters_ok (idx : list Z) (fit : KMeansFit) (cs : list Z) :
  List.length (fit_labels fit) = List.length idx ->
  live_clusters idx fit cs = Ok (map (expected_live_cluster idx fit) cs).
Proof.
  intro Hlen. induction cs as [| c r IH]; simpl; [reflexivity |].
  now rewrite live_cluster_ok, IH.
Qed.

Lemma sum_counts_expected (idx : list Z) (fit : KMeansFit) (n : Z) :
  Forall (fun l => (0 <= l < n)%Z) (fit_labels fit) ->
  sum_counts (map (expected_live_cluster idx fit) (range n))
  = Z.of_nat (List.length (fit_labels fit)).
Proof.
  intro Hin. unfold sum_counts. rewrite map_map. cbn [expected_live_cluster count].
  apply (where_eq_partition (range n) (fit_labels fit) (NoDup_range n)).
  eapply Forall_impl; [| exact Hin]. intros l Hl. now apply in_range.
Qed.

Lemma sample_idx_in_dataset {W} (rt : Runtime W) (rows s : Z)
      (idx : list Z) :
  sample_idx rt rows s = Ok idx ->
  (rng_choice rt rows s = Ok idx ->
   Forall (fun i => (0 <= i < rows)%Z) idx) ->
  Forall (fun i => (0 <= i < rows)%Z) idx.
Proof.
  unfold sample_idx. destruct (negb (Z.eqb s 0) && Z.ltb s rows).
  - intros H Hc. now apply Hc.
  - intros H _. inversion H; subst. apply Forall_forall.
    intros i Hi. now apply in_range.
Qed.

Section LivePath.
Context {W : Type}.
Variable rt : Runtime W.

(** C6. On the live path (the dependency is importable, the cache does not
    answer, the dataset of [rows] rows is fetched, [idx] holds the sampled
    positions, and the clustering returns one label in [0, n_clusters) for
    every sampled row), the summarizer returns a summary tagged
    "fashion-mnist" whose cluster ids are [0, 1, ..., n_clusters - 1] in this
    order, whose counts add up to the number of sampled rows, and whose
    clusters each list at most five sample indices; each sample index is
    [idx[pos]] for a subsample position [pos] labelled with that cluster, so
    it is a position of the original dataset.  This holds for every
    [n_clusters] and [sample_limit], the positive ones included. *)
Theorem live_summary_is_dense_and_indexes_the_dataset
        (st : PyState W) (n s rows : Z) (idx : list Z) (fit : KMeansFit)
        (w1 w2 : W) :
  HAS_SKLEARN rt = true ->
  cache_hit (CLUSTER_CACHE st) (cache_key n s) = None ->
  fetch_openml rt (world st) = (Ok rows, w1) ->
  sample_idx rt rows s = Ok idx ->
  (rng_choice rt rows s = Ok idx ->
   Forall (fun i => (0 <= i < rows)%Z) idx) ->
  pca_kmeans rt idx n w1 = (Ok fit, w2) ->
  List.length (fit_labels fit) = List.length idx ->
  Forall (fun l => (0 <= l < n)%Z) (fit_labels fit) ->
  exists v,
    compute_fashion_clusters rt n s st
    = (Ok v, {| CLUSTER_CACHE := Some (entry_for n s v); world := w2 |})
    /\ meta_source (meta v) = "fashion-mnist"
    /\ meta_sampled (meta v) = Some (Z.of_nat (List.length idx))
    /\ map cluster_id (clusters v) = range n
    /\ sum_counts (clusters v) = Z.of_nat (List.length idx)
    /\ Forall
         (fun c =>
            (List.length (sample_indices c) <= 5)%nat
            /\ (0 <= count c)%Z
            /\ sample_indices c
               = map (original_index idx)
                     (firstn 5 (where_eq (fit_labels fit) (cluster_id c) 0))
            /\ Forall
                 (fun x =>
                    (0 <= x < rows)%Z
                    /\ exists pos,
                        nth_error idx pos = Some x
                        /\ nth_error (fit_labels fit) pos
                           = Some (cluster_id c))
                 (sample_indices c))
         (clusters v).
Proof.
  intros Hsk Hmiss Hfetch Hidx Hchoice Hfit Hlen Hlabels.
  pose proof (sample_idx_in_dataset rt rows s idx Hidx Hchoice) as Hrows.
  exists {| meta := {| meta_n_clusters := n;
                       meta_source := "fashion-mnist";
                       meta_sampled := Some (Z.of_nat (List.length idx)) |};
            clusters := map (expected_live_cluster idx fit) (range n) |}.
  split.
  { rewrite (compute_miss rt n s st Hmiss).
    unfold recompute_clusters. rewrite Hsk. cbn [negb].
    unfold try_except, live_pipeline, bind, call, lift_exc, set_cache, ret.
    rewrite Hfetch, Hidx. cbn [world]. rewrite Hfit.
    rewrite (live_clusters_ok idx fit (range n) Hlen). reflexivity. }
  split; [reflexivity |]. split; [reflexivity |].
  cbn [clusters].
  split.
  { rewrite map_map. cbn [expected_live_cluster cluster_id]. apply map_id. }
  split.
  { rewrite sum_counts_expected by assumption. now rewrite Hlen. }
  apply Forall_forall. intros c Hc. apply in_map_iff in Hc.
  destruct Hc as (k & <- & _). cbn [expected_live_cluster sample_indices
                                    cluster_id count].
  split.
  { rewrite length_map, length_firstn. apply Nat.le_min_l. }
  split; [lia |]. split; [reflexivity |].
  apply Forall_forall. intros x Hx. apply in_map_iff in Hx.
  destruct Hx as (i & <- & Hi).
  apply In_firstn, where_eq_spec in Hi. destruct Hi as [Hb Hn].
  replace (i - 0)%Z with i in Hn by lia.
  assert (Hlt : (Z.to_nat i < List.length idx)%nat) by lia.
  destruct (nth_error_some_of_length idx (Z.to_nat i) Hlt) as [x Ex].
  unfold original_index. rewrite (nth_error_nth idx (Z.to_nat i) 0%Z Ex).
  split.
  - rewrite Forall_forall in Hrows. eapply Hrows, nth_error_In, Ex.
  - exists (Z.to_nat i). split; assumption.
Qed.

End LivePath.

Lemma live_summary_is_dense_and_indexes_the_dataset_witness :
  exists v,
    compute_fashion_clusters (demo_rt true true 0) 3 5 fresh
    = (Ok v, {| CLUSTER_CACHE := Some (entry_for 3 5 v);
                world := ["fetch_openml"; "pca_kmeans"] |})
    /\ meta_source (meta v) = "fashion-mnist"
    /\ meta_sampled (meta v) = Some 5%Z
    /\ map cluster_id (clusters v) = [0; 1; 2]%Z
    /\ sum_counts (clusters v) = 5%Z
    /\ map sample_indices (clusters v) = [[11; 8]; [10; 7]; [9]]%Z.
Proof.
  destruct (live_summary_is_dense_and_indexes_the_dataset
              (demo_rt true true 0) fresh 3 5 12 [11; 10; 9; 8; 7]%Z
              (demo_fit [11; 10; 9; 8; 7]%Z 3)
              ["fetch_openml"] ["fetch_openml"; "pca_kmeans"]
              eq_refl eq_refl eq_refl eq_refl)
    as (v & E & Hsrc & Hsampled & Hids & Hsum & _).
  - intros _. repeat constructor; lia.
  - reflexivity.
  - reflexivity.
  - repeat constructor; vm_compute; congruence.
  - exists v. split; [exact E |]. split; [exact Hsrc |].
    split; [exact Hsampled |]. split; [exact Hids |].
    split; [exact Hsum |].
    vm_compute in E. inversion E. reflexivity.
Defined.

(** ** Requests without keywords *)

Section Endpoints.
Context {W : Type}.
Variable rt : Runtime W.

Lemma truthy_opt_false (keywords : option string) :
  truthy_opt keywords = false <-> keywords = None \/ keywords = Some EmptyString.
Proof.
  destruct keywords as [[| c r] |]; simpl; split; intro H; auto;
    try discriminate; destruct H as [H | H]; discriminate.
Qed.

(** Without keywords the trend scores of [api_combined] are the curated
    ones; only the clock is read. *)
Lemma combined_trend_scores_curated (keywords : option string)
      (st : PyState W) :
  truthy_opt keywords = false ->
  combined_trend_scores rt keywords st
  = (Ok curated_scores,
     {| CLUSTER_CACHE := CLUSTER_CACHE st;
        world := snd (strftime_gmtime rt (world st)) |}).
Proof.
  intro H. unfold combined_trend_scores. rewrite H.
  unfold curated_mock_trends, bind, call_total, ret.
  destruct (strftime_gmtime rt (world st)) as [now w]. reflexivity.
Qed.

Lemma combine_trends_with_clusters_ok (trend_scores : dict Q)
      (v : ClusterSummary) (st : PyState W) :
  combine_trends_with_clusters rt trend_scores v st
  = (Ok (combined_of trend_scores v (fst (strftime_gmtime rt (world st)))),
     {| CLUSTER_CACHE := CLUSTER_CACHE st;
        world := snd (strftime_gmtime rt (world st)) |}).
Proof.
  unfold combine_trends_with_clusters, bind, call_total, ret.
  destruct (strftime_gmtime rt (world st)) as [now w]. reflexivity.
Qed.

(** C8, as the code has it.  [api_trends] rejects a request whose keyword
    parameter is absent or empty, or holds no keyword after splitting and
    stripping, with status 400 and without any other effect.  [api_combined]
    does not reject a request without keywords: it takes the curated trends
    as the trend scores and answers with status 200. *)
Theorem requests_without_keywords
        (keywords : option string) (timeframe : string) (n_clusters : Z)
        (st : PyState W) :
  truthy_opt keywords = false ->
  api_trends rt keywords timeframe st
  = (Ok {| status_code := 400;
           content := BodyError "please provide ?keywords=kw1,kw2,..." |},
     st)
  /\ (forall kw,
        PyStr.truthy kw = true -> parse_keywords kw = [] ->
        api_trends rt (Some kw) timeframe st
        = (Ok {| status_code := 400;
                 content := BodyError "no valid keywords provided" |},
           st))
  /\ exists v now st',
      api_combined rt keywords n_clusters st
      = (Ok {| status_code := 200;
               content := BodyCombined (combined_of curated_scores v now)
                                       REFERENCE_ASSET_PATH |},
         st').
Proof.
  intro H. split; [| split].
  - apply truthy_opt_false in H. destruct H as [-> | ->]; reflexivity.
  - intros kw Hkw Hparse. unfold api_trends, try_except.
    rewrite Hkw. cbn [negb]. rewrite Hparse. reflexivity.
  - unfold api_combined, try_except. unfold bind at 1.
    rewrite (combined_trend_scores_curated keywords st H).
    unfold bind at 1.
    destruct (compute_fashion_clusters_ok rt n_clusters 5000
                {| CLUSTER_CACHE := CLUSTER_CACHE st;
                   world := snd (strftime_gmtime rt (world st)) |})
      as (v & st1 & E & _).
    rewrite E. unfold bind at 1.
    rewrite combine_trends_with_clusters_ok. unfold respond, ret.
    eexists. eexists. eexists. reflexivity.
Qed.

End Endpoints.

Lemma requests_without_keywords_witness :
  api_trends (demo_rt true true 0) None "today 12-m" fresh
  = (Ok {| status_code := 400;
           content := BodyError "please provide ?keywords=kw1,kw2,..." |},
     fresh)
  /\ api_trends (demo_rt true true 0) (Some " , ") "today 12-m" fresh
     = (Ok {| status_code := 400;
              content := BodyError "no valid keywords provided" |},
        fresh).
Proof.
  destruct (requests_without_keywords (demo_rt true true 0) None
              "today 12-m" 8 fresh eq_refl) as (H1 & H2 & _).
  split; [exact H1 |]. apply H2; reflexivity.
Defined.

(** C8, as the claim words it, fails for [api_combined]: a request without
    keywords is answered with status 200 from the curated trends ("linen"
    with 0.92 first among the extra trends), not rejected. *)
Lemma api_combined_accepts_missing_keywords :
  exists combined st',
    api_combined (demo_rt false false 0) None 2 fresh
    = (Ok {| status_code := 200;
             content := BodyCombined combined REFERENCE_ASSET_PATH |}, st')
    /\ map et_category (cb_extra_trends combined)
       = ["linen"; "oversized-blazer"; "pastel-denim";
          "sustainable-fabrics"; "athleisure"]
    /\ map category (cb_clusters combined) = ["tops"; "dresses"].
Proof.
  eexists. eexists. split; [vm_compute; reflexivity |].
  split; reflexivity.
Qed.

(** * Further properties of the service *)

(** ** Batches of keywords *)

Lemma chunks_fuel_concat (fuel : nat) :
  forall l, (List.length l <= fuel)%nat -> List.concat (chunks_fuel fuel l) = l.
Proof.
  induction fuel as [| fuel IH]; intros l Hlen.
  - destruct l; [reflexivity | simpl in Hlen; lia].
  - destruct l as [| x xs]; [reflexivity |].
    cbn [chunks_fuel List.concat]. rewrite IH.
    + apply firstn_skipn.
    + rewrite length_skipn. unfold CHUNK. cbn [List.length] in *. lia.
Qed.

Lemma chunks_fuel_sizes (fuel : nat) :
  forall l,
    Forall (fun c => (1 <= List.length c <= 5)%nat) (chunks_fuel fuel l).
Proof.
  induction fuel as [| fuel IH]; intro l.
  - destruct l; constructor.
  - destruct l as [| x xs]; [constructor |].
    cbn [chunks_fuel]. constructor; [| apply IH].
    rewrite length_firstn. unfold CHUNK. cbn [List.length]. lia.
Qed.

Lemma chunks_fuel_count (fuel : nat) :
  forall l,
    (List.length l <= fuel)%nat ->
    List.length (chunks_fuel fuel l) = ((List.length l + 4) / 5)%nat.
Proof.
  induction fuel as [| fuel IH]; intros l Hlen.
  - destruct l; [reflexivity | simpl in Hlen; lia].
  - destruct l as [| x xs]; [reflexivity |].
    cbn [chunks_fuel List.length]. rewrite IH.
    + rewrite length_skipn. unfold CHUNK. cbn [List.length].
      destruct (Nat.le_gt_cases 5 (S (List.length xs))) as [H | H].
      * replace (S (List.length xs) + 4)%nat
          with ((S (List.length xs) - 5 + 4) + 1 * 5)%nat by lia.
        rewrite Nat.div_add by lia. lia.
      * replace (S (List.length xs) - 5)%nat with 0%nat by lia.
        replace ((0 + 4) / 5)%nat with 0%nat by reflexivity.
        assert (E : ((S (List.length xs) + 4) / 5 = 1)%nat).
        { symmetry. apply (Nat.div_unique _ 5 1 (List.length xs)); lia. }
        lia.
    + rewrite length_skipn. unfold CHUNK. cbn [List.length] in *. lia.
Qed.

Lemma chunks_partition_keys (keywords : list string) :
  List.concat (chunks keywords) = keywords
  /\ Forall (fun c => (1 <= List.length c <= 5)%nat) (chunks keywords).
Proof.
  unfold chunks. split; [now apply chunks_fuel_concat |].
  apply chunks_fuel_sizes.
Qed.

(** X1. The batches of a fetch are a partition of the keyword list: put end
    to end they give back the keywords in order, every batch holds between one
    and five keywords, and there are [ceil(len / 5)] of them. *)
Theorem chunks_partition_the_keywords (keywords : list string) :
  List.concat (chunks keywords) = keywords
  /\ Forall (fun c => (1 <= List.length c <= 5)%nat) (chunks keywords)
  /\ List.length (chunks keywords) = ((List.length keywords + 4) / 5)%nat.
Proof.
  unfold chunks. split; [now apply chunks_fuel_concat |].
  split; [apply chunks_fuel_sizes | now apply chunks_fuel_count].
Qed.

(** ** Keys of the mappings *)

Lemma seen_true (acc : list string) (k : string) :
  seen acc k = true <-> In k acc.
Proof.
  unfold seen. rewrite existsb_exists. split.
  - intros (x & Hx & E). apply String.eqb_eq in E. now subst.
  - intro H. exists k. split; [exact H | apply String.eqb_refl].
Qed.

Lemma seen_false (acc : list string) (k : string) :
  seen acc k = false <-> ~ In k acc.
Proof.
  rewrite <- seen_true. destruct (seen acc k); split; intro H.
  - discriminate.
  - now elim H.
  - discriminate.
  - reflexivity.
Qed.

Lemma dict_keys_set {V} (d : dict V) (k : string) (v : V) :
  dict_keys (dict_set d k v)
  = if seen (dict_keys d) k then dict_keys d else (dict_keys d ++ [k])%list.
Proof.
  unfold dict_keys, seen. induction d as [| [k' v'] r IH]; simpl;
    [reflexivity |].
  rewrite (String.eqb_sym k k'). destruct (String.eqb k' k); simpl;
    [reflexivity |].
  rewrite IH. now destruct (existsb (String.eqb k) (map fst r)).
Qed.

Lemma dict_keys_fold {V} (f : dict V -> string -> V) (l : list string) :
  forall d,
    dict_keys (fold_left (fun d k => dict_set d k (f d k)) l d)
    = first_seen_onto (dict_keys d) l.
Proof.
  unfold first_seen_onto. induction l as [| k r IH]; intro d; simpl;
    [reflexivity |].
  now rewrite IH, dict_keys_set.
Qed.

Lemma first_seen_onto_app (acc l1 l2 : list string) :
  first_seen_onto acc (l1 ++ l2)
  = first_seen_onto (first_seen_onto acc l1) l2.
Proof. unfold first_seen_onto. apply fold_left_app. Qed.

Lemma first_seen_onto_In (l : list string) :
  forall acc k, In k (first_seen_onto acc l) <-> In k acc \/ In k l.
Proof.
  unfold first_seen_onto. induction l as [| x r IH]; intros acc k; simpl.
  - tauto.
  - rewrite IH. destruct (seen acc x) eqn:E.
    + apply seen_true in E. split; [tauto |].
      intros [H | [<- | H]]; auto.
    + rewrite in_app_iff. simpl. tauto.
Qed.

Lemma first_seen_onto_NoDup (l : list string) :
  forall acc, NoDup acc -> NoDup (first_seen_onto acc l).
Proof.
  unfold first_seen_onto. induction l as [| x r IH]; intros acc H; simpl;
    [exact H |].
  apply IH. destruct (seen acc x) eqn:E; [exact H |].
  apply seen_false in E. apply NoDup_app; [exact H | | ].
  - constructor; [intros [] | constructor].
  - intros a Ha [<- | []]. contradiction.
Qed.

Lemma dict_set_fresh {V} (d : dict V) (k : string) (v : V) :
  ~ In k (dict_keys d) -> dict_set d k v = (d ++ [(k, v)])%list.
Proof.
  unfold dict_keys. induction d as [| [k' v'] r IH]; simpl; intro H;
    [reflexivity |].
  destruct (String.eqb_spec k' k) as [-> | _]; [elim H; now left |].
  rewrite IH; [reflexivity | tauto].
Qed.

Lemma dict_of_pairs_fold {V} (l : list (string * V)) :
  forall acc,
    NoDup (map fst (acc ++ l)) ->
    fold_left (fun d kv => dict_set d (fst kv) (snd kv)) l acc
    = (acc ++ l)%list.
Proof.
  induction l as [| [k v] r IH]; intros acc H; simpl.
  - now rewrite app_nil_r.
  - rewrite dict_set_fresh.
    + rewrite IH; rewrite <- app_assoc; [reflexivity | exact H].
    + rewrite map_app in H. simpl in H. apply NoDup_remove_2 in H.
      unfold dict_keys. intro Hin. apply H. apply in_or_app. now left.
Qed.

(** A comprehension over distinct keys keeps the pairs as they come. *)
Lemma dict_of_pairs_nodup {V} (l : list (string * V)) :
  NoDup (map fst l) -> dict_of_pairs l = l.
Proof. intro H. unfold dict_of_pairs. now rewrite dict_of_pairs_fold. Qed.

(** The mapping that both score sources return: distinct keys zipped with
    their normalized and rounded values. *)
Lemma normalized_mapping_shape (scale : positive) (keys : list string)
      (vals : list Q) :
  NoDup keys -> List.length vals = List.length keys ->
  let m := dict_of_pairs
             (map (fun kv => (fst kv, Py.round_to scale (snd kv)))
                  (combine keys (safe_normalize vals))) in
  dict_keys m = keys
  /\ Forall (fun kv => in_unit_interval (snd kv)) m.
Proof.
  intros Hnd Hlen. cbv zeta.
  assert (Hk : map fst (map (fun kv : string * Q =>
                               (fst kv, Py.round_to scale (snd kv)))
                            (combine keys (safe_normalize vals))) = keys).
  { rewrite map_map. cbn [fst]. apply map_fst_combine.
    now rewrite safe_normalize_length. }
  rewrite dict_of_pairs_nodup by now rewrite Hk.
  split; [exact Hk |].
  apply Forall_forall. intros kv Hin. apply in_map_iff in Hin.
  destruct Hin as ([k v] & <- & Hin). cbn [snd].
  apply round_to_unit. apply in_combine_r in Hin.
  pose proof (safe_normalize_unit vals) as Hall.
  rewrite Forall_forall in Hall. now apply Hall.
Qed.

(** ** Shape of the mock scores *)

Lemma first_seen_keys (keywords : list string) :
  NoDup (first_seen keywords)
  /\ forall k, In k (first_seen keywords) <-> In k keywords.
Proof.
  split; [apply first_seen_onto_NoDup; constructor |].
  intro k. unfold first_seen. rewrite first_seen_onto_In. simpl. tauto.
Qed.

Lemma mock_trend_scores_keys_values {W} (rt : Runtime W)
      (keywords : list string) :
  dict_keys (mock_trend_scores rt keywords) = first_seen keywords
  /\ Forall (fun kv => in_unit_interval (snd kv))
            (mock_trend_scores rt keywords).
Proof.
  unfold mock_trend_scores.
  set (scores := fold_left (fun d k => dict_set d k (mock_raw_score rt k))
                           keywords []).
  assert (Hkeys : dict_keys scores = first_seen keywords).
  { apply (dict_keys_fold (fun _ k => mock_raw_score rt k) keywords []). }
  assert (Hnd : NoDup (dict_keys scores)).
  { rewrite Hkeys. apply first_seen_keys. }
  destruct (normalized_mapping_shape 1000 (dict_keys scores)
              (dict_values scores) Hnd) as [Hk Hv].
  { unfold dict_values, dict_keys. now rewrite !length_map. }
  change (Py.round_to 1000) with Py.round3 in Hk, Hv.
  split; [now rewrite Hk | exact Hv].
Qed.

(** X2. The mock scores are a mapping over the distinct keywords in the order
    of their first occurrence, whatever the process hash: a keyword is a key
    exactly when it was asked for, no key is repeated, and every score lies in
    [0,1]. *)
Theorem mock_trend_scores_shape {W} (rt : Runtime W) (keywords : list string) :
  dict_keys (mock_trend_scores rt keywords) = first_seen keywords
  /\ dict_wf (mock_trend_scores rt keywords)
  /\ (forall k, In k (dict_keys (mock_trend_scores rt keywords))
                <-> In k keywords)
  /\ Forall (fun kv => in_unit_interval (snd kv))
            (mock_trend_scores rt keywords).
Proof.
  destruct (mock_trend_scores_keys_values rt keywords) as [Hk Hv].
  destruct (first_seen_keys keywords) as [Hnd Hin].
  split; [exact Hk |].
  split; [unfold dict_wf; now rewrite Hk |].
  split; [| exact Hv].
  intro k. rewrite Hk. apply Hin.
Qed.

(** ** A fetch that succeeds *)

Section FetchSuccess.
Context {W : Type}.
Variable rt : Runtime W.

Lemma call_cache {A} (f : W -> Exc A * W) (st st' : PyState W) (r : Exc A) :
  call f st = (r, st') -> CLUSTER_CACHE st' = CLUSTER_CACHE st.
Proof.
  unfold call. destruct (f (world st)) as [r' w]. intro H.
  inversion H. reflexivity.
Qed.

Lemma provider_call_cache (chunk : list string) (timeframe : string)
      (st st' : PyState W) (r : Exc Frame) :
  provider_call rt chunk timeframe st = (r, st') ->
  CLUSTER_CACHE st' = CLUSTER_CACHE st.
Proof.
  unfold provider_call, bind.
  destruct (call (build_payload rt chunk timeframe) st) as [[[] | e] st1] eqn:E1.
  - intro E2. apply call_cache in E1. apply call_cache in E2. congruence.
  - intro H. inversion H; subst. now apply call_cache in E1.
Qed.

(** One batch either fails, or stores one score per keyword of the batch. *)
Lemma fetch_chunk_cases (timeframe : string) (acc : dict Q)
      (chunk : list string) (st st' : PyState W) (r : Exc (dict Q)) :
  fetch_chunk rt timeframe acc chunk st = (r, st') ->
  CLUSTER_CACHE st' = CLUSTER_CACHE st
  /\ forall d, r = Ok d ->
               dict_keys d = first_seen_onto (dict_keys acc) chunk.
Proof.
  unfold fetch_chunk, try_except. unfold bind at 1.
  destruct (provider_call rt chunk timeframe st) as [[df | e] st1] eqn:E.
  - apply provider_call_cache in E.
    destruct (frame_empty df); unfold ret; intro H; inversion H; subst;
      (split; [exact E |]); intros d Hd; inversion Hd; subst.
    + apply (dict_keys_fold (fun _ _ => 0) chunk acc).
    + apply (dict_keys_fold (fun _ k => keyword_score df k) chunk acc).
  - apply provider_call_cache in E. unfold raise. intro H.
    inversion H; subst. split; [exact E |]. intros d Hd. discriminate Hd.
Qed.

Lemma fetch_loop_cases (timeframe : string) (batches : list (list string)) :
  forall acc st st' r,
    for_each (fetch_chunk rt timeframe) batches acc st = (r, st') ->
    CLUSTER_CACHE st' = CLUSTER_CACHE st
    /\ forall d, r = Ok d ->
                 dict_keys d
                 = first_seen_onto (dict_keys acc) (List.concat batches).
Proof.
  induction batches as [| b bs IH]; intros acc st st' r; cbn [for_each].
  - unfold ret. intro H. inversion H; subst. split; [reflexivity |].
    intros d Hd. inversion Hd; subst. reflexivity.
  - unfold bind.
    destruct (fetch_chunk rt timeframe acc b st) as [[d1 | e] st1] eqn:E1.
    + apply fetch_chunk_cases in E1. destruct E1 as [Hc1 Hk1].
      intro E2. apply IH in E2. destruct E2 as [Hc2 Hk2].
      split; [congruence |]. intros d Hd.
      rewrite (Hk2 d Hd), (Hk1 d1 eq_refl). cbn [List.concat].
      now rewrite first_seen_onto_app.
    + apply fetch_chunk_cases in E1. destruct E1 as [Hc1 _].
      intro H. inversion H; subst. split; [exact Hc1 |].
      intros d Hd. discriminate Hd.
Qed.

(** Whatever its outcome, a fetch leaves the cluster cache as it was. *)
Lemma fetch_google_trends_cache (keywords : list string) (timeframe : string)
      (st st' : PyState W) (r : Exc (dict Q)) :
  fetch_google_trends rt keywords timeframe st = (r, st') ->
  CLUSTER_CACHE st' = CLUSTER_CACHE st.
Proof.
  unfold fetch_google_trends. destruct (HAS_PYTRENDS rt); cbn [negb].
  - unfold bind at 1.
    destruct (call (TrendReq rt) st) as [[[] | e] st0] eqn:E0.
    + apply call_cache in E0. unfold bind.
      destruct (for_each (fetch_chunk rt timeframe) (chunks keywords) [] st0)
        as [[d | e] st1] eqn:E1; apply fetch_loop_cases in E1;
        destruct E1 as [Hc _]; unfold ret; intro H; inversion H; subst;
        congruence.
    + apply call_cache in E0. intro H. inversion H; subst. exact E0.
  - unfold raise. intro H. inversion H. reflexivity.
Qed.

Lemma fetch_google_trends_keys_values
      (keywords : list string) (timeframe : string)
      (st st' : PyState W) (m : dict Q) :
  fetch_google_trends rt keywords timeframe st = (Ok m, st') ->
  dict_keys m = first_seen keywords
  /\ Forall (fun kv => in_unit_interval (snd kv)) m.
Proof.
  unfold fetch_google_trends. destruct (HAS_PYTRENDS rt); cbn [negb];
    [| unfold raise; intro H; discriminate H].
  unfold bind at 1.
  destruct (call (TrendReq rt) st) as [[[] | e] st0];
    [| intro H; discriminate H].
  unfold bind.
  destruct (for_each (fetch_chunk rt timeframe) (chunks keywords) [] st0)
    as [[d | e] st1] eqn:E1; [| intro H; discriminate H].
  apply fetch_loop_cases in E1. destruct E1 as [_ Hk].
  specialize (Hk d eq_refl).
  destruct (chunks_partition_keys keywords) as [Hconcat _].
  rewrite Hconcat in Hk. cbn [dict_keys map] in Hk.
  unfold ret. intro H. inversion H as [[Hm Hst]]. clear H.
  assert (Hnd : NoDup (dict_keys d)).
  { rewrite Hk. apply first_seen_keys. }
  destruct (normalized_mapping_shape 10000 (dict_keys d)
              (map (fun k => dict_get_default d k 0) (dict_keys d)) Hnd)
    as [Hkeys Hv].
  { now rewrite length_map. }
  change (Py.round_to 10000) with Py.round4 in Hkeys, Hv.
  split; [now rewrite Hkeys | exact Hv].
Qed.

(** X3. A fetch that returns a mapping returns one over the distinct keywords
    in the order of their first occurrence: every keyword asked for is a key,
    no key is repeated, and every score lies in [0,1]. *)
Theorem fetch_google_trends_success_shape
        (keywords : list string) (timeframe : string)
        (st st' : PyState W) (m : dict Q) :
  fetch_google_trends rt keywords timeframe st = (Ok m, st') ->
  dict_keys m = first_seen keywords
  /\ dict_wf m
  /\ (forall k, In k (dict_keys m) <-> In k keywords)
  /\ Forall (fun kv => in_unit_interval (snd kv)) m.
Proof.
  intro E.
  destruct (fetch_google_trends_keys_values _ _ _ _ _ E) as [Hk Hv].
  destruct (first_seen_keys keywords) as [Hnd Hin].
  split; [exact Hk |].
  split; [unfold dict_wf; now rewrite Hk |].
  split; [| exact Hv].
  intro k. rewrite Hk. apply Hin.
Qed.

End FetchSuccess.

Lemma fetch_google_trends_success_shape_witness :
  dict_keys [("linen", 10000 # 10000); ("denim", 1000 # 10000);
             ("silk", 0 # 10000)]
  = first_seen ["linen"; "denim"; "linen"; "silk"].
Proof.
  eapply (fetch_google_trends_success_shape (demo_rt true false 0)
            ["linen"; "denim"; "linen"; "silk"] "today 12-m" fresh _
            [("linen", 10000 # 10000); ("denim", 1000 # 10000);
             ("silk", 0 # 10000)]).
  vm_compute. reflexivity.
Defined.

(** ** A single keyword *)

Lemma safe_normalize_singleton (x : Q) : safe_normalize [x] = [0].
Proof.
  unfold safe_normalize. cbn [map Py.max_list Py.min_list fold_left].
  now rewrite Qeq_bool_refl.
Qed.

(** X4. A request for one keyword always gets the score 0 for it: the mock
    scores of a single keyword are [{k: 0.0}] whatever the process hash, and a
    fetch for a single keyword that succeeds returns [{k: 0.0}] whatever the
    provider answered, because a one-element sequence normalizes to zero. *)
Theorem single_keyword_scores_zero {W} (rt : Runtime W) (k : string) :
  mock_trend_scores rt [k] = [(k, Py.round3 0)]
  /\ forall timeframe st st' m,
      fetch_google_trends rt [k] timeframe st = (Ok m, st') ->
      m = [(k, Py.round4 0)].
Proof.
  split.
  - unfold mock_trend_scores. cbn [fold_left dict_set dict_values dict_keys map
                                    fst snd].
    rewrite safe_normalize_singleton. reflexivity.
  - intros timeframe st st' m. unfold fetch_google_trends.
    destruct (HAS_PYTRENDS rt); cbn [negb];
      [| unfold raise; intro H; discriminate H].
    unfold bind at 1.
    destruct (call (TrendReq rt) st) as [[[] | e] st0];
      [| intro H; discriminate H].
    cbn [chunks chunks_fuel List.length firstn skipn CHUNK for_each].
    unfold bind, fetch_chunk, try_except, bind.
    destruct (provider_call rt [k] timeframe st0) as [[df | e] st1];
      [| unfold raise; intro H; discriminate H].
    destruct (frame_empty df); unfold ret;
      cbn [fold_left dict_set dict_keys map fst snd];
      unfold dict_get_default; cbn [dict_get]; rewrite String.eqb_refl;
      rewrite safe_normalize_singleton; intro H; inversion H; reflexivity.
Qed.

Lemma single_keyword_scores_zero_witness :
  fetch_google_trends (demo_rt true false 0) ["linen"] "today 12-m" fresh
  = (Ok [("linen", Py.round4 0)],
     {| CLUSTER_CACHE := None;
        world := ["TrendReq"; "build_payload"; "interest_over_time"] |})
  /\ [("linen", Py.round4 0)] = [("linen", Py.round4 0)].
Proof.
  assert (E : fetch_google_trends (demo_rt true false 0) ["linen"]
                "today 12-m" fresh
              = (Ok [("linen", Py.round4 0)],
                 {| CLUSTER_CACHE := None;
                    world := ["TrendReq"; "build_payload";
                              "interest_over_time"] |})).
  { vm_compute. reflexivity. }
  split; [exact E |].
  apply (proj2 (single_keyword_scores_zero (demo_rt true false 0) "linen")
               _ _ _ _ E).
Defined.

(** ** Accuracy of the rounded scores *)

Lemma round_half_even_near (q : Q) :
  let f := (Qnum q / Zpos (Qden q))%Z in
  let r := (Qnum q mod Zpos (Qden q))%Z in
  (Py.round_half_even q = f /\ (2 * r <= Zpos (Qden q))%Z)
  \/ (Py.round_half_even q = (f + 1)%Z /\ (Zpos (Qden q) <= 2 * r)%Z).
Proof.
  cbv zeta. unfold Py.round_half_even.
  destruct (Z.compare_spec (2 * (Qnum q mod Zpos (Qden q)))
                           (Zpos (Qden q))) as [H | H | H].
  - destruct (Z.even _); [left | right]; split; try reflexivity; lia.
  - left. split; [reflexivity | lia].
  - right. split; [reflexivity | lia].
Qed.

(** Rounding to [scale] moves a number by at most half a unit of the
    scale. *)
Lemma round_to_error (scale : positive) (q : Q) :
  - (1 # (2 * scale)) <= Py.round_to scale q - q
  /\ Py.round_to scale q - q <= 1 # (2 * scale).
Proof.
  unfold Py.round_to.
  pose proof (round_half_even_near (q * inject_Z (Zpos scale))) as Hc.
  cbv zeta in Hc.
  set (z := Py.round_half_even (q * inject_Z (Zpos scale))) in *.
  destruct q as [n d]. cbn [Qnum Qden Qmult inject_Z] in Hc.
  rewrite Pos.mul_1_r in Hc.
  pose proof (Z.div_mod (n * Zpos scale) (Zpos d) ltac:(lia)) as Hdm.
  pose proof (Z.mod_pos_bound (n * Zpos scale) (Zpos d) eq_refl) as Hr.
  set (f := (n * Zpos scale / Zpos d)%Z) in *.
  set (r := ((n * Zpos scale) mod Zpos d)%Z) in *.
  unfold Qle, Qminus, Qplus, Qopp. cbn [Qnum Qden].
  rewrite !Pos2Z.inj_mul.
  assert (Hd : (0 < Zpos d)%Z) by lia.
  assert (Hs : (0 < Zpos scale)%Z) by lia.
  set (D := Zpos d) in *. set (S := Zpos scale) in *.
  clearbody D S f r z.
  destruct Hc as [[-> Hc] | [-> Hc]]; split; nia.
Qed.

(** X5. Every score of a combined entry is within 0.0005 of the number it
    rounds: the fields [trend_score] and [cluster_pop_score] of the unrounded
    trend score [t] and population score [p], and the combined score of the
    double [s] that line 293 computes for [0.6 * t + 0.4 * p].  When [t] and
    [p] lie in [0,1] that double is within [10^-15] of the exact weighted
    sum, so that the combined score is within [0.0005 + 10^-15] of the exact
    [0.6 * t + 0.4 * p]. *)
Theorem combined_entry_scores_are_accurate
        (trend_scores : dict Q) (c : Cluster) (p : Q) :
  let t := dict_get_default trend_scores (resolved_category c) 0 in
  let e := combined_entry trend_scores c p in
  let s := F64.add (F64.mul (6 # 10) t) (F64.mul (4 # 10) p) in
  (- (1 # 2000) <= combined_score e - s /\ combined_score e - s <= 1 # 2000)
  /\ (- (1 # 2000) <= trend_score e - t /\ trend_score e - t <= 1 # 2000)
  /\ (- (1 # 2000) <= cluster_pop_score e - p
      /\ cluster_pop_score e - p <= 1 # 2000)
  /\ (in_unit_interval t -> in_unit_interval p ->
      (- (1 # 1000000000000000) <= s - ((6 # 10) * t + (4 # 10) * p)
       /\ s - ((6 # 10) * t + (4 # 10) * p) <= 1 # 1000000000000000)
      /\ (- (1 # 2000) - (1 # 1000000000000000)
          <= combined_score e - ((6 # 10) * t + (4 # 10) * p)
          /\ combined_score e - ((6 # 10) * t + (4 # 10) * p)
             <= (1 # 2000) + (1 # 1000000000000000))).
Proof.
  cbv zeta. cbn [combined_entry combined_score trend_score cluster_pop_score].
  unfold Py.round3.
  set (t := dict_get_default trend_scores (resolved_category c) 0).
  set (s := F64.add (F64.mul (6 # 10) t) (F64.mul (4 # 10) p)).
  pose proof (round_to_error 1000 s) as Hs.
  pose proof (round_to_error 1000 t) as Ht.
  pose proof (round_to_error 1000 p) as Hp.
  change (1 # 2 * 1000) with (1 # 2000) in *.
  split; [exact Hs |]. split; [exact Ht |]. split; [exact Hp |].
  intros Htu Hpu.
  pose proof (weighted_sum_f64_error t p Htu Hpu) as He. fold s in He.
  split; [exact He |].
  set (rs := Py.round_to 1000 s) in *. clearbody rs s. split; lra.
Qed.

(** ** Shape of the combined entries *)

Lemma cluster_info_map (trend_scores : dict Q) (cs : list Cluster)
      {A} (f : CombinedEntry -> A) (g : Cluster -> A) :
  (forall c p, f (combined_entry trend_scores c p) = g c) ->
  map f (cluster_info trend_scores cs) = map g cs.
Proof.
  intro H. unfold cluster_info. rewrite map_map.
  rewrite (map_ext _ (fun cp => g (fst cp))) by (intros [c p]; apply H).
  rewrite <- (map_map fst g). rewrite map_fst_combine; [reflexivity |].
  now rewrite pop_norm_length.
Qed.

Lemma cluster_info_pop_unit (trend_scores : dict Q) (cs : list Cluster) :
  Forall (fun e => in_unit_interval (cluster_pop_score e))
         (cluster_info trend_scores cs).
Proof.
  unfold cluster_info. apply Forall_forall. intros e He.
  apply in_map_iff in He. destruct He as ([c p] & <- & Hin).
  cbn [combined_entry cluster_pop_score fst snd]. apply round3_unit.
  apply in_combine_r in Hin. now apply (pop_norm_unit cs).
Qed.

(** X6. The combiner emits one entry per cluster, in the order of the
    clusters, whatever the trend scores: the entries carry the cluster ids
    and the resolved categories in that order, each entry keeps the first
    three sample indices of its cluster (all of them when there are fewer),
    and every population score lies in [0,1], also for negative counts. *)
Theorem cluster_info_follows_the_clusters
        (trend_scores : dict Q) (cs : list Cluster) :
  map ce_cluster_id (cluster_info trend_scores cs) = map cluster_id cs
  /\ map category (cluster_info trend_scores cs) = map resolved_category cs
  /\ map ce_sample_indices (cluster_info trend_scores cs)
     = map (fun c => firstn 3 (sample_indices c)) cs
  /\ Forall (fun e => (List.length (ce_sample_indices e) <= 3)%nat)
            (cluster_info trend_scores cs)
  /\ Forall (fun e => in_unit_interval (cluster_pop_score e))
            (cluster_info trend_scores cs).
Proof.
  split; [now apply cluster_info_map |].
  split; [now apply cluster_info_map |].
  split; [now apply cluster_info_map |].
  split; [| apply cluster_info_pop_unit].
  unfold cluster_info. apply Forall_forall. intros e He.
  apply in_map_iff in He. destruct He as ([c p] & <- & _).
  cbn [combined_entry ce_sample_indices fst]. apply firstn_le_length.
Qed.

(** ** Clusters of equal size *)

Lemma safe_normalize_all_equal (scores : list Q) :
  all_equal (map clamp0 scores) ->
  safe_normalize scores = map (fun _ => 0) scores.
Proof.
  intro Hall. destruct scores as [| s r]; [reflexivity |].
  rewrite safe_normalize_cons. cbv zeta.
  pose proof (max_list_is_max (clamp0 s) (map clamp0 r)) as Hmax.
  pose proof (min_list_is_min (clamp0 s) (map clamp0 r)) as Hmin.
  assert (E : Py.max_list (clamp0 s) (map clamp0 r)
              == Py.min_list (clamp0 s) (map clamp0 r)).
  { eapply min_eq_max_of_all_equal; eassumption. }
  apply Qeq_eq_bool in E. rewrite E.
  change (clamp0 s :: map clamp0 r) with (map clamp0 (s :: r)).
  now rewrite map_map.
Qed.

Lemma pop_norm_equal_counts (cs : list Cluster) :
  (forall c c', In c cs -> In c' cs -> count c = count c') ->
  pop_norm cs = map (fun _ => 0) cs.
Proof.
  intro H. rewrite pop_norm_eq, safe_normalize_f64_all_equal.
  - now rewrite map_map.
  - intros a b Ha Hb. rewrite map_map in Ha, Hb.
    apply in_map_iff in Ha. destruct Ha as (c & <- & Hc).
    apply in_map_iff in Hb. destruct Hb as (c' & <- & Hc').
    rewrite (H c c' Hc Hc'). apply Qeq_refl.
Qed.

(** X7. When all clusters have the same count (a single cluster included)
    the cluster sizes carry no signal: every entry gets the population score
    0, and its combined score is [round(d, 3)] for the double [d] of the
    product [0.6 * t], where [t] is the trend score of the entry's category
    alone: adding [0.4 * 0.0] changes nothing.  For the trend score 0.0125
    the product lies just below 0.0075 and the combined score is 0.007. *)
Theorem equal_counts_give_zero_population_score
        (trend_scores : dict Q) (cs : list Cluster) :
  (forall c c', In c cs -> In c' cs -> count c = count c') ->
  cluster_info trend_scores cs
  = map (fun c => combined_entry trend_scores c 0) cs
  /\ Forall (fun e =>
               cluster_pop_score e = Py.round3 0
               /\ combined_score e
                  = Py.round3
                      (F64.mul (6 # 10)
                         (dict_get_default trend_scores (category e) 0)))
            (cluster_info trend_scores cs)
  /\ Py.round3 0 == 0
  /\ F64.mul (6 # 10) (125 # 10000) < 75 # 10000
  /\ map combined_score
         (cluster_info [("linen", 125 # 10000)] linen_cluster)
     = [7 # 1000].
Proof.
  intro H.
  assert (E : cluster_info trend_scores cs
              = map (fun c => combined_entry trend_scores c 0) cs).
  { unfold cluster_info. rewrite (pop_norm_equal_counts cs H).
    induction cs as [| c r IH]; [reflexivity |].
    cbn [map combine fst snd]. f_equal. apply IH.
    intros a b Ha Hb. apply H; now right. }
  split; [exact E |]. split.
  { rewrite E. apply Forall_forall. intros e He. apply in_map_iff in He.
    destruct He as (c & <- & _). split; [reflexivity |].
    cbn [combined_entry combined_score category].
    now rewrite mul_by_zero, add_zero_r. }
  split; [reflexivity |].
  split; vm_compute; reflexivity.
Qed.

Lemma equal_counts_give_zero_population_score_witness :
  (forall c c',
      In c linen_cluster -> In c' linen_cluster -> count c = count c')
  /\ cluster_info [("linen", 9 # 10)] linen_cluster
     = map (fun c => combined_entry [("linen", 9 # 10)] c 0) linen_cluster
  /\ map (fun e => Qred (combined_score e))
         (cluster_info [("linen", 9 # 10)] linen_cluster) = [27 # 50].
Proof.
  assert (H : forall c c',
             In c linen_cluster -> In c' linen_cluster -> count c = count c').
  { intros c c' [<- | []] [<- | []]. reflexivity. }
  split; [exact H |]. split; [| vm_compute; reflexivity].
  exact (proj1 (equal_counts_give_zero_population_score
                  [("linen", 9 # 10)] linen_cluster H)).
Defined.

(** ** The trends endpoint *)

Section TrendsEndpoint.
Context {W : Type}.
Variable rt : Runtime W.

(** X8. [api_trends] never answers with status 500: a request with at least
    one keyword gets status 200, from the provider when the fetch succeeds,
    and otherwise from the mock generator, with the fetch error carried in
    the body when the fetch raised.  Whatever the source, the body holds one
    score in [0,1] for each distinct keyword, in the order of first
    occurrence, and the cluster cache is left as it was. *)
Theorem api_trends_answers_from_provider_or_mock
        (kw : string) (timeframe : string) (st : PyState W) :
  parse_keywords kw <> [] ->
  exists source tf err scores st',
    api_trends rt (Some kw) timeframe st
    = (Ok {| status_code := 200;
             content := BodyTrends source tf err scores |}, st')
    /\ CLUSTER_CACHE st' = CLUSTER_CACHE st
    /\ dict_keys scores = first_seen (parse_keywords kw)
    /\ Forall (fun kv => in_unit_interval (snd kv)) scores
    /\ ((HAS_PYTRENDS rt = false /\ source = "mock" /\ err = None
         /\ scores = mock_trend_scores rt (parse_keywords kw) /\ st' = st)
        \/ (HAS_PYTRENDS rt = true /\ source = "fallback_pytrends_error"
            /\ (exists e,
                   err = Some e
                   /\ fetch_google_trends rt (parse_keywords kw) timeframe st
                      = (Raise e, st'))
            /\ scores = mock_trend_scores rt (parse_keywords kw))
        \/ (HAS_PYTRENDS rt = true /\ source = "pytrends" /\ err = None
            /\ tf = Some timeframe
            /\ fetch_google_trends rt (parse_keywords kw) timeframe st
               = (Ok scores, st'))).
Proof.
  intro Hne.
  assert (Hkw : PyStr.truthy kw = true).
  { destruct kw; [elim Hne; reflexivity | reflexivity]. }
  destruct (mock_trend_scores_keys_values rt (parse_keywords kw))
    as (Hmk & Hmu).
  unfold api_trends, try_except. rewrite Hkw. cbn [negb].
  destruct (parse_keywords kw) as [| k ks] eqn:Ekws; [now elim Hne |].
  destruct (HAS_PYTRENDS rt) eqn:Hhas.
  - unfold bind.
    destruct (fetch_google_trends rt (k :: ks) timeframe st)
      as [[res | e] st1] eqn:E.
    + pose proof (fetch_google_trends_cache rt _ _ _ _ _ E) as Hc.
      destruct (fetch_google_trends_keys_values rt _ _ _ _ _ E)
        as (Hk & Hu).
      unfold respond, ret.
      exists "pytrends", (Some timeframe), None, res, st1.
      split; [reflexivity |]. split; [exact Hc |].
      split; [exact Hk |]. split; [exact Hu |].
      right. right. repeat split.
    + pose proof (fetch_google_trends_cache rt _ _ _ _ _ E) as Hc.
      unfold respond, ret.
      exists "fallback_pytrends_error", None, (Some e),
        (mock_trend_scores rt (k :: ks)), st1.
      split; [reflexivity |]. split; [exact Hc |].
      split; [exact Hmk |]. split; [exact Hmu |].
      right. left. split; [reflexivity |]. split; [reflexivity |].
      split; [| reflexivity]. exists e. split; reflexivity.
  - unfold respond, ret.
    exists "mock", None, None, (mock_trend_scores rt (k :: ks)), st.
    split; [reflexivity |]. split; [reflexivity |].
    split; [exact Hmk |]. split; [exact Hmu |].
    left. repeat split.
Qed.

End TrendsEndpoint.

Lemma api_trends_answers_from_provider_or_mock_witness :
  exists source tf err scores st',
    api_trends (demo_rt true false 0) (Some "linen, blocked") "today 12-m"
               fresh
    = (Ok {| status_code := 200;
             content := BodyTrends source tf err scores |}, st')
    /\ source = "fallback_pytrends_error"
    /\ err = Some "pytrends failure: 429"
    /\ dict_keys scores = ["linen"; "blocked"].
Proof.
  destruct (api_trends_answers_from_provider_or_mock
              (demo_rt true false 0) "linen, blocked" "today 12-m" fresh)
    as (source & tf & err & scores & st' & E & _).
  { vm_compute. discriminate. }
  exists source, tf, err, scores, st'. split; [exact E |].
  vm_compute in E. inversion E. repeat split.
Defined.

(** ** The combined endpoint *)

Lemma Forall_snd_In {V} (P : V -> Prop) (d : dict V) :
  Forall (fun kv => P (snd kv)) d -> forall k v, In (k, v) d -> P v.
Proof.
  intros H k v Hin. rewrite Forall_forall in H. apply (H (k, v) Hin).
Qed.

Lemma curated_scores_unit :
  Forall (fun kv => in_unit_interval (snd kv)) curated_scores.
Proof.
  unfold curated_scores, curated_trends, dict_of_pairs. simpl.
  repeat constructor; unfold Qle; simpl; lia.
Qed.

Lemma cluster_info_scores_unit (trend_scores : dict Q) (cs : list Cluster) :
  Forall (fun kv => in_unit_interval (snd kv)) trend_scores ->
  Forall (fun e => in_unit_interval (trend_score e)
                   /\ in_unit_interval (cluster_pop_score e)
                   /\ in_unit_interval (combined_score e))
         (cluster_info trend_scores cs).
Proof.
  intro Hts. pose proof (Forall_snd_In _ _ Hts) as Hin.
  unfold cluster_info. apply Forall_forall. intros e He.
  apply in_map_iff in He. destruct He as ([c p] & <- & Hcp).
  cbn [combined_entry trend_score cluster_pop_score combined_score fst snd].
  assert (Hp : in_unit_interval p).
  { apply in_combine_r in Hcp. now apply (pop_norm_unit cs). }
  assert (Ht : in_unit_interval
                 (dict_get_default trend_scores (resolved_category c) 0)).
  { now apply trend_val_unit. }
  split; [now apply round3_unit |]. split; [now apply round3_unit |].
  now apply round3_unit, weighted_sum_f64_unit.
Qed.

Lemma extra_trends_scores_unit (trend_scores : dict Q) (cs : list Cluster) :
  Forall (fun kv => in_unit_interval (snd kv)) trend_scores ->
  Forall (fun x => in_unit_interval (et_trend_score x))
         (extra_trends trend_scores (cluster_info trend_scores cs)).
Proof.
  intro Hts. rewrite extra_trends_filter. apply Forall_forall.
  intros x Hx. apply in_map_iff in Hx. destruct Hx as ([k v] & <- & Hkv).
  apply filter_In in Hkv. destruct Hkv as [Hin _].
  cbn [extra_of et_trend_score snd]. apply round3_unit.
  eapply Forall_snd_In; eassumption.
Qed.

Section CombinedEndpoint.
Context {W : Type}.
Variable rt : Runtime W.

(** The trend scores of [api_combined] never fail to come: from the
    provider, from the mock generator, or from the curated table. *)
Lemma combined_trend_scores_ok (keywords : option string) (st : PyState W) :
  exists ts st1,
    combined_trend_scores rt keywords st = (Ok ts, st1)
    /\ CLUSTER_CACHE st1 = CLUSTER_CACHE st
    /\ Forall (fun kv => in_unit_interval (snd kv)) ts.
Proof.
  destruct (truthy_opt keywords) eqn:Hk.
  - unfold combined_trend_scores. rewrite Hk.
    set (kws := parse_keywords _).
    destruct (mock_trend_scores_keys_values rt kws) as [_ Hmock].
    destruct (HAS_PYTRENDS rt).
    + unfold try_except.
      destruct (fetch_google_trends rt kws "today 12-m" st)
        as [[res | e] st1] eqn:E.
      * exists res, st1. split; [reflexivity |].
        split; [eapply fetch_google_trends_cache; exact E |].
        eapply fetch_google_trends_keys_values; exact E.
      * exists (mock_trend_scores rt kws), st1. split; [reflexivity |].
        split; [eapply fetch_google_trends_cache; exact E | exact Hmock].
    + exists (mock_trend_scores rt kws), st. repeat split. exact Hmock.
  - rewrite (combined_trend_scores_curated rt keywords st Hk).
    eexists. eexists. split; [reflexivity |]. split; [reflexivity |].
    apply curated_scores_unit.
Qed.

(** X9. [api_combined] answers every request with status 200, whatever the
    keywords, the cluster count and the state of the provider and of the
    clustering dependency: a failed fetch is replaced by mock scores and a
    failed clustering by a synthetic summary.  Every trend score, population
    score and combined score of the body lies in [0,1], and afterwards the
    cache holds the summary the body was built from, under the requested
    cluster count and the sample limit 5000. *)
Theorem api_combined_always_answers
        (keywords : option string) (n_clusters : Z) (st : PyState W) :
  exists ts v now st',
    api_combined rt keywords n_clusters st
    = (Ok {| status_code := 200;
             content := BodyCombined (combined_of ts v now)
                                     REFERENCE_ASSET_PATH |}, st')
    /\ CLUSTER_CACHE st' = Some (entry_for n_clusters 5000 v)
    /\ Forall (fun e => in_unit_interval (trend_score e)
                        /\ in_unit_interval (cluster_pop_score e)
                        /\ in_unit_interval (combined_score e))
              (cb_clusters (combined_of ts v now))
    /\ Forall (fun x => in_unit_interval (et_trend_score x))
              (cb_extra_trends (combined_of ts v now)).
Proof.
  destruct (combined_trend_scores_ok keywords st) as (ts & st1 & E1 & _ & Hts).
  destruct (compute_fashion_clusters_ok rt n_clusters 5000 st1)
    as (v & st2 & E2 & Hc2).
  exists ts, v, (fst (strftime_gmtime rt (world st2))).
  eexists. split.
  { unfold api_combined, try_except. unfold bind at 1. rewrite E1.
    unfold bind at 1. rewrite E2. unfold bind at 1.
    rewrite combine_trends_with_clusters_ok. unfold respond, ret.
    reflexivity. }
  split; [exact Hc2 |].
  cbn [combined_of cb_clusters cb_extra_trends].
  split; [now apply cluster_info_scores_unit |].
  now apply extra_trends_scores_unit.
Qed.

End CombinedEndpoint.

(** ** Synthetic summaries *)

Section Synthetic.
Context {W : Type}.
Variable rt : Runtime W.
Hypothesis Hrandint : randint_in_range rt.
Hypothesis Hchoice : choice_from_list rt.

Lemma synthetic_cluster_shape (lo : Z) (vocabulary : list string) (i : Z)
      (st st' : PyState W) (c : Cluster) :
  (lo <= 200)%Z -> vocabulary <> [] ->
  synthetic_cluster rt lo vocabulary i st = (Ok c, st') ->
  synthetic_shape lo vocabulary c.
Proof.
  intros Hlo Hvoc. unfold synthetic_cluster, bind, call_total, ret.
  pose proof (Hrandint lo 200%Z (world st) Hlo) as H0.
  destruct (random_randint rt lo 200 (world st)) as [cnt w1]. cbn [world].
  pose proof (Hrandint 0%Z 999%Z w1 ltac:(lia)) as H1.
  destruct (random_randint rt 0 999 w1) as [s1 w2]. cbn [world].
  pose proof (Hrandint 0%Z 999%Z w2 ltac:(lia)) as H2.
  destruct (random_randint rt 0 999 w2) as [s2 w3]. cbn [world].
  pose proof (Hrandint 0%Z 999%Z w3 ltac:(lia)) as H3.
  destruct (random_randint rt 0 999 w3) as [s3 w4]. cbn [world].
  pose proof (Hchoice vocabulary w4 Hvoc) as H4.
  destruct (random_choice rt vocabulary w4) as [lab w5].
  cbn [fst] in *. intro E. inversion E; subst. unfold synthetic_shape.
  cbn [count sample_indices label_hint centroid_norm].
  split; [exact H0 |]. split; [reflexivity |].
  split; [repeat constructor; lia |].
  split; [exists lab; split; [reflexivity | exact H4] | reflexivity].
Qed.

Lemma synthetic_loop_shape (lo : Z) (vocabulary : list string) (l : list Z) :
  (lo <= 200)%Z -> vocabulary <> [] ->
  forall acc st cl st',
    Forall (synthetic_shape lo vocabulary) acc ->
    for_each (fun acc i =>
                bind (synthetic_cluster rt lo vocabulary i)
                     (fun c => ret (acc ++ [c])%list))
             l acc st = (Ok cl, st') ->
    Forall (synthetic_shape lo vocabulary) cl.
Proof.
  intros Hlo Hvoc. induction l as [| i r IH]; intros acc st cl st' Hacc;
    cbn [for_each].
  - unfold ret. intro E. inversion E; subst. exact Hacc.
  - unfold bind at 1. unfold bind at 1.
    destruct (synthetic_cluster rt lo vocabulary i st) as [[c | e] st1] eqn:E1;
      [| intro E; discriminate E].
    unfold ret at 1. apply IH.
    apply Forall_app. split; [exact Hacc |].
    constructor; [| constructor].
    eapply synthetic_cluster_shape; eassumption.
Qed.

Lemma synthetic_summary_shape (source : string) (lo : Z)
      (vocabulary : list string) (n s : Z) (st : PyState W) :
  (lo <= 200)%Z -> vocabulary <> [] ->
  exists v st',
    synthetic_summary rt source lo vocabulary n s st = (Ok v, st')
    /\ CLUSTER_CACHE st' = Some (entry_for n s v)
    /\ meta v = {| meta_n_clusters := n; meta_source := source;
                   meta_sampled := None |}
    /\ map cluster_id (clusters v) = range n
    /\ Forall (synthetic_shape lo vocabulary) (clusters v).
Proof.
  intros Hlo Hvoc. unfold synthetic_summary, synthetic_clusters.
  destruct (synthetic_loop_ok rt lo vocabulary (range n) [] st)
    as (cl & st1 & E & _ & Hids).
  pose proof (synthetic_loop_shape lo vocabulary (range n) Hlo Hvoc
                [] st cl st1 (Forall_nil _) E) as Hshape.
  unfold bind at 1. rewrite E. unfold bind, set_cache, ret.
  eexists. eexists. split; [reflexivity |].
  split; [reflexivity |]. split; [reflexivity |].
  split; [exact Hids | exact Hshape].
Qed.

(** X10. Without the clustering dependency, a request that the cache does
    not answer gets a summary tagged "mock" with exactly the clusters
    [0, ..., n_clusters - 1] in order (none when the count is not positive),
    each with a count between 20 and 200, three sample indices between 0 and
    999 and a label among tops, dresses, shoes and accessories; the summary
    is stored under the request's key. *)
Theorem mock_summary_shape (n s : Z) (st : PyState W) :
  HAS_SKLEARN rt = false ->
  cache_hit (CLUSTER_CACHE st) (cache_key n s) = None ->
  exists v st',
    compute_fashion_clusters rt n s st = (Ok v, st')
    /\ CLUSTER_CACHE st' = Some (entry_for n s v)
    /\ meta v = {| meta_n_clusters := n; meta_source := "mock";
                   meta_sampled := None |}
    /\ map cluster_id (clusters v) = range n
    /\ List.length (clusters v) = Z.to_nat n
    /\ Forall (synthetic_shape 20
                 ["tops"; "dresses"; "shoes"; "accessories"])
              (clusters v).
Proof.
  intros Hsk Hmiss. rewrite (compute_miss rt n s st Hmiss).
  unfold recompute_clusters. rewrite Hsk. cbn [negb].
  destruct (synthetic_summary_shape "mock" 20
              ["tops"; "dresses"; "shoes"; "accessories"] n s st)
    as (v & st' & E & Hc & Hm & Hids & Hshape); [lia | discriminate |].
  exists v, st'. split; [exact E |]. split; [exact Hc |].
  split; [exact Hm |]. split; [exact Hids |]. split; [| exact Hshape].
  rewrite <- (length_map cluster_id), Hids. apply range_length.
Qed.

(** X11. With the clustering dependency importable, when the live path
    raises (the dataset cannot be fetched, the sampling or the clustering
    fails), the request is not failed: it gets a summary tagged
    "fallback_error" with the clusters [0, ..., n_clusters - 1], each with a
    count between 10 and 200, three sample indices between 0 and 999 and a
    label among tops, dresses and outerwear, and that summary is stored under
    the request's key. *)
Theorem fallback_summary_shape (n s : Z) (st st1 : PyState W) (e : string) :
  HAS_SKLEARN rt = true ->
  cache_hit (CLUSTER_CACHE st) (cache_key n s) = None ->
  live_pipeline rt n s st = (Raise e, st1) ->
  exists v st',
    compute_fashion_clusters rt n s st = (Ok v, st')
    /\ CLUSTER_CACHE st' = Some (entry_for n s v)
    /\ meta v = {| meta_n_clusters := n; meta_source := "fallback_error";
                   meta_sampled := None |}
    /\ map cluster_id (clusters v) = range n
    /\ List.length (clusters v) = Z.to_nat n
    /\ Forall (synthetic_shape 10 ["tops"; "dresses"; "outerwear"])
              (clusters v).
Proof.
  intros Hsk Hmiss Hraise. rewrite (compute_miss rt n s st Hmiss).
  unfold recompute_clusters. rewrite Hsk. cbn [negb].
  unfold try_except. rewrite Hraise.
  destruct (synthetic_summary_shape "fallback_error" 10
              ["tops"; "dresses"; "outerwear"] n s st1)
    as (v & st' & E & Hc & Hm & Hids & Hshape); [lia | discriminate |].
  exists v, st'. split; [exact E |]. split; [exact Hc |].
  split; [exact Hm |]. split; [exact Hids |]. split; [| exact Hshape].
  rewrite <- (length_map cluster_id), Hids. apply range_length.
Qed.

End Synthetic.

Lemma demo_randint_in_range (pytrends sklearn : bool) (seed : Z) :
  randint_in_range (demo_rt pytrends sklearn seed).
Proof.
  intros lo hi w H. cbn [demo_rt random_randint fst].
  pose proof (Z.mod_pos_bound (Z.of_nat (List.length w)) (hi - lo + 1)
                              ltac:(lia)). lia.
Qed.

Lemma demo_choice_from_list (pytrends sklearn : bool) (seed : Z) :
  choice_from_list (demo_rt pytrends sklearn seed).
Proof.
  intros vocabulary w H. cbn [demo_rt random_choice fst].
  apply nth_In. apply Nat.mod_upper_bound.
  destruct vocabulary; [now elim H | discriminate].
Qed.

Lemma mock_summary_shape_witness :
  exists v st',
    compute_fashion_clusters (demo_rt false false 0) 2 5000 fresh
    = (Ok v, st')
    /\ map cluster_id (clusters v) = [0; 1]%Z
    /\ map count (clusters v) = [20; 25]%Z.
Proof.
  destruct (mock_summary_shape (demo_rt false false 0)
              (demo_randint_in_range false false 0)
              (demo_choice_from_list false false 0)
              2 5000 fresh eq_refl eq_refl)
    as (v & st' & E & _ & _ & Hids & _).
  exists v, st'. split; [exact E |]. split; [exact Hids |].
  vm_compute in E. inversion E. reflexivity.
Defined.

Lemma fallback_summary_shape_witness :
  exists v st',
    compute_fashion_clusters (demo_rt true true 0) 20 5 fresh = (Ok v, st')
    /\ meta_source (meta v) = "fallback_error"
    /\ List.length (clusters v) = 20%nat.
Proof.
  destruct (fallback_summary_shape (demo_rt true true 0)
              (demo_randint_in_range true true 0)
              (demo_choice_from_list true true 0)
              20 5 fresh
              {| CLUSTER_CACHE := None;
                 world := ["fetch_openml"; "pca_kmeans"] |}
              "ValueError" eq_refl eq_refl)
    as (v & st' & E & _ & Hm & _ & Hlen & _).
  - vm_compute. reflexivity.
  - exists v, st'. split; [exact E |]. split; [now rewrite Hm | exact Hlen].
Defined.

(** ** Categories of the live clusters *)

Lemma live_clusters_labels (idx : list Z) (fit : KMeansFit) (cs : list Z) :
  forall cl,
    live_clusters idx fit cs = Ok cl ->
    Forall (fun c => label_hint c = Some "unknown") cl.
Proof.
  induction cs as [| c r IH]; intros cl; cbn [live_clusters].
  - intro H. inversion H. constructor.
  - unfold live_cluster.
    destruct (sample_inds idx (firstn 5 (where_eq (fit_labels fit) c 0)))
      as [s | e]; [| intro H; discriminate H].
    destruct (live_clusters idx fit r) as [xs | e];
      [| intro H; discriminate H].
    intro H. inversion H; subst. constructor; [reflexivity |].
    now apply IH.
Qed.

Lemma live_pipeline_labels {W} (rt : Runtime W) (n s : Z)
      (st st' : PyState W) (v : ClusterSummary) :
  live_pipeline rt n s st = (Ok v, st') ->
  Forall (fun c => label_hint c = Some "unknown") (clusters v).
Proof.
  intro E.
  destruct (live_pipeline_cases rt n s st)
    as [(e & st1 & E') | (rows & idx & fit & cl & w1 & w2 & _ & _ & _ & Hcl & E')].
  - rewrite E in E'. discriminate E'.
  - cbv zeta in E'. rewrite E in E'. inversion E'; subst. cbn [clusters].
    eapply live_clusters_labels, Hcl.
Qed.

Lemma unmatched_unknown (cs : list Cluster) (k : string) :
  cs <> [] ->
  Forall (fun c => label_hint c = Some "unknown") cs ->
  unmatched cs k = negb (String.eqb "unknown" k).
Proof.
  intros Hne Hall. unfold unmatched. f_equal.
  induction Hall as [| c r Hc Hr IH]; [now elim Hne |].
  cbn [existsb]. unfold resolved_category at 1. rewrite Hc.
  cbn [PyStr.truthy String.eqb Ascii.eqb Bool.eqb negb].
  destruct r as [| c' r']; [cbn [existsb]; apply orb_false_r |].
  rewrite IH by discriminate. apply orb_diag.
Qed.

(** X12. The live path labels every cluster "unknown", so in a combination
    with a live summary every entry has the category "unknown" and the trend
    score of the keyword "unknown" (0 when nobody asked for it), whatever the
    trend scores are; and, unless the summary is empty, the extra trends are
    all the items of the trend mapping but "unknown", in order. *)
Theorem live_clusters_resolve_to_unknown {W} (rt : Runtime W) (n s : Z)
        (st st' : PyState W) (v : ClusterSummary) (trend_scores : dict Q) :
  live_pipeline rt n s st = (Ok v, st') ->
  Forall (fun e =>
            category e = "unknown"
            /\ trend_score e
               = Py.round3 (dict_get_default trend_scores "unknown" 0))
         (cluster_info trend_scores (clusters v))
  /\ (clusters v <> [] ->
      extra_trends trend_scores (cluster_info trend_scores (clusters v))
      = map extra_of
            (filter (fun kv => negb (String.eqb "unknown" (fst kv)))
                    trend_scores)).
Proof.
  intro E. pose proof (live_pipeline_labels rt n s st st' v E) as Hall.
  split.
  - unfold cluster_info. apply Forall_forall. intros e He.
    apply in_map_iff in He. destruct He as ([c p] & <- & Hcp).
    apply in_combine_l in Hcp. rewrite Forall_forall in Hall.
    cbn [combined_entry category trend_score fst snd].
    unfold resolved_category. rewrite (Hall c Hcp). split; reflexivity.
  - intro Hne. rewrite extra_trends_filter. f_equal.
    apply filter_ext. intro kv. now apply unmatched_unknown.
Qed.

Lemma live_clusters_resolve_to_unknown_witness :
  exists v st',
    live_pipeline (demo_rt true true 0) 3 5 fresh = (Ok v, st')
    /\ map category (cluster_info denim_linen (clusters v))
       = ["unknown"; "unknown"; "unknown"]
    /\ map et_category
           (extra_trends denim_linen (cluster_info denim_linen (clusters v)))
       = ["denim"; "linen"].
Proof.
  eexists. eexists.
  assert (E : live_pipeline (demo_rt true true 0) 3 5 fresh
              = (Ok (fst (let r := live_pipeline (demo_rt true true 0) 3 5
                                                 fresh in
                          (match fst r with
                           | Ok v => v
                           | Raise _ => {| meta := {| meta_n_clusters := 0;
                                                      meta_source := EmptyString;
                                                      meta_sampled := None |};
                                           clusters := [] |}
                           end, tt))),
                 snd (live_pipeline (demo_rt true true 0) 3 5 fresh))).
  { vm_compute. reflexivity. }
  split; [exact E |].
  pose proof (live_clusters_resolve_to_unknown _ _ _ _ _ _ denim_linen E)
    as [_ Hextra].
  split; [vm_compute; reflexivity |].
  rewrite Hextra; [vm_compute; reflexivity |].
  vm_compute. discriminate.
Defined.

(** ** Splitting and stripping the keyword parameter *)

Lemma split_nonempty (sep : ascii) (s : string) : PyStr.split sep s <> [].
Proof.
  destruct s as [| c r]; simpl; [discriminate |].
  destruct (Ascii.eqb c sep); [discriminate |].
  destruct (PyStr.split sep r); discriminate.
Qed.

Lemma join_cons_char (sep c : ascii) (h : string) (t : list string) :
  join sep (String c h :: t) = String c (join sep (h :: t)).
Proof. destruct t; reflexivity. Qed.

Lemma split_fields_clean (sep : ascii) (s : string) :
  Forall (fun p => contains sep p = false) (PyStr.split sep s).
Proof.
  induction s as [| c r IH]; simpl; [repeat constructor |].
  destruct (Ascii.eqb c sep) eqn:E; [constructor; [reflexivity | exact IH] |].
  destruct (PyStr.split sep r) as [| h t];
    [repeat constructor; simpl; now rewrite E |].
  inversion IH; subst. constructor; [simpl; now rewrite E | assumption].
Qed.

(** Splitting on a separator loses nothing: joining the fields with the
    separator gives the string back, there is one field more than there are
    separators in the string (so always at least one), and no field contains
    the separator. *)
Lemma split_join_round_trip (sep : ascii) (s : string) :
  join sep (PyStr.split sep s) = s
  /\ List.length (PyStr.split sep s) = S (occurrences sep s)
  /\ Forall (fun p => contains sep p = false) (PyStr.split sep s).
Proof.
  split; [| split; [| apply split_fields_clean]].
  - induction s as [| c r IH]; [reflexivity |].
    cbn [PyStr.split]. destruct (Ascii.eqb_spec c sep) as [-> | Hne].
    + pose proof (split_nonempty sep r) as Hn.
      destruct (PyStr.split sep r) as [| h t]; [now elim Hn |].
      cbn [join]. cbn [join] in IH. rewrite IH. reflexivity.
    + pose proof (split_nonempty sep r) as Hn.
      destruct (PyStr.split sep r) as [| h t]; [now elim Hn |].
      rewrite join_cons_char, IH. reflexivity.
  - induction s as [| c r IH]; [reflexivity |].
    cbn [PyStr.split occurrences]. destruct (Ascii.eqb c sep).
    + cbn [List.length]. now rewrite IH.
    + pose proof (split_nonempty sep r) as Hn.
      destruct (PyStr.split sep r) as [| h t]; [now elim Hn |].
      cbn [List.length] in *. exact IH.
Qed.

Lemma lstrip_head (s : string) :
  PyStr.lstrip s = EmptyString
  \/ exists c r, PyStr.lstrip s = String c r /\ PyStr.isspace c = false.
Proof.
  induction s as [| c r IH]; [now left |].
  cbn [PyStr.lstrip]. destruct (PyStr.isspace c) eqn:E; [exact IH |].
  right. exists c, r. split; [reflexivity | exact E].
Qed.

Lemma rstrip_cons_nonspace (c : ascii) (r : string) :
  PyStr.isspace c = false ->
  PyStr.rstrip (String c r) = String c (PyStr.rstrip r).
Proof.
  intro H. cbn [PyStr.rstrip]. destruct (PyStr.rstrip r); [now rewrite H |].
  reflexivity.
Qed.

Lemma rstrip_idempotent (s : string) :
  PyStr.rstrip (PyStr.rstrip s) = PyStr.rstrip s.
Proof.
  induction s as [| c r IH]; [reflexivity |].
  cbn [PyStr.rstrip]. destruct (PyStr.rstrip r) as [| a r'] eqn:E.
  - destruct (PyStr.isspace c) eqn:Hc; [reflexivity |].
    cbn [PyStr.rstrip]. now rewrite Hc.
  - change (PyStr.rstrip (String c (String a r')))
      with (match PyStr.rstrip (String a r') with
            | EmptyString =>
                if PyStr.isspace c then EmptyString else String c EmptyString
            | String b t => String c (String b t)
            end).
    rewrite IH. reflexivity.
Qed.

Lemma strip_idempotent (s : string) :
  PyStr.strip (PyStr.strip s) = PyStr.strip s.
Proof.
  unfold PyStr.strip.
  destruct (lstrip_head s) as [-> | (c & r & -> & Hc)]; [reflexivity |].
  rewrite (rstrip_cons_nonspace c r Hc). cbn [PyStr.lstrip]. rewrite Hc.
  rewrite (rstrip_cons_nonspace c _ Hc). now rewrite rstrip_idempotent.
Qed.

Lemma contains_lstrip (c : ascii) (s : string) :
  contains c s = false -> contains c (PyStr.lstrip s) = false.
Proof.
  induction s as [| a r IH]; [reflexivity |].
  cbn [PyStr.lstrip]. destruct (PyStr.isspace a); [| tauto].
  cbn [contains]. intro H. apply orb_false_iff in H. now apply IH.
Qed.

Lemma contains_rstrip (c : ascii) (s : string) :
  contains c s = false -> contains c (PyStr.rstrip s) = false.
Proof.
  induction s as [| a r IH]; [reflexivity |].
  cbn [contains]. intro H. apply orb_false_iff in H. destruct H as [Ha Hr].
  specialize (IH Hr). cbn [PyStr.rstrip].
  destruct (PyStr.rstrip r) as [| b r'].
  - destruct (PyStr.isspace a); [reflexivity |].
    cbn [contains]. now rewrite Ha.
  - cbn [contains] in *. now rewrite Ha.
Qed.

(** X13. Every keyword that an endpoint reads from its [keywords] parameter
    is clean: it is not empty, it has no white space at either end (stripping
    it again changes nothing) and it contains no comma; and there are at most
    as many keywords as comma-separated fields. *)
Theorem parse_keywords_clean (keywords : string) :
  Forall (fun k => k <> EmptyString
                   /\ PyStr.strip k = k
                   /\ contains "," k = false)
         (parse_keywords keywords)
  /\ (List.length (parse_keywords keywords)
      <= S (occurrences "," keywords))%nat.
Proof.
  unfold parse_keywords. split.
  - apply Forall_forall. intros k Hk. apply filter_In in Hk.
    destruct Hk as [Hin Htruthy]. apply in_map_iff in Hin.
    destruct Hin as (field & <- & Hfield).
    split.
    + intro E. rewrite E in Htruthy. discriminate Htruthy.
    + split; [apply strip_idempotent |].
      pose proof (split_fields_clean "," keywords) as Hclean.
      rewrite Forall_forall in Hclean.
      unfold PyStr.strip. apply contains_rstrip, contains_lstrip.
      now apply Hclean.
  - eapply Nat.le_trans; [apply filter_length_le |].
    rewrite length_map.
    assert (E : List.length (PyStr.split "," keywords)
                = S (occurrences "," keywords)).
    { clear. induction keywords as [| c r IH]; [reflexivity |].
      cbn [PyStr.split occurrences]. destruct (Ascii.eqb c ",").
      - cbn [List.length]. now rewrite IH.
      - pose proof (split_nonempty "," r) as Hn.
        destruct (PyStr.split "," r) as [| h t]; [now elim Hn |].
        cbn [List.length] in *. exact IH. }
    now rewrite E.
Qed.

(** ** Order and range of the normalized scores *)

(** The two forms of the result of [safe_normalize]. *)
Lemma safe_normalize_form (scores : list Q) :
  (all_equal (map clamp0 scores)
   /\ safe_normalize scores = map (fun _ => 0) scores)
  \/ exists mn mx,
      mn < mx
      /\ is_min mn (map clamp0 scores) /\ is_max mx (map clamp0 scores)
      /\ safe_normalize scores
         = map (fun s => (clamp0 s - mn) / (mx - mn)) scores.
Proof.
  destruct scores as [| s r]; [left; split; [intros a b [] | reflexivity] |].
  rewrite safe_normalize_cons. cbv zeta.
  pose proof (max_list_is_max (clamp0 s) (map clamp0 r)) as Hmax.
  pose proof (min_list_is_min (clamp0 s) (map clamp0 r)) as Hmin.
  set (smax := Py.max_list (clamp0 s) (map clamp0 r)) in *.
  set (smin := Py.min_list (clamp0 s) (map clamp0 r)) in *.
  change (clamp0 s :: map clamp0 r) with (map clamp0 (s :: r)) in *.
  assert (Hle : smin <= smax).
  { eapply min_le_max; [| exact Hmin | exact Hmax]. discriminate. }
  destruct (Qeq_bool smax smin) eqn:E.
  - left. split; [| now rewrite map_map].
    apply Qeq_bool_eq in E. eapply all_equal_of_min_eq_max; eassumption.
  - right. exists smin, smax.
    assert (Hlt : smin < smax).
    { apply Qle_lteq in Hle. destruct Hle as [Hlt | Heq]; [exact Hlt |].
      symmetry in Heq. apply Qeq_eq_bool in Heq. congruence. }
    split; [exact Hlt |]. split; [exact Hmin |]. split; [exact Hmax |].
    now rewrite map_map.
Qed.

Lemma scale_monotone (a b lo hi : Q) :
  lo < hi -> a <= b -> (a - lo) / (hi - lo) <= (b - lo) / (hi - lo).
Proof.
  intros Hlt Hab. unfold Qdiv. apply Qmult_le_compat_r; [lra |].
  apply Qlt_le_weak, Qinv_lt_0_compat. lra.
Qed.

(** X14. Normalizing keeps the order of the clamped inputs: a position whose
    clamped input is not greater than that of another position does not get a
    greater output.  Unless the input is empty, some output is 0; and unless
    all clamped inputs are equal, some output is 1, so the outputs then span
    the whole interval. *)
Theorem safe_normalize_keeps_order (scores : list Q) :
  (forall i j a b x y,
      nth_error scores i = Some a -> nth_error scores j = Some b ->
      nth_error (safe_normalize scores) i = Some x ->
      nth_error (safe_normalize scores) j = Some y ->
      clamp0 a <= clamp0 b -> x <= y)
  /\ (scores <> [] -> Exists (fun y => y == 0) (safe_normalize scores))
  /\ (~ all_equal (map clamp0 scores) ->
      Exists (fun y => y == 1) (safe_normalize scores)).
Proof.
  destruct (safe_normalize_form scores)
    as [[Hall E] | (mn & mx & Hlt & Hmin & Hmax & E)]; rewrite E.
  - split; [| split].
    + intros i j a b x y Ha Hb Hx Hy _.
      rewrite nth_error_map, Ha in Hx. rewrite nth_error_map, Hb in Hy.
      inversion Hx; inversion Hy; subst. apply Qle_refl.
    + intro Hne. destruct scores as [| s r]; [now elim Hne |].
      constructor. apply Qeq_refl.
    + intro Hne. now elim Hne.
  - split; [| split].
    + intros i j a b x y Ha Hb Hx Hy Hab.
      rewrite nth_error_map, Ha in Hx. rewrite nth_error_map, Hb in Hy.
      inversion Hx; inversion Hy; subst. now apply scale_monotone.
    + intros _. destruct Hmin as [Hex _]. apply Exists_exists in Hex.
      destruct Hex as (m & Hm & Em). apply in_map_iff in Hm.
      destruct Hm as (t & Et & Ht). apply Exists_exists.
      exists ((clamp0 t - mn) / (mx - mn)). split.
      * apply in_map_iff. exists t. split; [reflexivity | exact Ht].
      * rewrite Et, Em. unfold Qdiv. ring.
    + intros _. destruct Hmax as [Hex _]. apply Exists_exists in Hex.
      destruct Hex as (m & Hm & Em). apply in_map_iff in Hm.
      destruct Hm as (t & Et & Ht). apply Exists_exists.
      exists ((clamp0 t - mn) / (mx - mn)). split.
      * apply in_map_iff. exists t. split; [reflexivity | exact Ht].
      * rewrite Et, Em. apply Qmult_inv_r. lra.
Qed.

(** ** A provider without data *)

Lemma dict_set_zero (d : dict Q) (k : string) :
  Forall (fun kv => snd kv = 0) d ->
  Forall (fun kv => snd kv = 0) (dict_set d k 0).
Proof.
  induction 1 as [| [k' v'] r Hv Hr IH]; cbn [dict_set].
  - repeat constructor.
  - destruct (String.eqb k' k); constructor; auto.
Qed.

Lemma dict_fold_zero (l : list string) :
  forall d,
    Forall (fun kv => snd kv = 0) d ->
    Forall (fun kv => snd kv = 0)
           (fold_left (fun d k => dict_set d k 0) l d).
Proof.
  induction l as [| k r IH]; intros d H; cbn [fold_left]; [exact H |].
  apply IH. now apply dict_set_zero.
Qed.

Lemma dict_get_default_zero (d : dict Q) (k : string) :
  Forall (fun kv => snd kv = 0) d -> dict_get_default d k 0 = 0.
Proof.
  intro H. unfold dict_get_default.
  destruct (dict_get d k) as [v |] eqn:E; [| reflexivity].
  apply dict_get_In in E. rewrite Forall_forall in H. apply (H (k, v) E).
Qed.

Section NoData.
Context {W : Type}.
Variable rt : Runtime W.
Hypothesis Hnodata : provider_has_no_data rt.

Lemma provider_call_no_data (chunk : list string) (timeframe : string)
      (st st' : PyState W) (df : Frame) :
  provider_call rt chunk timeframe st = (Ok df, st') ->
  frame_empty df = true.
Proof.
  unfold provider_call, bind, call.
  destruct (build_payload rt chunk timeframe (world st)) as [[[] | e] w1];
    [| intro H; discriminate H].
  cbn [world].
  destruct (interest_over_time rt w1) as [[df' | e] w2] eqn:E;
    [| intro H; discriminate H].
  intro H. inversion H; subst. eapply Hnodata, E.
Qed.

Lemma fetch_loop_no_data (timeframe : string) (batches : list (list string)) :
  forall acc st d st',
    Forall (fun kv => snd kv = 0) acc ->
    for_each (fetch_chunk rt timeframe) batches acc st = (Ok d, st') ->
    Forall (fun kv => snd kv = 0) d.
Proof.
  induction batches as [| b bs IH]; intros acc st d st' Hacc;
    cbn [for_each].
  - unfold ret. intro H. inversion H; subst. exact Hacc.
  - unfold bind at 1. unfold fetch_chunk, try_except. unfold bind at 1.
    destruct (provider_call rt b timeframe st) as [[df | e] st1] eqn:E;
      [| unfold raise; intro H; discriminate H].
    rewrite (provider_call_no_data _ _ _ _ _ E). unfold ret at 1.
    apply IH. now apply dict_fold_zero.
Qed.

(** X15. When the provider has no data (every frame it returns is empty), a
    fetch that succeeds gives the score 0 to every distinct keyword: the
    missing series count as raw score 0 and the equal raw scores normalize to
    zero. *)
Theorem fetch_without_data_scores_zero
        (keywords : list string) (timeframe : string)
        (st st' : PyState W) (m : dict Q) :
  fetch_google_trends rt keywords timeframe st = (Ok m, st') ->
  m = map (fun k => (k, Py.round4 0)) (first_seen keywords).
Proof.
  unfold fetch_google_trends. destruct (HAS_PYTRENDS rt); cbn [negb];
    [| unfold raise; intro H; discriminate H].
  unfold bind at 1.
  destruct (call (TrendReq rt) st) as [[[] | e] st0];
    [| intro H; discriminate H].
  unfold bind.
  destruct (for_each (fetch_chunk rt timeframe) (chunks keywords) [] st0)
    as [[d | e] st1] eqn:E1; [| intro H; discriminate H].
  pose proof (fetch_loop_no_data _ _ _ _ _ _ (Forall_nil _) E1) as Hzero.
  apply fetch_loop_cases in E1. destruct E1 as [_ Hk].
  specialize (Hk d eq_refl).
  destruct (chunks_partition_keys keywords) as [Hconcat _].
  rewrite Hconcat in Hk. cbn [dict_keys map] in Hk.
  unfold ret. intro H. inversion H as [[Hm Hst]]. clear H.
  fold (first_seen keywords) in Hk. rewrite Hk.
  rewrite (map_ext_in _ (fun _ => 0))
    by (intros k _; now apply dict_get_default_zero).
  rewrite safe_normalize_all_equal.
  - rewrite map_map.
    rewrite dict_of_pairs_nodup.
    + generalize (first_seen keywords) as l.
      induction l as [| k r IH]; [reflexivity |].
      cbn [map combine fst snd]. now rewrite IH.
    + rewrite map_map. cbn [fst]. rewrite map_fst_combine.
      * apply first_seen_keys.
      * now rewrite !length_map.
  - intros a b Ha Hb. rewrite !map_map in Ha, Hb.
    apply in_map_iff in Ha. destruct Ha as (_ & <- & _).
    apply in_map_iff in Hb. destruct Hb as (_ & <- & _). apply Qeq_refl.
Qed.

End NoData.

Lemma nodata_rt_has_no_data : provider_has_no_data nodata_rt.
Proof.
  intros w df w' H. cbn [nodata_rt interest_over_time] in H.
  inversion H. reflexivity.
Qed.

Lemma fetch_without_data_scores_zero_witness :
  fetch_google_trends nodata_rt ["linen"; "denim"] "today 12-m" fresh
  = (Ok [("linen", Py.round4 0); ("denim", Py.round4 0)],
     {| CLUSTER_CACHE := None;
        world := ["TrendReq"; "build_payload"; "interest_over_time"] |})
  /\ [("linen", Py.round4 0); ("denim", Py.round4 0)]
     = map (fun k => (k, Py.round4 0)) (first_seen ["linen"; "denim"]).
Proof.
  assert (E : fetch_google_trends nodata_rt ["linen"; "denim"] "today 12-m"
                fresh
              = (Ok [("linen", Py.round4 0); ("denim", Py.round4 0)],
                 {| CLUSTER_CACHE := None;
                    world := ["TrendReq"; "build_payload";
                              "interest_over_time"] |})).
  { vm_compute. reflexivity. }
  split; [exact E |].
  apply (fetch_without_data_scores_zero nodata_rt nodata_rt_has_no_data
           _ _ _ _ _ E).
Defined.

(** ** Blank keywords in the combined endpoint *)

Section BlankKeywords.
Context {W : Type}.
Variable rt : Runtime W.

Lemma combined_trend_scores_blank (kw : string) (st : PyState W) :
  PyStr.truthy kw = true -> parse_keywords kw = [] ->
  exists st1, combined_trend_scores rt (Some kw) st = (Ok [], st1).
Proof.
  intros Hkw Hparse. unfold combined_trend_scores. cbn [truthy_opt].
  rewrite Hkw, Hparse. destruct (HAS_PYTRENDS rt) eqn:Hhas.
  - unfold try_except, fetch_google_trends. rewrite Hhas. cbn [negb].
    unfold bind, call. cbn [chunks chunks_fuel List.length for_each].
    unfold ret.
    destruct (TrendReq rt (world st)) as [[[] | e] w];
      eexists; reflexivity.
  - eexists. reflexivity.
Qed.

(** X16. A [keywords] parameter that is not empty but holds no keyword
    (only commas and white space) is not rejected by [api_combined], and is
    not replaced by the curated trends either: the request is answered with
    status 200 from an empty trend mapping, so the body has no extra trend and
    every entry has the trend score 0. *)
Theorem api_combined_blank_keywords
        (kw : string) (n_clusters : Z) (st : PyState W) :
  PyStr.truthy kw = true -> parse_keywords kw = [] ->
  exists v now st',
    api_combined rt (Some kw) n_clusters st
    = (Ok {| status_code := 200;
             content := BodyCombined (combined_of [] v now)
                                     REFERENCE_ASSET_PATH |}, st')
    /\ cb_extra_trends (combined_of [] v now) = []
    /\ Forall (fun e => trend_score e = Py.round3 0)
              (cb_clusters (combined_of [] v now)).
Proof.
  intros Hkw Hparse.
  destruct (combined_trend_scores_blank kw st Hkw Hparse) as (st1 & E1).
  destruct (compute_fashion_clusters_ok rt n_clusters 5000 st1)
    as (v & st2 & E2 & _).
  exists v, (fst (strftime_gmtime rt (world st2))). eexists.
  split.
  { unfold api_combined, try_except. unfold bind at 1. rewrite E1.
    unfold bind at 1. rewrite E2. unfold bind at 1.
    rewrite combine_trends_with_clusters_ok. unfold respond, ret.
    reflexivity. }
  split; [reflexivity |].
  cbn [combined_of cb_clusters]. unfold cluster_info.
  apply Forall_forall. intros e He. apply in_map_iff in He.
  destruct He as ([c p] & <- & _). reflexivity.
Qed.

End BlankKeywords.

Lemma api_combined_blank_keywords_witness :
  exists v now st',
    api_combined (demo_rt true false 0) (Some " , ") 2 fresh
    = (Ok {| status_code := 200;
             content := BodyCombined (combined_of [] v now)
                                     REFERENCE_ASSET_PATH |}, st').
Proof.
  destruct (api_combined_blank_keywords (demo_rt true false 0) " , " 2 fresh
              eq_refl eq_refl) as (v & now & st' & E & _).
  exists v, now, st'. exact E.
Defined.

(** ** A live run without subsampling *)

Lemma original_index_range (rows i : Z) :
  (0 <= i < rows)%Z -> original_index (range rows) i = i.
Proof.
  intro H. unfold original_index, range.
  rewrite (nth_indep _ 0%Z (Z.of_nat 0)) by (rewrite length_map, length_seq; lia).
  rewrite map_nth, seq_nth by lia. lia.
Qed.

Section NoSubsampling.
Context {W : Type}.
Variable rt : Runtime W.

(** X17. When the sample limit is 0 or the dataset has no more rows than the
    sample limit, the live path clusters the whole dataset without asking the
    seeded sampler: the summary reports all the rows as sampled, the counts
    add up to the number of rows, and the sample indices of a cluster are the
    first five dataset positions that carry its label. *)
Theorem live_summary_without_subsampling
        (st : PyState W) (n s rows : Z) (fit : KMeansFit) (w1 w2 : W) :
  HAS_SKLEARN rt = true ->
  cache_hit (CLUSTER_CACHE st) (cache_key n s) = None ->
  fetch_openml rt (world st) = (Ok rows, w1) ->
  (s = 0 \/ rows <= s)%Z ->
  pca_kmeans rt (range rows) n w1 = (Ok fit, w2) ->
  List.length (fit_labels fit) = Z.to_nat rows ->
  Forall (fun l => (0 <= l < n)%Z) (fit_labels fit) ->
  exists v,
    compute_fashion_clusters rt n s st
    = (Ok v, {| CLUSTER_CACHE := Some (entry_for n s v); world := w2 |})
    /\ meta_sampled (meta v) = Some (Z.max 0 rows)
    /\ sum_counts (clusters v) = Z.max 0 rows
    /\ map cluster_id (clusters v) = range n
    /\ Forall (fun c =>
                 sample_indices c
                 = firstn 5 (where_eq (fit_labels fit) (cluster_id c) 0))
              (clusters v).
Proof.
  intros Hsk Hmiss Hfetch Hs Hfit Hlen Hlabels.
  assert (Hidx : sample_idx rt rows s = Ok (range rows)).
  { unfold sample_idx.
    destruct Hs as [-> | Hs]; [reflexivity |].
    replace (Z.ltb s rows) with false by (symmetry; apply Z.ltb_ge; lia).
    now rewrite andb_false_r. }
  assert (Hlen' : List.length (fit_labels fit) = List.length (range rows)).
  { now rewrite range_length. }
  exists {| meta := {| meta_n_clusters := n;
                       meta_source := "fashion-mnist";
                       meta_sampled :=
                         Some (Z.of_nat (List.length (range rows))) |};
            clusters := map (expected_live_cluster (range rows) fit)
                            (range n) |}.
  split.
  { rewrite (compute_miss rt n s st Hmiss).
    unfold recompute_clusters. rewrite Hsk. cbn [negb].
    unfold try_except, live_pipeline, bind, call, lift_exc, set_cache, ret.
    rewrite Hfetch, Hidx. cbn [world]. rewrite Hfit.
    rewrite (live_clusters_ok (range rows) fit (range n) Hlen').
    reflexivity. }
  cbn [meta meta_sampled clusters].
  split; [rewrite range_length; f_equal; lia |].
  split; [rewrite sum_counts_expected by assumption; rewrite Hlen; lia |].
  split.
  { rewrite map_map. cbn [expected_live_cluster cluster_id]. apply map_id. }
  apply Forall_forall. intros c Hc. apply in_map_iff in Hc.
  destruct Hc as (k & <- & _).
  cbn [expected_live_cluster sample_indices cluster_id].
  rewrite <- (map_id (firstn 5 (where_eq (fit_labels fit) k 0))) at 2.
  apply map_ext_in. intros i Hi.
  apply In_firstn, where_eq_spec in Hi. apply original_index_range. lia.
Qed.

End NoSubsampling.

Lemma live_summary_without_subsampling_witness :
  exists v,
    compute_fashion_clusters (demo_rt true true 0) 3 5000 fresh
    = (Ok v, {| CLUSTER_CACHE := Some (entry_for 3 5000 v);
                world := ["fetch_openml"; "pca_kmeans"] |})
    /\ meta_sampled (meta v) = Some 12%Z
    /\ sum_counts (clusters v) = 12%Z.
Proof.
  destruct (live_summary_without_subsampling (demo_rt true true 0)
              fresh 3 5000 12 (demo_fit (range 12) 3)
              ["fetch_openml"] ["fetch_openml"; "pca_kmeans"]
              eq_refl eq_refl eq_refl)
    as (v & E & Hs & Hsum & _).
  - right. lia.
  - reflexivity.
  - reflexivity.
  - repeat constructor; vm_compute; congruence.
  - exists v. split; [exact E |]. split; [exact Hs | exact Hsum].
Defined.
